(** * SPSA tuner and perft harness of the chess engine: a shallow embedding

    The development follows [tuner/spsa_tuner.py] and [tests/perft_test.py].

    Conventions of the embedding:
    - a Python [float] is an exact real number ([R]): the rounding of
      binary64, its infinities and NaN, and the [OverflowError] of [**] are
      outside the model;
    - a Python [int] is an integer ([Z]); a counter that only counts up from
      [0] is a [nat];
    - a Python [str] is a [string] of ASCII characters;
    - a Python exception is a value of type [exn], a computation that can
      raise has type [result A], [try ... except] is [try_except]: a
      function whose type is not a [result] returns on every input;
    - whatever the outside world decides (what a child process does, what
      the random number generator draws) is an explicit input of the
      function that consults it. *)

From Stdlib Require Import String Ascii List ZArith Bool Reals Lra Lia DecimalString.
Import ListNotations.

(** ** The part of the Python runtime the two scripts use *)

Module Py.

(** *** Exceptions *)

Inductive exn : Type :=
| IndexError
| ValueError
| ZeroDivisionError
| TimeoutExpired
| OSError.

Inductive result (A : Type) : Type :=
| Ok (a : A)
| Raise (e : exn).

Arguments Ok {A} a.
Arguments Raise {A} e.

Definition bind {A B : Type} (c : result A) (k : A -> result B) : result B :=
  match c with
  | Ok a => k a
  | Raise e => Raise e
  end.

Module Notations.
Notation "x <- c ;; k" := (bind c (fun x => k))
  (at level 61, c at next level, right associativity).
Notation "' p <- c ;; k" := (bind c (fun x => let p := x in k))
  (at level 61, p pattern, c at next level, right associativity).
End Notations.
Import Notations.

(** [try: body except Exception: handler] and the bare [except:]. *)
Definition try_except {A : Type} (body : result A) (handler : exn -> A) : A :=
  match body with
  | Ok a => a
  | Raise e => handler e
  end.

(** [xs[i]]: an index past the end raises [IndexError]. *)
Definition getitem {A : Type} (xs : list A) (i : nat) : result A :=
  match nth_error xs i with
  | Some x => Ok x
  | None => Raise IndexError
  end.

(** *** Strings *)

Local Open Scope string_scope.

(** The line feed, as a one-character string. *)
Definition LF : string := String (ascii_of_nat 10) "".

(** ASCII characters for which [str.isspace] holds: tab, line feed, vertical
    tab, form feed, carriage return, the four separators 28..31, space. *)
Definition is_space (c : ascii) : bool :=
  let n := nat_of_ascii c in
  ((9 <=? n) && (n <=? 13) || (28 <=? n) && (n <=? 32))%nat.

(** Prepends a character to the first piece of a split. *)
Definition cons_head (a : ascii) (pieces : list string) : list string :=
  match pieces with
  | h :: t => String a h :: t
  | [] => [String a ""]
  end.

(** [s.split(sep)] for a non-empty separator: [skip] counts the characters
    of a separator just matched that are still to be dropped. *)
Fixpoint split_from (sep : string) (skip : nat) (s : string) : list string :=
  match s with
  | "" => [""]
  | String a s' =>
      match skip with
      | S n => split_from sep n s'
      | O =>
          if prefix sep s
          then "" :: split_from sep (String.length sep - 1) s'
          else cons_head a (split_from sep 0 s')
      end
  end.

Definition split (sep s : string) : list string := split_from sep 0 s.

(** [s.split()]: the maximal runs of characters that are not white space. *)
Fixpoint split_ws (s : string) : list string :=
  match s with
  | "" => []
  | String a s' =>
      if is_space a then split_ws s'
      else match s' with
           | "" => [String a ""]
           | String b _ =>
               if is_space b then String a "" :: split_ws s'
               else cons_head a (split_ws s')
           end
  end.

(** [sub in s] *)
Fixpoint contains (sub s : string) : bool :=
  prefix sub s ||
  match s with
  | "" => false
  | String _ s' => contains sub s'
  end.

Fixpoint lstrip_of (space : ascii -> bool) (s : string) : string :=
  match s with
  | "" => ""
  | String a s' => if space a then lstrip_of space s' else s
  end.

Fixpoint rstrip_of (space : ascii -> bool) (s : string) : string :=
  match s with
  | "" => ""
  | String a s' =>
      match rstrip_of space s' with
      | "" => if space a then "" else String a ""
      | r => String a r
      end
  end.

(** [s.strip()] *)
Definition strip (s : string) : string := rstrip_of is_space (lstrip_of is_space s).

Definition digit_of (c : ascii) : option Z :=
  let n := nat_of_ascii c in
  if ((48 <=? n) && (n <=? 57))%nat then Some (Z.of_nat (n - 48)) else None.

(** Decimal digits, single underscores allowed between two digits;
    [prev] tells whether the previous character was a digit. *)
Fixpoint parse_digits (acc : Z) (prev : bool) (s : string) : option Z :=
  match s with
  | "" => if prev then Some acc else None
  | String c s' =>
      if Ascii.eqb c "_"
      then (if prev then parse_digits acc false s' else None)
      else match digit_of c with
           | Some d => parse_digits (10 * acc + d) true s'
           | None => None
           end
  end.

(** The white space [int] skips around an ASCII literal: tab, line feed,
    vertical tab, form feed, carriage return, space. *)
Definition is_c_space (c : ascii) : bool :=
  let n := nat_of_ascii c in
  ((9 <=? n) && (n <=? 13) || (n =? 32))%nat.

Fixpoint digit_count (s : string) : nat :=
  match s with
  | "" => O
  | String c s' =>
      match digit_of c with
      | Some _ => S (digit_count s')
      | None => digit_count s'
      end
  end.

(** The most digits [int] converts ([sys.get_int_max_str_digits()], by
    default). *)
Definition max_str_digits : nat := 4300.

Definition parse_unsigned (s : string) : option Z :=
  if (max_str_digits <? digit_count s)%nat then None else parse_digits 0 false s.

(** The literals [int(s)] accepts in base 10: surrounding white space, an
    optional sign, digits. *)
Definition parse_int (s : string) : option Z :=
  match rstrip_of is_c_space (lstrip_of is_c_space s) with
  | String "+" r => parse_unsigned r
  | String "-" r => option_map Z.opp (parse_unsigned r)
  | r => parse_unsigned r
  end.

(** [int(s)] on a string: [ValueError] on anything else. *)
Definition int_of_str (s : string) : result Z :=
  match parse_int s with
  | Some z => Ok z
  | None => Raise ValueError
  end.

(** [str(n)] on an integer. *)
Definition str_of_int (n : Z) : string := NilZero.string_of_int (Z.to_int n).

(** *** Numbers *)

Local Open Scope R_scope.

(** [max(a, b)] keeps its first argument unless the second is greater. *)
Definition max (a b : R) : R := if Rlt_dec a b then b else a.

(** [min(a, b)] keeps its first argument unless the second is smaller. *)
Definition min (a b : R) : R := if Rlt_dec b a then b else a.

(** [a / b]: a zero divisor raises. *)
Definition div (a b : R) : result R :=
  if Req_EM_T b 0 then Raise ZeroDivisionError else Ok (a / b).

(** [b ** e] for a positive base [b]; both scripts only raise positive
    numbers to a power. *)
Definition pow (b e : R) : R := Rpower b e.

(** [int(x)] on a float: rounding towards zero. *)
Definition int_of_float (x : R) : Z :=
  if Rle_dec 0 x then Int_part x else (- Int_part (- x))%Z.

(** *** Child processes *)

(** What a child process does once started (or that it cannot be started):
    it ends after [elapsed] seconds having written [stdout], or never ends. *)
Inductive process : Type :=
| Exits (elapsed : R) (stdout : string)
| Hangs
| CannotStart.

(** [subprocess.run(..., capture_output=True, text=True, timeout=t).stdout] *)
Definition subprocess_run (timeout : R) (p : process) : result string :=
  match p with
  | Exits elapsed stdout =>
      if Rle_dec elapsed timeout then Ok stdout else Raise TimeoutExpired
  | Hangs => Raise TimeoutExpired
  | CannotStart => Raise OSError
  end.

(** *** More of the runtime *)

(** [sep.join(xs)] *)
Definition join (sep : string) (xs : list string) : string := String.concat sep xs.

(** [s.startswith(p)] *)
Definition startswith (s p : string) : bool := prefix p s.

End Py.


Import Py.Notations.

(** ** [tuner/spsa_tuner.py] *)

(** A [dict] with string keys, in insertion order; assigning to a key that
    is present replaces its value in place. *)
Definition dict (V : Type) : Type := list (string * V).

Fixpoint dict_set {V : Type} (d : dict V) (key : string) (v : V) : dict V :=
  match d with
  | [] => [(key, v)]
  | (key', v') :: d' =>
      if String.eqb key' key then (key', v) :: d'
      else (key', v') :: dict_set d' key v
  end.

Fixpoint dict_get {V : Type} (d : dict V) (key : string) : option V :=
  match d with
  | [] => None
  | (key', v') :: d' => if String.eqb key' key then Some v' else dict_get d' key
  end.

(** [{key(x): val(x) for x in xs}] *)
Definition dict_comp {A V : Type} (key : A -> string) (val : A -> V)
    (xs : list A) : dict V :=
  fold_left (fun d x => dict_set d (key x) (val x)) xs [].

(** [enumerate(xs)] *)
Definition enumerate {A : Type} (xs : list A) : list (nat * A) :=
  combine (seq 0 (length xs)) xs.

Module TunableParam.

Local Open Scope R_scope.

Record t : Type := mk {
  name : string;
  value : R;
  min_val : R;
  max_val : R;
  c_end : R;
  a_end : R
}.

Definition __post_init__ (self : t) : t :=
  let c_end' :=
    if Req_EM_T (c_end self) 0
    then Py.max 1 ((max_val self - min_val self) * 0.02)
    else c_end self in
  let a_end' :=
    if Req_EM_T (a_end self) 0 then c_end' * 0.1 else a_end self in
  mk (name self) (value self) (min_val self) (max_val self) c_end' a_end'.

(** [TunableParam(name, value, min_val, max_val, c_end, a_end)] *)
Definition new (name : string) (value min_val max_val c_end a_end : R) : t :=
  __post_init__ (mk name value min_val max_val c_end a_end).

(** [TunableParam(name, value, min_val, max_val)], both scales defaulted. *)
Definition new4 (name : string) (value min_val max_val : R) : t :=
  new name value min_val max_val 0 0.

Definition clamp (self : t) (val : R) : R :=
  Py.max (min_val self) (Py.min (max_val self) val).

(** [self.value = v] *)
Definition set_value (self : t) (v : R) : t :=
  mk (name self) v (min_val self) (max_val self) (c_end self) (a_end self).

End TunableParam.

Definition DEFAULT_PARAMS : list TunableParam.t :=
  let P := TunableParam.new4 in
  [ P "PawnValueMG" 100 70 130;
    P "KnightValueMG" 320 280 360;
    P "BishopValueMG" 330 290 370;
    P "RookValueMG" 500 450 550;
    P "QueenValueMG" 950 850 1050;
    P "PawnValueEG" 130 100 160;
    P "KnightValueEG" 340 300 380;
    P "BishopValueEG" 350 310 390;
    P "RookValueEG" 550 500 600;
    P "QueenValueEG" 1000 900 1100;
    P "BishopPairBonusMG" 30 0 60;
    P "RookOpenFileBonusMG" 25 0 50;
    P "RookSemiOpenFileBonusMG" 11 0 30;
    P "RookOnSeventhBonusMG" 20 0 50;
    P "KnightOutpostBonusMG" 25 0 50;
    P "BishopPairBonusEG" 50 20 80;
    P "RookOpenFileBonusEG" 15 0 40;
    P "RookSemiOpenFileBonusEG" 3 0 20;
    P "RookOnSeventhBonusEG" 30 0 60;
    P "KnightOutpostBonusEG" 15 0 40;
    P "IsolatedPawnPenaltyMG" (-45) (-70) (-10);
    P "DoubledPawnPenaltyMG" (-16) (-40) 0;
    P "BackwardPawnPenaltyMG" (-10) (-30) 0;
    P "ConnectedPawnBonusMG" 5 0 20;
    P "PhalanxBonusMG" 10 0 25;
    P "IsolatedPawnPenaltyEG" (-20) (-50) 0;
    P "DoubledPawnPenaltyEG" (-21) (-50) 0;
    P "BackwardPawnPenaltyEG" (-15) (-35) 0;
    P "ConnectedPawnBonusEG" 2 0 15;
    P "PhalanxBonusEG" 8 0 20;
    P "KingSafetyWeight" 83 50 150 ]%R%string.

(** The outside world during one iteration of the tuner. A child process is
    given as a function of what its command line and its input are built
    from: the configurations ([_build_engine_options] and the [setoption]
    lines) and the position. *)
Record Env : Type := {
  (** the [i]-th value [random.randint(0, 1)] returns *)
  randint01 : nat -> bool;
  (** [random.sample(population, k)] *)
  random_sample : list string -> nat -> list string;
  (** the match runner started on the two configurations *)
  cutechess : dict R -> dict R -> Py.process;
  (** the engine started on a configuration and a position *)
  engine : dict R -> string -> Py.process
}.

(** One entry of [history], the dictionary [iterate] returns. *)
Module IterationRecord.

Record t : Type := mk {
  iteration : nat;
  score_plus : R;
  score_minus : R;
  best_score : R;
  best_iteration : nat;
  params : dict R
}.

End IterationRecord.

(** The dictionary [save_results] writes; the rounded [best_score] of its
    summary is left out. *)
Module Output.

Record t : Type := mk {
  total_iterations : nat;
  best_iteration : nat;
  final_params : dict Z;
  best_params : dict Z;
  initial_params : dict Z;
  history : list IterationRecord.t
}.

End Output.

Module SPSATuner.

Import TunableParam.
Local Open Scope R_scope.

(** The attributes of the tuner the modelled methods read or write. Those
    that only shape a command line ([engine_path], [time_control],
    [concurrency], [cutechess_path], [fen_count]) belong to what [Env]
    answers to; the three hyperparameters, which [__init__] sets and no
    method assigns again, are the constants below. *)
Record t : Type := mk {
  params : list TunableParam.t;
  games_per_iter : Z;
  positions_per_iter : nat;
  search_depth : Z;
  iteration : nat;
  current_params : dict R;
  best_params : dict R;
  best_score : R;
  best_iteration : nat;
  history : list IterationRecord.t;
  test_positions : list string
}.

(** [self.A], [self.alpha], [self.gamma] *)
Definition A : Z := 10.
Definition alpha : R := 0.602.
Definition gamma : R := 0.101.

(** [__init__]; [positions] is what [_load_epd_positions] finds. *)
Definition __init__ (params : list TunableParam.t) (games_per_iter : Z)
    (positions_per_iter : nat) (search_depth : Z) (positions : list string) : t :=
  mk params
     (if (games_per_iter mod 2 =? 0)%Z then games_per_iter else (games_per_iter + 1)%Z)
     positions_per_iter
     search_depth
     0
     (dict_comp name value params)
     (dict_comp name value params)
     0.5
     0
     []
     positions.

Definition _get_spsa_coefficients (self : t) (k : nat) : Py.result (R * R) :=
  a_k <- Py.div 1.0 (Py.pow (IZR (A + Z.of_nat k + 1)) alpha) ;;
  c_k <- Py.div 1.0 (Py.pow (IZR (Z.of_nat k + 1)) gamma) ;;
  Py.Ok (a_k, c_k).

Definition _generate_perturbation (self : t) (env : Env) : list Z :=
  map (fun i => (2 * Z.b2z (randint01 env i) - 1)%Z) (seq 0 (length (params self))).

(** The line [Score of Plus vs Minus: X - Y - Z [ratio]]:
    the wins of Plus, the wins of Minus, the draws. *)
Definition parse_score_line (line : string) : Py.result (Z * Z * Z) :=
  after_colon <- Py.getitem (Py.split ":" line) 1 ;;
  let parts := Py.split_ws (Py.strip after_colon) in
  p0 <- Py.getitem parts 0 ;;
  wins_plus <- Py.int_of_str p0 ;;
  p2 <- Py.getitem parts 2 ;;
  wins_minus <- Py.int_of_str p2 ;;
  p4 <- Py.getitem parts 4 ;;
  draws <- Py.int_of_str p4 ;;
  Py.Ok (wins_plus, wins_minus, draws).

(** The loop over the lines of the match runner's output, left at the first
    line that holds the marker; all three counts stay [0] without one. *)
Fixpoint scan_score (lines : list string) : Py.result (Z * Z * Z) :=
  match lines with
  | [] => Py.Ok (0, 0, 0)%Z
  | line :: rest =>
      if Py.contains "Score of Plus vs Minus" line
      then parse_score_line line
      else scan_score rest
  end.

Definition _run_games (self : t) (env : Env) (params_plus params_minus : dict R)
    : R * R :=
  Py.try_except
    (output <- Py.subprocess_run 3600 (cutechess env params_plus params_minus) ;;
     ' (wins_plus, wins_minus, draws) <- scan_score (Py.split Py.LF output) ;;
     let total := (wins_plus + wins_minus + draws)%Z in
     if (total =? 0)%Z then Py.Ok (0.5, 0.5)
     else
       score_plus <- Py.div (IZR wins_plus + IZR draws * 0.5) (IZR total) ;;
       score_minus <- Py.div (IZR wins_minus + IZR draws * 0.5) (IZR total) ;;
       Py.Ok (score_plus, score_minus))
    (fun _ => (0.5, 0.5)).

(** The value of [score mate <mate>]. *)
Definition mate_value (mate : Z) : Z :=
  if (0 <? mate)%Z then 10000%Z else (-10000)%Z.

(** The loop of [get_eval] over the lines of the engine's output, last line
    first. *)
Fixpoint scan_eval (lines : list string) : Py.result Z :=
  match lines with
  | [] => Py.Ok 0%Z
  | line :: rest =>
      if Py.contains "score cp" line then
        let parts := Py.split "score cp " line in
        if (1 <? length parts)%nat then
          p1 <- Py.getitem parts 1 ;;
          tok <- Py.getitem (Py.split_ws p1) 0 ;;
          score <- Py.int_of_str tok ;;
          Py.Ok score
        else scan_eval rest
      else if Py.contains "score mate" line then
        let parts := Py.split "score mate " line in
        if (1 <? length parts)%nat then
          p1 <- Py.getitem parts 1 ;;
          tok <- Py.getitem (Py.split_ws p1) 0 ;;
          mate <- Py.int_of_str tok ;;
          Py.Ok (mate_value mate)
        else scan_eval rest
      else scan_eval rest
  end.

Definition get_eval (self : t) (env : Env) (params : dict R) (fen : string) : Z :=
  Py.try_except
    (stdout <- Py.subprocess_run 15 (engine env params fen) ;;
     scan_eval (rev (Py.split Py.LF stdout)))
    (fun _ => 0%Z).

(** What one sampled position adds to [total_diff]. *)
Definition position_diff (self : t) (env : Env) (params_plus params_minus : dict R)
    (fen : string) : Z :=
  let eval_plus := get_eval self env params_plus fen in
  let eval_minus := get_eval self env params_minus fen in
  (eval_plus - eval_minus)%Z.

(** The loop of [_run_games_simple] over the sampled positions, on the pair
    [(total_diff, positions_tested)]. *)
Definition eval_loop (self : t) (env : Env) (params_plus params_minus : dict R)
    (positions : list string) : R * Z :=
  fold_left
    (fun (acc : R * Z) fen =>
       let diff := position_diff self env params_plus params_minus fen in
       (fst acc + IZR diff, (snd acc + 1)%Z))
    positions (0.0, 0%Z).

(** The positions [_run_games_simple] draws. *)
Definition sampled_positions (self : t) (env : Env) : list string :=
  let sample_size := Nat.min (positions_per_iter self) (length (test_positions self)) in
  random_sample env (test_positions self) sample_size.

Definition _run_games_simple (self : t) (env : Env)
    (params_plus params_minus : dict R) : Py.result (R * R) :=
  let TEST_POSITIONS := sampled_positions self env in
  let '(total_diff, positions_tested) :=
    eval_loop self env params_plus params_minus TEST_POSITIONS in
  avg_diff <- Py.div total_diff (IZR (Z.max 1 positions_tested)) ;;
  let exponent := - avg_diff / 100 in
  score_plus <- Py.div 1 (1 + Py.pow 10 exponent) ;;
  let score_minus := 1 - score_plus in
  Py.Ok (score_plus, score_minus).

(** The first loop of [iterate]: the two perturbed configurations. *)
Fixpoint perturb_loop (c_k : R) (delta : list Z) (ps : list (nat * TunableParam.t))
    (params_plus params_minus : dict R) : Py.result (dict R * dict R) :=
  match ps with
  | [] => Py.Ok (params_plus, params_minus)
  | (i, param) :: rest =>
      d <- Py.getitem delta i ;;
      let perturbation := c_k * c_end param * IZR d in
      perturb_loop c_k delta rest
        (dict_set params_plus (name param) (clamp param (value param + perturbation)))
        (dict_set params_minus (name param) (clamp param (value param - perturbation)))
  end.

(** The gradient and the step of one parameter. *)
Definition gradient_of (c_k score_plus score_minus : R) (param : TunableParam.t)
    (d : Z) : Py.result R :=
  Py.div (score_plus - score_minus) (2 * c_k * c_end param * IZR d).

Definition step_of (a_k : R) (param : TunableParam.t) (gradient : R) : R :=
  a_k * a_end param * gradient.

(** The second loop of [iterate]: every parameter takes its new value. *)
Fixpoint update_loop (a_k c_k score_plus score_minus : R) (delta : list Z)
    (ps : list (nat * TunableParam.t)) : Py.result (list TunableParam.t) :=
  match ps with
  | [] => Py.Ok []
  | (i, param) :: rest =>
      d <- Py.getitem delta i ;;
      param' <-
        (if (d =? 0)%Z then Py.Ok param
         else
           gradient <- gradient_of c_k score_plus score_minus param d ;;
           let step := step_of a_k param gradient in
           Py.Ok (set_value param (clamp param (value param + step)))) ;;
      rest' <- update_loop a_k c_k score_plus score_minus delta rest ;;
      Py.Ok (param' :: rest')
  end.

(** The scores one iteration measures on two configurations. *)
Definition estimate (self : t) (use_simple_games : bool) (env : Env)
    (params_plus params_minus : dict R) : Py.result (R * R) :=
  if use_simple_games
  then _run_games_simple self env params_plus params_minus
  else Py.Ok (_run_games self env params_plus params_minus).

(** The two configurations one iteration sends to the estimator. *)
Definition candidates (self : t) (env : Env) : Py.result (dict R * dict R) :=
  ' (_, c_k) <- _get_spsa_coefficients self (S (iteration self)) ;;
  perturb_loop c_k (_generate_perturbation self env) (enumerate (params self)) [] [].

Definition iterate (self : t) (use_simple_games : bool) (env : Env)
    : Py.result (IterationRecord.t * t) :=
  let k := S (iteration self) in
  ' (a_k, c_k) <- _get_spsa_coefficients self k ;;
  let delta := _generate_perturbation self env in
  ' (params_plus, params_minus) <-
    perturb_loop c_k delta (enumerate (params self)) [] [] ;;
  ' (score_plus, score_minus) <-
    estimate self use_simple_games env params_plus params_minus ;;
  params' <- update_loop a_k c_k score_plus score_minus delta (enumerate (params self)) ;;
  let current_params' := dict_comp name value params' in
  let combined_score := score_plus in
  let better := if Rgt_dec combined_score (best_score self) then true else false in
  let best_score' := if better then combined_score else best_score self in
  let best_params' := if better then current_params' else best_params self in
  let best_iteration' := if better then k else best_iteration self in
  let result :=
    IterationRecord.mk k score_plus score_minus best_score' best_iteration'
      current_params' in
  Py.Ok (result,
         mk params' (games_per_iter self) (positions_per_iter self)
            (search_depth self)
            k current_params' best_params' best_score' best_iteration'
            (history self ++ [result]) (test_positions self)).

(** The loop of [run]: [envs i] is the outside world of the pass [i] of
    [for i in range(iterations)], [n] passes are left. *)
Fixpoint run_loop (self : t) (use_simple_games : bool) (envs : nat -> Env)
    (i n : nat) : Py.result t :=
  match n with
  | O => Py.Ok self
  | S n' =>
      ' (_, self') <- iterate self use_simple_games (envs i) ;;
      run_loop self' use_simple_games envs (S i) n'
  end.

(** [run]: the tuner after the iterations; its [current_params] is what the
    method returns. *)
Definition run (self : t) (iterations : nat) (use_simple_games : bool)
    (envs : nat -> Env) : Py.result t :=
  run_loop self use_simple_games envs 0 iterations.

Definition save_results (self : t) : Output.t :=
  Output.mk
    (iteration self)
    (best_iteration self)
    (map (fun kv => (fst kv, Py.int_of_float (snd kv))) (current_params self))
    (map (fun kv => (fst kv, Py.int_of_float (snd kv))) (best_params self))
    (dict_comp name
       (fun p => Py.int_of_float (min_val p + (max_val p - min_val p) / 2))
       DEFAULT_PARAMS)
    (history self).

(** The positions [_load_epd_positions] falls back to. *)
Definition FALLBACK_POSITIONS : list string :=
  [ "r1bqkb1r/pppp1ppp/2n2n2/4p3/2B1P3/5N2/PPPP1PPP/RNBQK2R w KQkq - 4 4";
    "r1bqkbnr/pppp1ppp/2n5/4p3/4P3/5N2/PPPP1PPP/RNBQKB1R w KQkq - 2 3";
    "rnbqkb1r/pp2pppp/3p1n2/2p5/4P3/2N2N2/PPPP1PPP/R1BQKB1R w KQkq - 0 4";
    "r1bqkbnr/pppp1ppp/2n5/1B2p3/4P3/5N2/PPPP1PPP/RNBQK2R b KQkq - 3 3";
    "rnbqkb1r/pppppppp/5n2/8/2PP4/8/PP2PPPP/RNBQKBNR b KQkq - 0 2" ]%string.

(** What one line of the position file adds to [positions]: nothing when
    the line is blank, else the text before [ c9 ], completed by the two
    move counters when it has four fields. *)
Definition epd_position (line : string) : option string :=
  let line := Py.strip line in
  match line with
  | ""%string => None
  | _ =>
      match Py.split " c9 " line with
      | [] => None
      | part :: _ =>
          let fen := Py.strip part in
          let fen_parts := Py.split_ws fen in
          Some (if (length fen_parts =? 4)%nat then (fen ++ " 0 1")%string else fen)
      end
  end.

(** The loop over [enumerate(f)], left at the line of index [fen_count]. *)
Fixpoint epd_loop (fen_count : Z) (lines : list (nat * string))
    (positions : list string) : list string :=
  match lines with
  | [] => positions
  | (i, line) :: rest =>
      if (fen_count <=? Z.of_nat i)%Z then positions
      else
        epd_loop fen_count rest
          (match epd_position line with
           | Some fen => positions ++ [fen]
           | None => positions
           end)
  end.

(** [_load_epd_positions]. Each of the two places the file is looked for
    at is [None] when nothing exists there, and else the lines the file
    gives before it ends or before reading it raises (none when it cannot be
    opened): what was appended before an exception stays in [positions]. *)
Definition _load_epd_positions (fen_count : Z)
    (beside_script beside_engine : option (list string)) : list string :=
  let epd_file :=
    match beside_script with
    | Some _ => beside_script
    | None => beside_engine
    end in
  let positions :=
    match epd_file with
    | Some lines => epd_loop fen_count (enumerate lines) []
    | None => []
    end in
  match positions with
  | [] => FALLBACK_POSITIONS
  | _ => positions
  end.

Definition _build_engine_options (perturbed_values : dict R) : string :=
  Py.join " "
    (map (fun kv =>
            ("option." ++ fst kv ++ "=" ++ Py.str_of_int (Py.int_of_float (snd kv)))%string)
         perturbed_values).

End SPSATuner.

(** ** [tests/perft_test.py] *)

Module PerftTest.

Local Open Scope string_scope.

(** The inner loop of [run_perft] over [enumerate(parts)]: [Some r] when
    the [return] is reached, with what evaluating its expression gives. *)
Fixpoint nodes_in_parts (parts : list string) (ps : list (nat * string))
    : option (Py.result Z) :=
  match ps with
  | [] => None
  | (i, part) :: rest =>
      if String.eqb part "Nodes:" && (i + 1 <? length parts)%nat
      then Some (tok <- Py.getitem parts (i + 1) ;; Py.int_of_str tok)
      else nodes_in_parts parts rest
  end.

(** The outer loop over the lines of the output, then [return -1]. *)
Fixpoint scan_nodes (lines : list string) : Py.result Z :=
  match lines with
  | [] => Py.Ok (-1)%Z
  | line :: rest =>
      if Py.contains "Nodes:" line then
        let parts := Py.split_ws line in
        match nodes_in_parts parts (enumerate parts) with
        | Some r => r
        | None => scan_nodes rest
        end
      else scan_nodes rest
  end.

(** The text sent to the engine. *)
Definition commands (fen : string) (depth : Z) (divide : bool) : string :=
  let command := if divide then "divide" else "perft" in
  "position fen " ++ fen ++ Py.LF ++ command ++ " " ++ Py.str_of_int depth
    ++ Py.LF ++ "quit" ++ Py.LF.

(** [engine] is the program at [engine_path]: what it does on the text it
    is sent. *)
Definition run_perft (engine : string -> Py.process) (fen : string) (depth : Z)
    (divide : bool) : Z :=
  Py.try_except
    (output <- Py.subprocess_run 300 (engine (commands fen depth divide)) ;;
     scan_nodes (Py.split Py.LF output))
    (fun _ => (-1)%Z).

(** The places [find_engine] looks at, in order. *)
Definition possible_paths : list string :=
  [ "./output/main"; "output/main"; "../output/main"; "main";
    "./output/main.exe"; "output/main.exe"; "../output/main.exe"; "main.exe" ].

(** What [find_engine] asks the operating system: [os.name == 'nt'],
    [os.path.exists], [os.access(path, os.X_OK)], and whether
    [os.chmod(path, 0o755)] returns instead of raising. *)
Record FileSystem : Type := {
  nt : bool;
  path_exists : string -> bool;
  access_x : string -> bool;
  chmod_returns : string -> bool
}.

(** The loop of [find_engine]; [FileNotFoundError], an [OSError], when it
    ends. *)
Fixpoint find_in (fs : FileSystem) (paths : list string) : Py.result string :=
  match paths with
  | [] => Py.Raise Py.OSError
  | path :: rest =>
      if path_exists fs path then
        if negb (nt fs) && negb (access_x fs path) then
          if chmod_returns fs path then Py.Ok path else find_in fs rest
        else Py.Ok path
      else find_in fs rest
  end.

Definition find_engine (fs : FileSystem) : Py.result string :=
  find_in fs possible_paths.

(** The loop of [run_divide] over the lines of the output. *)
Fixpoint divide_loop (lines : list string) (moves : dict Z) : dict Z :=
  match lines with
  | [] => moves
  | line :: rest =>
      let line := Py.strip line in
      if Py.contains ":" line && negb (Py.startswith line "Nodes")
         && negb (Py.startswith line "Time") && negb (Py.startswith line "NPS")
      then
        match Py.split ":" line with
        | [part0; part1] =>
            let move := Py.strip part0 in
            match Py.int_of_str (Py.strip part1) with
            | Py.Ok nodes => divide_loop rest (dict_set moves move nodes)
            | Py.Raise _ => divide_loop rest moves
            end
        | _ => divide_loop rest moves
        end
      else divide_loop rest moves
  end.

Definition run_divide (engine : string -> Py.process) (fen : string) (depth : Z)
    : dict Z :=
  Py.try_except
    (output <- Py.subprocess_run 300 (engine (commands fen depth true)) ;;
     Py.Ok (divide_loop (Py.split Py.LF output) []))
    (fun _ => []).

(** A [Dict[int, int]], as the list of its items. *)
Fixpoint int_dict_get (d : list (Z * Z)) (key : Z) : option Z :=
  match d with
  | [] => None
  | (key', v) :: d' => if (key' =? key)%Z then Some v else int_dict_get d' key
  end.

Module PerftPosition.

Record t : Type := mk {
  name : string;
  fen : string;
  expected : list (Z * Z)
}.

End PerftPosition.

Definition PERFT_POSITIONS : list PerftPosition.t :=
  [ PerftPosition.mk "Starting Position"
      "rnbqkbnr/pppppppp/8/8/8/8/PPPPPPPP/RNBQKBNR w KQkq - 0 1"
      [(1, 20); (2, 400); (3, 8902); (4, 197281); (5, 4865609); (6, 119060324);
       (7, 3195901860)]%Z;
    PerftPosition.mk "Kiwipete"
      "r3k2r/p1ppqpb1/bn2pnp1/3PN3/1p2P3/2N2Q1p/PPPBBPPP/R3K2R w KQkq - 0 1"
      [(1, 48); (2, 2039); (3, 97862); (4, 4085603); (5, 193690690); (6, 8031647685)]%Z;
    PerftPosition.mk "Position 3"
      "8/2p5/3p4/KP5r/1R3p1k/8/4P1P1/8 w - - 0 1"
      [(1, 14); (2, 191); (3, 2812); (4, 43238); (5, 674624); (6, 11030083)]%Z;
    PerftPosition.mk "Position 4"
      "r3k2r/Pppp1ppp/1b3nbN/nP6/BBP1P3/q4N2/Pp1P2PP/R2Q1RK1 w kq - 0 1"
      [(1, 6); (2, 264); (3, 9467); (4, 422333); (5, 15833292); (6, 706045033)]%Z;
    PerftPosition.mk "Position 5"
      "rnbq1k1r/pp1Pbppp/2p5/8/2B5/8/PPP1NnPP/RNBQK2R w KQ - 1 8"
      [(1, 44); (2, 1486); (3, 62379); (4, 2103487); (5, 89941194); (6, 3581585156)]%Z;
    PerftPosition.mk "Position 6"
      "r4rk1/1pp1qppp/p1np1n2/2b1p1B1/2B1P1b1/P1NP1N2/1PP1QPPP/R4RK1 w - - 0 10"
      [(1, 46); (2, 2079); (3, 89890); (4, 3894594); (5, 164075551); (6, 6923051137)]%Z ].

(** [range(1, max_depth + 1)] *)
Definition depths (max_depth : Z) : list Z :=
  map Z.of_nat (seq 1 (Z.to_nat max_depth)).

(** The loop of [test_position], on [all_passed]. *)
Fixpoint test_loop (engine : string -> Py.process) (position : PerftPosition.t)
    (ds : list Z) : bool :=
  match ds with
  | [] => true
  | depth :: rest =>
      match int_dict_get (PerftPosition.expected position) depth with
      | None => test_loop engine position rest
      | Some expected =>
          let actual := run_perft engine (PerftPosition.fen position) depth false in
          if (actual =? expected)%Z then test_loop engine position rest else false
      end
  end.

Definition test_position (engine : string -> Py.process) (position : PerftPosition.t)
    (max_depth : Z) : bool :=
  test_loop engine position (depths max_depth).

(** The loop of [run_all_tests], on
    [(all_passed, passed_count, failed_count)]. *)
Fixpoint all_tests_loop (engine : string -> Py.process) (max_depth : Z)
    (positions : list PerftPosition.t) (state : bool * nat * nat) : bool * nat * nat :=
  match positions with
  | [] => state
  | position :: rest =>
      let '(all_passed, passed_count, failed_count) := state in
      if test_position engine position max_depth
      then all_tests_loop engine max_depth rest (all_passed, S passed_count, failed_count)
      else all_tests_loop engine max_depth rest (false, passed_count, S failed_count)
  end.

Definition run_all_tests (engine : string -> Py.process) (max_depth : Z) : bool :=
  fst (fst (all_tests_loop engine max_depth PERFT_POSITIONS (true, O, O))).

(** What [argparse] hands to [main]. *)
Module Args.

Record t : Type := mk {
  depth : Z;
  all_positions : bool;
  position : option Z;
  fen : option string;
  divide : bool;
  engine : option string;
  quiet : bool
}.

End Args.

(** How [main] ends: by [sys.exit(code)], or by returning (the script then
    ends with status [0]). *)
Inductive outcome : Type :=
| Exit (code : Z)
| Returns.

(** The truth value of an optional string argument: [None] and the empty
    string are false. *)
Definition given (s : option string) : option string :=
  match s with
  | Some (String a s') => Some (String a s')
  | _ => None
  end.

(** [main]; [program path] is the program found at [path]. What it prints
    is left out. *)
Definition main (args : Args.t) (fs : FileSystem)
    (program : string -> string -> Py.process) : Py.result outcome :=
  match
    match given (Args.engine args) with
    | Some path => Py.Ok path
    | None => find_engine fs
    end
  with
  | Py.Raise Py.OSError => Py.Ok (Exit 1)
  | Py.Raise e => Py.Raise e
  | Py.Ok engine_path =>
      first <- Py.getitem PERFT_POSITIONS 0 ;;
      let test_result := run_perft (program engine_path) (PerftPosition.fen first) 1 false in
      if negb (test_result =? 20)%Z then Py.Ok (Exit 1)
      else
        match given (Args.fen args) with
        | Some fen =>
            if Args.divide args
            then let moves := run_divide (program engine_path) fen (Args.depth args) in
                 Py.Ok Returns
            else let nodes := run_perft (program engine_path) fen (Args.depth args) false in
                 Py.Ok Returns
        | None =>
            match Args.position args with
            | Some index =>
                if (0 <=? index)%Z && (index <? Z.of_nat (length PERFT_POSITIONS))%Z then
                  position <- Py.getitem PERFT_POSITIONS (Z.to_nat index) ;;
                  if Args.divide args
                  then let moves :=
                         run_divide (program engine_path) (PerftPosition.fen position)
                           (Args.depth args) in
                       Py.Ok Returns
                  else
                    let passed :=
                      test_position (program engine_path) position (Args.depth args) in
                    Py.Ok (Exit (if passed then 0 else 1))
                else Py.Ok (Exit 1)
            | None =>
                let passed := run_all_tests (program engine_path) (Args.depth args) in
                Py.Ok (Exit (if passed then 0 else 1))
            end
        end
  end.

End PerftTest.


(** ** Vocabulary of the properties *)

Module Props.

Import TunableParam.
Local Open Scope R_scope.

(** [v] respects the bounds of [p]. *)
Definition within (p : TunableParam.t) (v : R) : Prop :=
  min_val p <= v <= max_val p.

(** The invariant of the data model: [min <= value <= max]. *)
Definition in_bounds (p : TunableParam.t) : Prop := within p (value p).

Definition bounds_ordered (p : TunableParam.t) : Prop := min_val p <= max_val p.

(** What [__post_init__] leaves behind: a perturbation scale that is not
    zero. *)
Definition scaled (p : TunableParam.t) : Prop := c_end p <> 0.

(** Every entry of a configuration respects the bounds of a parameter of the
    tuner that bears its name. *)
Definition config_within (ps : list TunableParam.t) (d : dict R) : Prop :=
  forall key v, dict_get d key = Some v ->
    exists p, In p ps /\ name p = key /\ within p v.

(** The sign drawn for the parameter of index [i]. *)
Definition delta_at (env : Env) (i : nat) : Z :=
  (2 * Z.b2z (randint01 env i) - 1)%Z.

(** The parameter after the update of one iteration, in closed form. *)
Definition updated (a_k c_k score_plus score_minus : R) (p : TunableParam.t)
    (d : Z) : TunableParam.t :=
  let gradient := (score_plus - score_minus) / (2 * c_k * c_end p * IZR d) in
  let step := a_k * a_end p * gradient in
  set_value p (clamp p (value p + step)).

(** The sum of what the positions add to [total_diff]. *)
Definition sum_of_diffs (self : SPSATuner.t) (env : Env)
    (params_plus params_minus : dict R) (positions : list string) : R :=
  fold_right
    (fun fen acc =>
       IZR (SPSATuner.position_diff self env params_plus params_minus fen) + acc)
    0 positions.

(** The logistic transform of an average difference of evaluations. *)
Definition logistic (avg_diff : R) : R := 1 / (1 + Rpower 10 (- avg_diff / 100)).

(** The parameters after the update of one iteration, in closed form. *)
Definition new_params (a_k c_k score_plus score_minus : R) (env : Env)
    (ps : list TunableParam.t) : list TunableParam.t :=
  map (fun ip => updated a_k c_k score_plus score_minus (snd ip) (delta_at env (fst ip)))
      (enumerate ps).

(** The record and the tuner at the end of an iteration whose coefficients
    are [a_k], [c_k] and whose measured scores are [score_plus],
    [score_minus], in closed form. *)
Definition after_iteration (self : SPSATuner.t) (env : Env)
    (a_k c_k score_plus score_minus : R) : IterationRecord.t * SPSATuner.t :=
  let k := S (SPSATuner.iteration self) in
  let params' := new_params a_k c_k score_plus score_minus env (SPSATuner.params self) in
  let current_params' := dict_comp name value params' in
  let better := if Rgt_dec score_plus (SPSATuner.best_score self) then true else false in
  let best_score' := if better then score_plus else SPSATuner.best_score self in
  let best_params' := if better then current_params' else SPSATuner.best_params self in
  let best_iteration' := if better then k else SPSATuner.best_iteration self in
  let result :=
    IterationRecord.mk k score_plus score_minus best_score' best_iteration'
      current_params' in
  (result,
   SPSATuner.mk params' (SPSATuner.games_per_iter self)
     (SPSATuner.positions_per_iter self) (SPSATuner.search_depth self)
     k current_params' best_params' best_score' best_iteration'
     (SPSATuner.history self ++ [result]) (SPSATuner.test_positions self)).

(** Best tracking on its own: from the pair [(best_score, best_iteration)]
    and the number [k] of iterations done, over the [score_plus] of the
    iterations that follow. *)
Fixpoint track (best : R * nat) (k : nat) (scores : list R) : R * nat :=
  match scores with
  | [] => best
  | score :: rest =>
      track (if Rgt_dec score (fst best) then (score, S k) else best) (S k) rest
  end.

(** The first line of [stdout] that holds [marker], if any, is [line]. *)
Definition first_line_with (marker stdout line : string) : Prop :=
  exists before after,
    Py.split Py.LF stdout = before ++ line :: after /\
    Forall (fun l => Py.contains marker l = false) before /\
    Py.contains marker line = true.

(** No line of [stdout] holds [marker]. *)
Definition no_line_with (marker stdout : string) : Prop :=
  Forall (fun l => Py.contains marker l = false) (Py.split Py.LF stdout).

(** The output of the match runner reports the three counts: its first
    score line reads as them. *)
Definition reports (stdout : string) (wins_plus wins_minus draws : Z) : Prop :=
  exists line,
    first_line_with "Score of Plus vs Minus" stdout line /\
    SPSATuner.parse_score_line line = Py.Ok (wins_plus, wins_minus, draws).

(** The output of the match runner cannot be read: it has no score line, or
    reading the first one raises. *)
Definition unparseable (stdout : string) : Prop :=
  no_line_with "Score of Plus vs Minus" stdout \/
  exists line e,
    first_line_with "Score of Plus vs Minus" stdout line /\
    SPSATuner.parse_score_line line = Py.Raise e.

(** The match runner does not end within [limit] seconds. *)
Definition exceeds (limit : R) (p : Py.process) : Prop :=
  p = Py.Hangs \/ exists elapsed stdout, p = Py.Exits elapsed stdout /\ limit < elapsed.

(** The match-based estimator cuts the match runner off after [limit]
    seconds and answers with the neutral pair. *)
Definition match_timeout_is (limit : R) : Prop :=
  forall self env params_plus params_minus,
    exceeds limit (cutechess env params_plus params_minus) ->
    SPSATuner._run_games self env params_plus params_minus = (0.5, 0.5).

(** The first token after the first [key] of [line]. *)
Definition token_after (key line : string) : option string :=
  match Py.split key line with
  | _ :: after :: _ =>
      match Py.split_ws after with
      | tok :: _ => Some tok
      | [] => None
      end
  | _ => None
  end.

(** [line] gives a score in centipawns that [get_eval] reads. *)
Definition cp_line (line : string) (score : Z) : Prop :=
  Py.contains "score cp" line = true /\
  exists tok, token_after "score cp " line = Some tok /\ Py.parse_int tok = Some score.

(** [line] gives a distance to mate that [get_eval] reads. *)
Definition mate_line (line : string) (mate : Z) : Prop :=
  Py.contains "score cp" line = false /\
  Py.contains "score mate" line = true /\
  exists tok, token_after "score mate " line = Some tok /\ Py.parse_int tok = Some mate.

(** [line] gives no score that [get_eval] reads. *)
Definition scoreless (line : string) : Prop :=
  forall n, ~ cp_line line n /\ ~ mate_line line n.

(** [line] has neither of the two markers. *)
Definition unmarked (line : string) : Prop :=
  Py.contains "score cp" line = false /\ Py.contains "score mate" line = false.

(** [line] is the last line of [stdout] that has a marker. *)
Definition last_marked_line (stdout line : string) : Prop :=
  exists later earlier,
    rev (Py.split Py.LF stdout) = later ++ line :: earlier /\ Forall unmarked later.

(** A query of the engine fails: it times out, it cannot be started, its
    output has no line with a score to read, or reading its output raises. *)
Definition query_fails (p : Py.process) : Prop :=
  exceeds 15 p \/
  p = Py.CannotStart \/
  exists elapsed stdout,
    p = Py.Exits elapsed stdout /\
    (Forall scoreless (Py.split Py.LF stdout) \/
     exists e, SPSATuner.scan_eval (rev (Py.split Py.LF stdout)) = Py.Raise e).

(** When the query of one side only fails, the position adds the negation
    of the evaluation of the side that answered. *)
Definition one_sided_failure_negates : Prop :=
  forall self env params_plus params_minus fen,
    (query_fails (engine env params_plus fen) ->
     ~ query_fails (engine env params_minus fen) ->
     SPSATuner.position_diff self env params_plus params_minus fen
     = (- SPSATuner.get_eval self env params_minus fen)%Z) /\
    (query_fails (engine env params_minus fen) ->
     ~ query_fails (engine env params_plus fen) ->
     SPSATuner.position_diff self env params_plus params_minus fen
     = (- SPSATuner.get_eval self env params_plus fen)%Z).

(** In [line], the token of index [i] is [Nodes:] and [tok] follows it. *)
Definition nodes_token_at (line : string) (i : nat) (tok : string) : Prop :=
  nth_error (Py.split_ws line) i = Some "Nodes:"%string /\
  nth_error (Py.split_ws line) (S i) = Some tok.

(** [line] has a token [Nodes:] followed by an integer. *)
Definition has_nodes_count (line : string) : Prop :=
  exists i tok n, nodes_token_at line i tok /\ Py.parse_int tok = Some n.

(** No token [Nodes:] of [line] is followed by another token. *)
Definition no_nodes_token (line : string) : Prop :=
  forall i tok, ~ nodes_token_at line i tok.

(** The first token [Nodes:] of [stdout] that does not end its line is
    followed by [tok]. *)
Definition first_nodes_token (stdout tok : string) : Prop :=
  exists before line after i,
    Py.split Py.LF stdout = before ++ line :: after /\
    Forall no_nodes_token before /\
    nodes_token_at line i tok /\
    (forall j tok', (j < i)%nat -> ~ nodes_token_at line j tok').

(** Whether the token of index [j] of [parts] is [Nodes:] and has a
    successor, and whether no index below [i] is such. *)
Definition followed_at (parts : list string) (j : nat) : bool :=
  match nth_error parts j, nth_error parts (S j) with
  | Some part, Some _ => String.eqb part "Nodes:"
  | _, _ => false
  end.

Definition unfollowed_below (parts : list string) (i : nat) : bool :=
  forallb (fun j => negb (followed_at parts j)) (seq 0 i).

(** What holds of a tuner built by [__init__] on the parameters [ps0] and
    of every tuner reached from it by iterations: the counter, the history
    and the current values tell the same story, and the best record is the
    first of the highest [score_plus] above [0.5]. *)
Definition coherent (ps0 : list TunableParam.t) (s : SPSATuner.t) : Prop :=
  SPSATuner.iteration s = length (SPSATuner.history s) /\
  map IterationRecord.iteration (SPSATuner.history s)
  = seq 1 (length (SPSATuner.history s)) /\
  SPSATuner.current_params s = dict_comp name value (SPSATuner.params s) /\
  (forall r,
     nth_error (SPSATuner.history s) (length (SPSATuner.history s) - 1) = Some r ->
     IterationRecord.params r = SPSATuner.current_params s) /\
  0.5 <= SPSATuner.best_score s /\
  Forall (fun r => IterationRecord.score_plus r <= SPSATuner.best_score s)
    (SPSATuner.history s) /\
  ((SPSATuner.best_iteration s = 0%nat /\ SPSATuner.best_score s = 0.5 /\
    SPSATuner.best_params s = dict_comp name value ps0) \/
   (exists r,
      nth_error (SPSATuner.history s) (SPSATuner.best_iteration s - 1) = Some r /\
      (1 <= SPSATuner.best_iteration s)%nat /\
      IterationRecord.score_plus r = SPSATuner.best_score s /\
      0.5 < SPSATuner.best_score s /\
      IterationRecord.params r = SPSATuner.best_params s /\
      Forall (fun r' => IterationRecord.score_plus r' < SPSATuner.best_score s)
        (firstn (SPSATuner.best_iteration s - 1) (SPSATuner.history s)))).

(** [find_engine] can return [path]: it exists and, where executability
    matters, it is executable or [chmod] returned. *)
Definition usable (fs : PerftTest.FileSystem) (path : string) : bool :=
  PerftTest.path_exists fs path
  && (PerftTest.nt fs || PerftTest.access_x fs path || PerftTest.chmod_returns fs path).

(** [run_divide] reads the line as the count [nodes] of [move]. *)
Definition divide_entry (line move : string) (nodes : Z) : Prop :=
  Py.contains ":" (Py.strip line) = true /\
  Py.startswith (Py.strip line) "Nodes" = false /\
  Py.startswith (Py.strip line) "Time" = false /\
  Py.startswith (Py.strip line) "NPS" = false /\
  exists part0 part1,
    Py.split ":" (Py.strip line) = [part0; part1] /\
    Py.strip part0 = move /\
    Py.int_of_str (Py.strip part1) = Py.Ok nodes.

(** [path] is the engine [main] uses: the one asked for, else the one
    [find_engine] returns. *)
Definition engine_found (args : PerftTest.Args.t) (fs : PerftTest.FileSystem)
    (path : string) : Prop :=
  match PerftTest.given (PerftTest.Args.engine args) with
  | Some asked => path = asked
  | None => PerftTest.find_engine fs = Py.Ok path
  end.

(** The check [main] makes before any test: [run_perft] returns [20] for
    the initial position at depth [1]. *)
Definition sane (engine : string -> Py.process) : Prop :=
  PerftTest.run_perft engine
    "rnbqkbnr/pppppppp/8/8/8/8/PPPPPPPP/RNBQKBNR w KQkq - 0 1" 1 false = 20%Z.

End Props.

(** ** Sample sessions *)

Module Demo.

Local Open Scope string_scope.

Definition positions : list string :=
  [ "r1bqkb1r/pppp1ppp/2n2n2/4p3/2B1P3/5N2/PPPP1PPP/RNBQK2R w KQkq - 4 4";
    "rnbqkb1r/pppppppp/5n2/8/2PP4/8/PP2PPPP/RNBQKBNR b KQkq - 0 2" ].

(** The tuner [main] builds, on two positions. *)
Definition tuner : SPSATuner.t := SPSATuner.__init__ DEFAULT_PARAMS 100 20 4 positions.

(** A world in which nothing can be measured: the match runner never ends
    and the engine cannot be started. *)
Definition silent : Env := {|
  randint01 := Nat.even;
  random_sample := fun population k => firstn k population;
  cutechess := fun _ _ => Py.Hangs;
  engine := fun _ _ => Py.CannotStart
|}.

(** What the match runner prints at the end of a match. *)
Definition match_output (wins_plus wins_minus draws : Z) : string :=
  "Started game 1 of 100" ++ Py.LF
  ++ "Score of Plus vs Minus: " ++ Py.str_of_int wins_plus ++ " - "
  ++ Py.str_of_int wins_minus ++ " - " ++ Py.str_of_int draws ++ "  [0.500] 100"
  ++ Py.LF ++ "Finished match" ++ Py.LF.

(** A world whose match ends after [elapsed] seconds on the given counts. *)
Definition scoring (elapsed : R) (wins_plus wins_minus draws : Z) : Env := {|
  randint01 := Nat.odd;
  random_sample := fun population k => firstn k population;
  cutechess := fun _ _ => Py.Exits elapsed (match_output wins_plus wins_minus draws);
  engine := fun _ _ => Py.CannotStart
|}.

(** Four matches of a minute, won 52, 61, 58 and 70 to the rest of 100. *)
Definition four_matches (i : nat) : Env :=
  match i with
  | 0 => scoring 60 52 48 0
  | 1 => scoring 60 61 39 0
  | 2 => scoring 60 58 42 0
  | _ => scoring 60 70 30 0
  end%nat.

(** A world whose match runner prints a score line that cannot be read. *)
Definition garbled : Env := {|
  randint01 := Nat.odd;
  random_sample := fun population k => firstn k population;
  cutechess := fun _ _ =>
    Py.Exits 60 ("Score of Plus vs Minus: 5 - x - 2  [0.500] 10" ++ Py.LF);
  engine := fun _ _ => Py.CannotStart
|}.

(** A world without a match runner. *)
Definition missing : Env := {|
  randint01 := Nat.odd;
  random_sample := fun population k => firstn k population;
  cutechess := fun _ _ => Py.CannotStart;
  engine := fun _ _ => Py.CannotStart
|}.

(** Two configurations of one parameter, perturbed around 100. *)
Definition plus_config : dict R := [("PawnValueMG", 101%R)].
Definition minus_config : dict R := [("PawnValueMG", 99%R)].

(** Whether the first parameter of a configuration is above 100. *)
Definition leans_plus (params : dict R) : bool :=
  match params with
  | (_, v) :: _ => if Rlt_dec 100 v then true else false
  | [] => false
  end.

(** A world whose engine behaves in one way when the first parameter is
    above 100 and in another way otherwise, on every position. *)
Definition answering (above below : Py.process) : Env := {|
  randint01 := Nat.odd;
  random_sample := fun population k => firstn k population;
  cutechess := fun _ _ => Py.CannotStart;
  engine := fun params _ => if leans_plus params then above else below
|}.

(** Outputs of the engine after [go depth 4]. *)
Definition cp_output : string :=
  "info depth 3 score cp 12 nodes 40" ++ Py.LF
  ++ "info depth 4 score cp 35 nodes 100" ++ Py.LF
  ++ "bestmove e2e4" ++ Py.LF.

Definition mate_output : string :=
  "info depth 3 score cp 900 nodes 40" ++ Py.LF
  ++ "info depth 4 score mate 2 nodes 100" ++ Py.LF
  ++ "bestmove d1h5" ++ Py.LF.

(** A tuner built on a parameter list of its own. *)
Definition custom : SPSATuner.t :=
  SPSATuner.__init__ [TunableParam.new4 "FutilityMargin" 120 50 200] 100 20 4 positions.

(** The initial position, and engines for the perft harness: one that
    counts the 20 moves of the initial position in two seconds, one that
    does not know the command. *)
Definition startpos : string :=
  "rnbqkbnr/pppppppp/8/8/8/8/PPPPPPPP/RNBQKBNR w KQkq - 0 1".

Definition counting (_ : string) : Py.process :=
  Py.Exits 2 ("Depth: 1" ++ Py.LF ++ "Time: 0 ms  Nodes: 20" ++ Py.LF).

Definition ignorant (_ : string) : Py.process :=
  Py.Exits 1 ("Unknown command: perft" ++ Py.LF).

(** An engine whose first count cannot be read. *)
Definition failing (_ : string) : Py.process :=
  Py.Exits 2 ("Nodes: n/a" ++ Py.LF ++ "Nodes: 20" ++ Py.LF).

(** A tuner of one parameter whose bounds are in the wrong order. *)
Definition odd : TunableParam.t := TunableParam.new4 "Odd" 5 10 0.
Definition odd_tuner : SPSATuner.t := SPSATuner.__init__ [odd] 100 20 4 positions.

(** A build directory where [main] exists but cannot be made executable
    and [main.exe] is executable. *)
Definition build_dir : PerftTest.FileSystem := {|
  PerftTest.nt := false;
  PerftTest.path_exists := fun path => String.eqb path "main" || String.eqb path "main.exe";
  PerftTest.access_x := fun path => String.eqb path "main.exe";
  PerftTest.chmod_returns := fun _ => false
|}.

(** An engine that answers [divide 2] on the initial position in a second
    (the first two moves only are shown). *)
Definition dividing (_ : string) : Py.process :=
  Py.Exits 1 ("a2a3: 380" ++ Py.LF ++ "b2b3: 420" ++ Py.LF ++ Py.LF
              ++ "Nodes: 800" ++ Py.LF).

End Demo.

(** * Properties *)

Module Facts.

Import TunableParam Props SPSATuner Py.Notations.
Local Open Scope R_scope.

(** ** The runtime on examples *)

Example split_lines :
  Py.split Py.LF ("a" ++ Py.LF ++ "b" ++ Py.LF) = ["a"; "b"; ""]%string.
Proof. reflexivity. Qed.

Example split_separator :
  Py.split "score cp " "info depth 4 score cp 35 nodes 10"
  = ["info depth 4 "; "35 nodes 10"]%string.
Proof. reflexivity. Qed.

Example split_white_space :
  Py.split_ws "  Time: 0 ms   Nodes: 20 " = ["Time:"; "0"; "ms"; "Nodes:"; "20"]%string.
Proof. reflexivity. Qed.

Example int_literals :
  map Py.parse_int ["12"; "-7"; "+1_0"; "007"; " 5 "; "1__0"; "_1"; "1_"; "+"; ""; "0x1"; "n/a"]%string
  = [Some 12; Some (-7); Some 10; Some 7; Some 5; None; None; None; None; None; None; None]%Z.
Proof. vm_compute. reflexivity. Qed.

Example score_line :
  parse_score_line "Score of Plus vs Minus: 5 - 3 - 2  [0.600] 10" = Py.Ok (5, 3, 2)%Z.
Proof. vm_compute. reflexivity. Qed.

Example last_score_wins :
  scan_eval (rev (Py.split Py.LF Demo.cp_output)) = Py.Ok 35%Z /\
  scan_eval (rev (Py.split Py.LF Demo.mate_output)) = Py.Ok 10000%Z.
Proof. split; vm_compute; reflexivity. Qed.

Example perft_commands :
  PerftTest.commands "8/8/8/8/8/8/8/8 w - - 0 1" 5 false
  = ("position fen 8/8/8/8/8/8/8/8 w - - 0 1" ++ Py.LF ++ "perft 5" ++ Py.LF
     ++ "quit" ++ Py.LF)%string.
Proof. reflexivity. Qed.

(** A first token [Nodes:] that is not followed by an integer ends the
    search, whatever the later lines hold. *)
Example perft_first_count_unreadable :
  PerftTest.scan_nodes ["Nodes: n/a"; "Nodes: 20"]%string = Py.Raise Py.ValueError /\
  PerftTest.scan_nodes ["Nodes:"; "Nodes: 20"]%string = Py.Ok 20%Z.
Proof. split; vm_compute; reflexivity. Qed.

(** ** Python's [max], [min] and [clamp] *)

Lemma max_cases (a b : R) :
  (a < b /\ Py.max a b = b) \/ (b <= a /\ Py.max a b = a).
Proof.
  unfold Py.max. destruct (Rlt_dec a b) as [Hlt | Hge].
  - left. split; [exact Hlt | reflexivity].
  - right. split; [lra | reflexivity].
Qed.

Lemma min_cases (a b : R) :
  (b < a /\ Py.min a b = b) \/ (a <= b /\ Py.min a b = a).
Proof.
  unfold Py.min. destruct (Rlt_dec b a) as [Hlt | Hge].
  - left. split; [exact Hlt | reflexivity].
  - right. split; [lra | reflexivity].
Qed.

Lemma clamp_within (p : TunableParam.t) (val : R) :
  bounds_ordered p -> within p (clamp p val).
Proof.
  unfold bounds_ordered, within, clamp. intros Hord.
  destruct (min_cases (max_val p) val) as [[H1 E1] | [H1 E1]]; rewrite E1;
    destruct (max_cases (min_val p) (Py.min (max_val p) val)) as [[H2 E2] | [H2 E2]];
    rewrite E1 in *; rewrite E2; lra.
Qed.

Lemma clamp_fixes (p : TunableParam.t) (val : R) :
  within p val -> clamp p val = val.
Proof.
  unfold within, clamp. intros [Hlo Hhi].
  destruct (min_cases (max_val p) val) as [[H1 E1] | [H1 E1]]; rewrite E1;
    destruct (max_cases (min_val p) (Py.min (max_val p) val)) as [[H2 E2] | [H2 E2]];
    rewrite E1 in *; rewrite E2; lra.
Qed.

Lemma post_init_scaled (p : TunableParam.t) : scaled (__post_init__ p).
Proof.
  unfold scaled, __post_init__. cbn [c_end].
  destruct (Req_EM_T (c_end p) 0) as [E | N]; [ | exact N].
  destruct (max_cases 1 ((max_val p - min_val p) * 0.02)) as [[H E'] | [H E']];
    rewrite E'; lra.
Qed.

Lemma set_value_same (p : TunableParam.t) : set_value p (value p) = p.
Proof. destruct p; reflexivity. Qed.

(** ** Dictionaries, random signs and the two loops of [iterate] *)


Lemma dict_get_set {V : Type} (d : dict V) (k : string) (v : V) (key : string) :
  dict_get (dict_set d k v) key = if String.eqb k key then Some v else dict_get d key.
Proof.
  induction d as [| [k' v'] d IH]; cbn.
  - reflexivity.
  - destruct (String.eqb k' k) eqn:E; cbn.
    + apply String.eqb_eq in E. subst k'. destruct (String.eqb k key); reflexivity.
    + rewrite IH. destruct (String.eqb k' key) eqn:E2; [ | reflexivity].
      apply String.eqb_eq in E2. subst k'.
      rewrite String.eqb_sym, E. reflexivity.
Qed.

Lemma config_within_empty (ps : list TunableParam.t) : config_within ps [].
Proof. intros key v H. discriminate H. Qed.

Lemma config_within_set (ps : list TunableParam.t) (d : dict R)
    (p : TunableParam.t) (v : R) :
  config_within ps d -> In p ps -> within p v ->
  config_within ps (dict_set d (name p) v).
Proof.
  intros Hd Hin Hv key w. rewrite dict_get_set.
  destruct (String.eqb (name p) key) eqn:E.
  - intros [= <-]. apply String.eqb_eq in E. exists p. auto.
  - apply Hd.
Qed.

Lemma delta_at_cases (env : Env) (i : nat) :
  delta_at env i = 1%Z \/ delta_at env i = (-1)%Z.
Proof. unfold delta_at. destruct (randint01 env i); cbn; auto. Qed.

Lemma delta_getitem (self : SPSATuner.t) (env : Env) (i : nat) :
  (i < length (params self))%nat ->
  Py.getitem (_generate_perturbation self env) i = Py.Ok (delta_at env i).
Proof.
  intros Hi. unfold Py.getitem, _generate_perturbation.
  rewrite nth_error_map, nth_error_seq.
  apply Nat.ltb_lt in Hi. rewrite Hi. reflexivity.
Qed.

Lemma enumerate_index {A : Type} (xs : list A) (i : nat) (x : A) :
  In (i, x) (enumerate xs) -> (i < length xs)%nat.
Proof.
  intros H. apply in_combine_l in H. apply in_seq in H. lia.
Qed.

Lemma enumerate_member {A : Type} (xs : list A) (i : nat) (x : A) :
  In (i, x) (enumerate xs) -> In x xs.
Proof. intros H. apply in_combine_r in H. exact H. Qed.

Lemma combine_seq_snd {A : Type} (xs : list A) (start : nat) :
  map snd (combine (seq start (length xs)) xs) = xs.
Proof.
  revert start. induction xs as [| x xs IH]; intros start; cbn.
  - reflexivity.
  - rewrite IH. reflexivity.
Qed.

Lemma enumerate_snd {A : Type} (xs : list A) : map snd (enumerate xs) = xs.
Proof. apply combine_seq_snd. Qed.

Lemma perturb_loop_total (self : SPSATuner.t) (env : Env) (c_k : R)
    (ps : list (nat * TunableParam.t)) (plus minus : dict R) :
  (forall i p, In (i, p) ps -> (i < length (params self))%nat) ->
  exists pp pm,
    perturb_loop c_k (_generate_perturbation self env) ps plus minus = Py.Ok (pp, pm).
Proof.
  revert plus minus. induction ps as [| [i p] ps IH]; intros plus minus Hidx; cbn.
  - eauto.
  - rewrite (delta_getitem self env i) by (apply (Hidx i p); left; reflexivity).
    cbn. apply IH. intros j q Hq. apply (Hidx j q). right. exact Hq.
Qed.

Lemma perturb_loop_within (self : SPSATuner.t) (c_k : R) (delta : list Z)
    (ps : list (nat * TunableParam.t)) (plus minus pp pm : dict R) :
  (forall i p, In (i, p) ps -> In p (params self) /\ bounds_ordered p) ->
  config_within (params self) plus -> config_within (params self) minus ->
  perturb_loop c_k delta ps plus minus = Py.Ok (pp, pm) ->
  config_within (params self) pp /\ config_within (params self) pm.
Proof.
  revert plus minus. induction ps as [| [i p] ps IH]; intros plus minus Hps Hplus Hminus; cbn.
  - intros [= <- <-]. auto.
  - destruct (Py.getitem delta i) as [d | e]; cbn; [ | discriminate].
    destruct (Hps i p (or_introl eq_refl)) as [Hin Hord].
    apply IH.
    + intros j q Hq. apply (Hps j q). right. exact Hq.
    + apply config_within_set; auto using clamp_within.
    + apply config_within_set; auto using clamp_within.
Qed.

Lemma gradient_defined (c_k score_plus score_minus : R) (p : TunableParam.t) (d : Z) :
  c_k <> 0 -> scaled p -> (d = 1 \/ d = -1)%Z ->
  gradient_of c_k score_plus score_minus p d
  = Py.Ok ((score_plus - score_minus) / (2 * c_k * c_end p * IZR d)).
Proof.
  intros Hc Hp Hd. unfold gradient_of, Py.div.
  destruct (Req_EM_T (2 * c_k * c_end p * IZR d) 0) as [E | N]; [ | reflexivity].
  exfalso. unfold scaled in Hp.
  assert (Hd' : IZR d <> 0) by (destruct Hd as [-> | ->]; lra).
  apply Rmult_integral in E. destruct E as [E | E]; [ | contradiction].
  apply Rmult_integral in E. destruct E as [E | E]; [ | contradiction].
  apply Rmult_integral in E. destruct E as [E | E]; [lra | contradiction].
Qed.

Lemma update_loop_closed_form (self : SPSATuner.t) (env : Env)
    (a_k c_k score_plus score_minus : R) (ps : list (nat * TunableParam.t)) :
  c_k <> 0 ->
  (forall i p, In (i, p) ps -> (i < length (params self))%nat /\ scaled p) ->
  update_loop a_k c_k score_plus score_minus (_generate_perturbation self env) ps
  = Py.Ok (map (fun ip => updated a_k c_k score_plus score_minus (snd ip)
                            (delta_at env (fst ip))) ps).
Proof.
  intros Hc. induction ps as [| [i p] ps IH]; intros Hps; cbn.
  - reflexivity.
  - destruct (Hps i p (or_introl eq_refl)) as [Hi Hp].
    rewrite (delta_getitem self env i Hi). cbn.
    assert (Hd := delta_at_cases env i).
    replace (delta_at env i =? 0)%Z with false
      by (symmetry; apply Z.eqb_neq; destruct Hd as [-> | ->]; discriminate).
    rewrite (gradient_defined c_k score_plus score_minus p _ Hc Hp Hd). cbn.
    rewrite IH by (intros j q Hq; apply (Hps j q); right; exact Hq).
    reflexivity.
Qed.


(** ** The coefficient schedule and the two estimators return *)

Lemma Rpower_nonzero' (x y : R) : Rpower x y <> 0.
Proof. unfold Rpower. pose proof (exp_pos (y * ln x)). lra. Qed.

Lemma Rpower_positive (x y : R) : 0 < Rpower x y.
Proof. unfold Rpower. apply exp_pos. Qed.

Lemma div_defined (a b : R) : b <> 0 -> Py.div a b = Py.Ok (a / b).
Proof.
  intros Hb. unfold Py.div. destruct (Req_EM_T b 0); [contradiction | reflexivity].
Qed.

Lemma coefficients_value (self : SPSATuner.t) (k : nat) :
  _get_spsa_coefficients self k
  = Py.Ok (1 / Rpower (IZR (A + Z.of_nat k + 1)) alpha,
           1 / Rpower (IZR (Z.of_nat k + 1)) gamma).
Proof.
  unfold _get_spsa_coefficients, Py.pow.
  rewrite !div_defined by apply Rpower_nonzero'. cbn.
  repeat f_equal; lra.
Qed.

Lemma inverse_positive (x : R) : 0 < x -> 0 < 1 / x.
Proof. intros H. apply Rdiv_pos_pos; lra. Qed.

Lemma eval_loop_from (self : SPSATuner.t) (env : Env) (pp pm : dict R)
    (positions : list string) (total : R) (tested : Z) :
  fold_left
    (fun (acc : R * Z) fen =>
       let diff := position_diff self env pp pm fen in
       (fst acc + IZR diff, (snd acc + 1)%Z))
    positions (total, tested)
  = (total + sum_of_diffs self env pp pm positions,
     (tested + Z.of_nat (length positions))%Z).
Proof.
  revert total tested. induction positions as [| fen positions IH]; intros total tested.
  - cbn. f_equal; [lra | lia].
  - cbn [fold_left]. rewrite IH. cbn [fst snd sum_of_diffs fold_right length].
    f_equal; [unfold sum_of_diffs; lra | lia].
Qed.

Lemma eval_loop_value (self : SPSATuner.t) (env : Env) (pp pm : dict R)
    (positions : list string) :
  eval_loop self env pp pm positions
  = (sum_of_diffs self env pp pm positions, Z.of_nat (length positions)).
Proof.
  unfold eval_loop. rewrite eval_loop_from. f_equal; lra.
Qed.

Lemma run_games_simple_value (self : SPSATuner.t) (env : Env) (pp pm : dict R) :
  let positions := sampled_positions self env in
  let avg_diff :=
    sum_of_diffs self env pp pm positions
    / IZR (Z.max 1 (Z.of_nat (length positions))) in
  _run_games_simple self env pp pm = Py.Ok (logistic avg_diff, 1 - logistic avg_diff).
Proof.
  intros positions avg_diff. unfold _run_games_simple.
  fold positions. rewrite eval_loop_value.
  rewrite div_defined.
  2:{ apply not_0_IZR. lia. }
  cbn [Py.bind]. unfold Py.pow.
  rewrite div_defined.
  2:{ pose proof (Rpower_positive 10 (- avg_diff / 100)). fold avg_diff. lra. }
  reflexivity.
Qed.

Lemma estimate_total (self : SPSATuner.t) (use_simple_games : bool) (env : Env)
    (pp pm : dict R) :
  exists sp sm, estimate self use_simple_games env pp pm = Py.Ok (sp, sm).
Proof.
  unfold estimate. destruct use_simple_games.
  - rewrite run_games_simple_value. eauto.
  - destruct (_run_games self env pp pm) as [sp sm]. eauto.
Qed.


(** ** One iteration, in closed form *)

Lemma enumerate_scaled (ps : list TunableParam.t) :
  Forall scaled ps ->
  forall i p, In (i, p) (enumerate ps) -> (i < length ps)%nat /\ scaled p.
Proof.
  intros Hps i p Hip. split.
  - exact (enumerate_index ps i p Hip).
  - rewrite Forall_forall in Hps. apply Hps. exact (enumerate_member ps i p Hip).
Qed.

Lemma iterate_returns (self : SPSATuner.t) (use_simple_games : bool) (env : Env) :
  Forall scaled (params self) ->
  exists a_k c_k pp pm sp sm,
    _get_spsa_coefficients self (S (iteration self)) = Py.Ok (a_k, c_k) /\
    0 < a_k /\ 0 < c_k /\
    candidates self env = Py.Ok (pp, pm) /\
    estimate self use_simple_games env pp pm = Py.Ok (sp, sm) /\
    iterate self use_simple_games env = Py.Ok (after_iteration self env a_k c_k sp sm).
Proof.
  intros Hscaled.
  destruct (perturb_loop_total self env
              (1 / Rpower (IZR (Z.of_nat (S (iteration self)) + 1)) gamma)
              (enumerate (params self)) [] []) as (pp & pm & Hp).
  { intros i p Hip. exact (enumerate_index _ i p Hip). }
  destruct (estimate_total self use_simple_games env pp pm) as (sp & sm & He).
  eexists _, _, pp, pm, sp, sm.
  split; [apply coefficients_value | ].
  split; [apply inverse_positive, Rpower_positive | ].
  split; [apply inverse_positive, Rpower_positive | ].
  split.
  { unfold candidates. rewrite coefficients_value. cbn [Py.bind]. exact Hp. }
  split; [exact He | ].
  unfold iterate. rewrite coefficients_value. cbn [Py.bind].
  rewrite Hp. cbn [Py.bind]. rewrite He. cbn [Py.bind].
  rewrite update_loop_closed_form.
  - reflexivity.
  - pose proof (Rpower_positive (IZR (Z.of_nat (S (iteration self)) + 1)) gamma) as Hpos.
    apply inverse_positive in Hpos. lra.
  - apply enumerate_scaled. exact Hscaled.
Qed.

Lemma new_params_scaled (a_k c_k sp sm : R) (env : Env) (ps : list TunableParam.t) :
  Forall scaled ps -> Forall scaled (new_params a_k c_k sp sm env ps).
Proof.
  intros Hps. unfold new_params. apply Forall_forall. intros q Hq.
  apply in_map_iff in Hq. destruct Hq as ([i p] & <- & Hip).
  apply (enumerate_scaled ps Hps i p Hip).
Qed.

Lemma new_params_in_bounds (a_k c_k sp sm : R) (env : Env) (ps : list TunableParam.t) :
  Forall bounds_ordered ps -> Forall in_bounds (new_params a_k c_k sp sm env ps).
Proof.
  intros Hps. unfold new_params. apply Forall_forall. intros q Hq.
  apply in_map_iff in Hq. destruct Hq as ([i p] & <- & Hip).
  rewrite Forall_forall in Hps. pose proof (Hps p (enumerate_member ps i p Hip)) as Hord.
  unfold in_bounds, updated. cbn [fst snd].
  apply (clamp_within p _ Hord).
Qed.

Lemma new_params_ordered (a_k c_k sp sm : R) (env : Env) (ps : list TunableParam.t) :
  Forall bounds_ordered ps -> Forall bounds_ordered (new_params a_k c_k sp sm env ps).
Proof.
  intros Hps. unfold new_params. apply Forall_forall. intros q Hq.
  apply in_map_iff in Hq. destruct Hq as ([i p] & <- & Hip).
  rewrite Forall_forall in Hps. exact (Hps p (enumerate_member ps i p Hip)).
Qed.


Lemma delta_getitem_inv (self : SPSATuner.t) (env : Env) (i : nat) (d : Z) :
  Py.getitem (_generate_perturbation self env) i = Py.Ok d -> d = delta_at env i.
Proof.
  unfold Py.getitem, _generate_perturbation.
  rewrite nth_error_map, nth_error_seq.
  destruct (i <? length (params self))%nat; cbn; [ | discriminate].
  intros [= <-]. reflexivity.
Qed.

Lemma update_loop_inversion (self : SPSATuner.t) (env : Env)
    (a_k c_k score_plus score_minus : R) (ps : list (nat * TunableParam.t))
    (ps' : list TunableParam.t) :
  update_loop a_k c_k score_plus score_minus (_generate_perturbation self env) ps
  = Py.Ok ps' ->
  ps' = map (fun ip => updated a_k c_k score_plus score_minus (snd ip)
                         (delta_at env (fst ip))) ps.
Proof.
  revert ps'. induction ps as [| [i p] ps IH]; intros ps'; cbn.
  - intros [= <-]. reflexivity.
  - destruct (Py.getitem (_generate_perturbation self env) i) as [d | e] eqn:Hd;
      cbn; [ | discriminate].
    apply delta_getitem_inv in Hd. subst d.
    replace (delta_at env i =? 0)%Z with false
      by (symmetry; apply Z.eqb_neq; destruct (delta_at_cases env i) as [-> | ->];
          discriminate).
    unfold gradient_of, Py.div.
    destruct (Req_EM_T (2 * c_k * c_end p * IZR (delta_at env i)) 0); cbn;
      [discriminate | ].
    destruct (update_loop a_k c_k score_plus score_minus
                (_generate_perturbation self env) ps) as [rest | e]; cbn;
      [ | discriminate].
    intros [= <-]. rewrite (IH rest eq_refl). reflexivity.
Qed.

Lemma update_loop_gradients (self : SPSATuner.t) (env : Env)
    (a_k c_k score_plus score_minus : R) (ps : list (nat * TunableParam.t))
    (ps' : list TunableParam.t) :
  update_loop a_k c_k score_plus score_minus (_generate_perturbation self env) ps
  = Py.Ok ps' ->
  forall i p, In (i, p) ps ->
    Py.getitem (_generate_perturbation self env) i = Py.Ok (delta_at env i) /\
    exists gradient,
      gradient_of c_k score_plus score_minus p (delta_at env i) = Py.Ok gradient.
Proof.
  revert ps'. induction ps as [| [j q] ps IH]; intros ps'; cbn [update_loop].
  - intros _ i p [].
  - destruct (Py.getitem (_generate_perturbation self env) j) as [d | e] eqn:Hd;
      cbn [Py.bind]; [ | discriminate].
    pose proof (delta_getitem_inv _ _ _ _ Hd) as ->.
    replace (delta_at env j =? 0)%Z with false
      by (symmetry; apply Z.eqb_neq; destruct (delta_at_cases env j) as [-> | ->];
          discriminate).
    destruct (gradient_of c_k score_plus score_minus q (delta_at env j))
      as [gradient | e] eqn:Hg; cbn [Py.bind]; [ | discriminate].
    destruct (update_loop a_k c_k score_plus score_minus
                (_generate_perturbation self env) ps) as [rest | e]; cbn [Py.bind];
      [ | discriminate].
    intros _ i p [[= <- <-] | Hin].
    + split; [exact Hd | eauto].
    + exact (IH rest eq_refl i p Hin).
Qed.

Lemma iterate_inversion (self : SPSATuner.t) (use_simple_games : bool) (env : Env)
    (r : IterationRecord.t) (self' : SPSATuner.t) :
  iterate self use_simple_games env = Py.Ok (r, self') ->
  exists a_k c_k pp pm sp sm,
    _get_spsa_coefficients self (S (iteration self)) = Py.Ok (a_k, c_k) /\
    0 < a_k /\ 0 < c_k /\
    candidates self env = Py.Ok (pp, pm) /\
    estimate self use_simple_games env pp pm = Py.Ok (sp, sm) /\
    update_loop a_k c_k sp sm (_generate_perturbation self env) (enumerate (params self))
    = Py.Ok (new_params a_k c_k sp sm env (params self)) /\
    (r, self') = after_iteration self env a_k c_k sp sm.
Proof.
  unfold iterate, candidates. rewrite coefficients_value. cbn [Py.bind].
  destruct (perturb_loop _ _ _ _ _) as [[pp pm] | e] eqn:Hp; cbn [Py.bind];
    [ | discriminate].
  destruct (estimate self use_simple_games env pp pm) as [[sp sm] | e] eqn:He;
    cbn [Py.bind]; [ | discriminate].
  destruct (update_loop _ _ _ _ _ _) as [ps' | e] eqn:Hu; cbn [Py.bind];
    [ | discriminate].
  pose proof (update_loop_inversion _ _ _ _ _ _ _ _ Hu) as ->.
  intros [= <- <-].
  eexists _, _, pp, pm, sp, sm.
  split; [reflexivity | ].
  split; [apply inverse_positive, Rpower_positive | ].
  split; [apply inverse_positive, Rpower_positive | ].
  split; [reflexivity | ].
  split; [exact He | ].
  split; [exact Hu | reflexivity].
Qed.

Lemma candidates_within (self : SPSATuner.t) (env : Env) (pp pm : dict R) :
  Forall bounds_ordered (params self) ->
  candidates self env = Py.Ok (pp, pm) ->
  config_within (params self) pp /\ config_within (params self) pm.
Proof.
  intros Hord. unfold candidates. rewrite coefficients_value. cbn [Py.bind].
  apply perturb_loop_within; try apply config_within_empty.
  intros i p Hip. pose proof (enumerate_member _ i p Hip) as Hin.
  rewrite Forall_forall in Hord. auto.
Qed.

(** ** The loop of [run] *)

Lemma run_loop_invariant (P : SPSATuner.t -> Prop) (use_simple_games : bool)
    (envs : nat -> Env) :
  (forall self env r self',
     P self -> iterate self use_simple_games env = Py.Ok (r, self') -> P self') ->
  forall n i self self',
    P self -> run_loop self use_simple_games envs i n = Py.Ok self' -> P self'.
Proof.
  intros Hstep. induction n as [| n IH]; intros i self self' HP; cbn.
  - intros [= <-]. exact HP.
  - destruct (iterate self use_simple_games (envs i)) as [[r self1] | e] eqn:Hit;
      cbn; [ | discriminate].
    apply IH. exact (Hstep self (envs i) r self1 HP Hit).
Qed.

Lemma run_loop_returns (use_simple_games : bool) (envs : nat -> Env) :
  forall n i self,
    Forall scaled (params self) ->
    exists self', run_loop self use_simple_games envs i n = Py.Ok self'.
Proof.
  induction n as [| n IH]; intros i self Hscaled; cbn.
  - eauto.
  - destruct (iterate_returns self use_simple_games (envs i) Hscaled)
      as (a_k & c_k & pp & pm & sp & sm & _ & _ & _ & _ & _ & Hit).
    rewrite Hit. cbn. apply IH. apply new_params_scaled. exact Hscaled.
Qed.


(** ** The default parameters *)

Lemma new_scaled (name : string) (value min_val max_val c_end a_end : R) :
  scaled (TunableParam.new name value min_val max_val c_end a_end).
Proof. apply post_init_scaled. Qed.

Lemma default_params_scaled : Forall scaled DEFAULT_PARAMS.
Proof. unfold DEFAULT_PARAMS. repeat constructor; apply new_scaled. Qed.

Lemma default_params_ordered : Forall bounds_ordered DEFAULT_PARAMS.
Proof.
  unfold DEFAULT_PARAMS.
  repeat constructor; unfold bounds_ordered; cbn [min_val max_val new4 TunableParam.new __post_init__]; lra.
Qed.

Lemma default_params_in_bounds : Forall in_bounds DEFAULT_PARAMS.
Proof.
  unfold DEFAULT_PARAMS.
  repeat constructor; unfold in_bounds, within;
    cbn [value min_val max_val new4 TunableParam.new __post_init__]; lra.
Qed.

(** ** Bounds (C2) *)

(** C2. For a parameter with [min <= max], both candidates
    [clamp(value + offset)] and [clamp(value - offset)] and the value after
    the update [clamp(value + step)] lie in [[min, max]], whatever the offset
    and the step: the configurations an iteration sends to the estimator
    respect the bounds, every parameter is within its bounds once an iteration
    has returned, an iteration does return when no perturbation scale is zero,
    and so [min <= value <= max] holds after any number of iterations. *)
Theorem values_stay_within_bounds :
  (forall p v offset, bounds_ordered p ->
     within p (clamp p (v + offset)) /\ within p (clamp p (v - offset))) /\
  (forall self use_simple_games env, Forall bounds_ordered (params self) ->
     (forall pp pm, candidates self env = Py.Ok (pp, pm) ->
        config_within (params self) pp /\ config_within (params self) pm) /\
     (forall r self', iterate self use_simple_games env = Py.Ok (r, self') ->
        Forall in_bounds (params self')) /\
     (Forall scaled (params self) ->
        exists pp pm r self',
          candidates self env = Py.Ok (pp, pm) /\
          iterate self use_simple_games env = Py.Ok (r, self'))) /\
  (forall self iterations use_simple_games envs,
     Forall bounds_ordered (params self) -> Forall in_bounds (params self) ->
     (forall self', run self iterations use_simple_games envs = Py.Ok self' ->
        Forall in_bounds (params self')) /\
     (Forall scaled (params self) ->
        exists self', run self iterations use_simple_games envs = Py.Ok self')).
Proof.
  split; [ | split].
  - intros p v offset Hord. split; apply clamp_within; exact Hord.
  - intros self use_simple_games env Hord. split; [ | split].
    + intros pp pm. apply candidates_within. exact Hord.
    + intros r self' Hit.
      destruct (iterate_inversion _ _ _ _ _ Hit)
        as (a_k & c_k & pp & pm & sp & sm & _ & _ & _ & _ & _ & _ & Heq).
      injection Heq as _ ->. cbn [params]. apply new_params_in_bounds. exact Hord.
    + intros Hscaled.
      destruct (iterate_returns self use_simple_games env Hscaled)
        as (a_k & c_k & pp & pm & sp & sm & _ & _ & _ & Hcand & _ & Hit).
      rewrite Hit. destruct (after_iteration self env a_k c_k sp sm) as [r self'].
      exists pp, pm, r, self'. split; [exact Hcand | reflexivity].
  - intros self iterations use_simple_games envs Hord Hin. split.
    + intros self' Hrun.
      apply (run_loop_invariant
               (fun s => Forall bounds_ordered (params s) /\ Forall in_bounds (params s))
               use_simple_games envs) with (n := iterations) (i := 0%nat) (self := self);
        [ | auto | exact Hrun].
      intros s env r s' [Hord' _] Hit.
      destruct (iterate_inversion _ _ _ _ _ Hit)
        as (a_k & c_k & pp & pm & sp & sm & _ & _ & _ & _ & _ & _ & Heq).
      injection Heq as _ ->. cbn [params].
      split; [apply new_params_ordered | apply new_params_in_bounds]; exact Hord'.
    + intros Hscaled. apply run_loop_returns. exact Hscaled.
Qed.

Lemma values_stay_within_bounds_witness :
  (within (TunableParam.new4 "PawnValueMG" 100 70 130)
     (clamp (TunableParam.new4 "PawnValueMG" 100 70 130) (100 + 45)) /\
   within (TunableParam.new4 "PawnValueMG" 100 70 130)
     (clamp (TunableParam.new4 "PawnValueMG" 100 70 130) (100 - 45))) /\
  (exists pp pm r self',
     candidates Demo.tuner Demo.silent = Py.Ok (pp, pm) /\
     iterate Demo.tuner false Demo.silent = Py.Ok (r, self') /\
     config_within (params Demo.tuner) pp /\ config_within (params Demo.tuner) pm /\
     Forall in_bounds (params self')) /\
  (exists self',
     run Demo.tuner 3 true (fun _ => Demo.silent) = Py.Ok self' /\
     Forall in_bounds (params self')).
Proof.
  destruct values_stay_within_bounds as (Hclamp & Hiter & Hrun).
  split; [ | split].
  - apply Hclamp. unfold bounds_ordered. cbn. lra.
  - destruct (Hiter Demo.tuner false Demo.silent default_params_ordered)
      as (Hcand & Hafter & Hreturns).
    destruct (Hreturns default_params_scaled) as (pp & pm & r & self' & Hc & Hit).
    exists pp, pm, r, self'.
    destruct (Hcand pp pm Hc) as [Hpp Hpm].
    pose proof (Hafter r self' Hit) as Hin. auto.
  - destruct (Hrun Demo.tuner 3%nat true (fun _ => Demo.silent)
                default_params_ordered default_params_in_bounds)
      as (Hafter & Hreturns).
    destruct (Hreturns default_params_scaled) as (self' & Hr).
    exists self'. split; [exact Hr | exact (Hafter self' Hr)].
Defined.

(** ** The update without information (C1) *)

Lemma updated_neutral (a_k c_k score : R) (p : TunableParam.t) (d : Z) :
  in_bounds p -> updated a_k c_k score score p d = p.
Proof.
  intros Hin. unfold updated.
  replace (value p + a_k * a_end p * ((score - score) / (2 * c_k * c_end p * IZR d)))
    with (value p).
  - rewrite (clamp_fixes p (value p) Hin). apply set_value_same.
  - unfold Rdiv. rewrite Rminus_diag, Rmult_0_l, Rmult_0_r, Rplus_0_r. reflexivity.
Qed.

Lemma new_params_neutral (a_k c_k score : R) (env : Env) (ps : list TunableParam.t) :
  Forall in_bounds ps -> new_params a_k c_k score score env ps = ps.
Proof.
  intros Hin. unfold new_params.
  rewrite <- (enumerate_snd ps) at 2.
  apply map_ext_in. intros [i p] Hip. cbn [fst snd].
  apply updated_neutral. rewrite Forall_forall in Hin.
  apply Hin. exact (enumerate_member ps i p Hip).
Qed.

Lemma gradient_neutral (c_k score : R) (p : TunableParam.t) (d : Z) (gradient : R) :
  gradient_of c_k score score p d = Py.Ok gradient -> gradient = 0.
Proof.
  unfold gradient_of, Py.div.
  destruct (Req_EM_T (2 * c_k * c_end p * IZR d) 0); [discriminate | ].
  intros [= <-]. unfold Rdiv. rewrite Rminus_diag. apply Rmult_0_l.
Qed.

(** C1. In an iteration whose estimator returns the neutral pair
    [(0.5, 0.5)], on parameters that all satisfy [min <= value <= max], the
    gradient and the step of every parameter are exactly [0] and the
    iteration leaves every parameter as it was. The iteration does return
    when no perturbation scale is zero, which is how [__post_init__] leaves
    them. *)
Theorem neutral_scores_change_nothing
    (self : SPSATuner.t) (use_simple_games : bool) (env : Env) (pp pm : dict R) :
  Forall in_bounds (params self) ->
  candidates self env = Py.Ok (pp, pm) ->
  estimate self use_simple_games env pp pm = Py.Ok (0.5, 0.5) ->
  (forall r self',
     iterate self use_simple_games env = Py.Ok (r, self') ->
     params self' = params self /\
     current_params self' = dict_comp name value (params self) /\
     exists a_k c_k,
       _get_spsa_coefficients self (S (iteration self)) = Py.Ok (a_k, c_k) /\
       forall i p, In (i, p) (enumerate (params self)) ->
         exists d,
           Py.getitem (_generate_perturbation self env) i = Py.Ok d /\
           gradient_of c_k 0.5 0.5 p d = Py.Ok 0 /\
           step_of a_k p 0 = 0) /\
  (Forall scaled (params self) ->
   exists r self', iterate self use_simple_games env = Py.Ok (r, self')).
Proof.
  intros Hin Hcand Hest. split.
  - intros r self' Hit.
    destruct (iterate_inversion _ _ _ _ _ Hit)
      as (a_k & c_k & pp' & pm' & sp & sm & Hco & _ & _ & Hcand' & Hest' & Hupd & Heq).
    rewrite Hcand in Hcand'. injection Hcand' as <- <-.
    rewrite Hest in Hest'. injection Hest' as <- <-.
    injection Heq as _ ->. cbn [params current_params].
    rewrite (new_params_neutral _ _ _ _ _ Hin).
    split; [reflexivity | ]. split; [reflexivity | ].
    exists a_k, c_k. split; [exact Hco | ].
    intros i p Hip. exists (delta_at env i).
    destruct (update_loop_gradients _ _ _ _ _ _ _ _ Hupd i p Hip) as (Hd & g & Hg).
    split; [exact Hd | ]. split.
    + rewrite Hg. f_equal. exact (gradient_neutral _ _ _ _ _ Hg).
    + unfold step_of. apply Rmult_0_r.
  - intros Hscaled.
    destruct (iterate_returns self use_simple_games env Hscaled)
      as (a_k & c_k & pp' & pm' & sp & sm & _ & _ & _ & _ & _ & Hit).
    rewrite Hit. destruct (after_iteration self env a_k c_k sp sm) as [r self'].
    eauto.
Qed.

Lemma neutral_scores_change_nothing_witness :
  exists r self',
    iterate Demo.tuner false Demo.silent = Py.Ok (r, self') /\
    params self' = params Demo.tuner.
Proof.
  destruct (iterate_returns Demo.tuner false Demo.silent default_params_scaled)
    as (a_k & c_k & pp & pm & sp & sm & _ & _ & _ & Hcand & _ & _).
  destruct (neutral_scores_change_nothing Demo.tuner false Demo.silent pp pm
              default_params_in_bounds Hcand eq_refl)
    as (Hafter & Hreturns).
  destruct (Hreturns default_params_scaled) as (r & self' & Hit).
  exists r, self'. split; [exact Hit | ].
  exact (proj1 (Hafter r self' Hit)).
Defined.

(** ** The match-based estimator on a finished match *)

Lemma subprocess_run_in_time (timeout elapsed : R) (stdout : string) :
  elapsed <= timeout -> Py.subprocess_run timeout (Py.Exits elapsed stdout) = Py.Ok stdout.
Proof.
  intros H. cbn. destruct (Rle_dec elapsed timeout); [reflexivity | contradiction].
Qed.

Lemma subprocess_run_late (timeout elapsed : R) (stdout : string) :
  timeout < elapsed ->
  Py.subprocess_run timeout (Py.Exits elapsed stdout) = Py.Raise Py.TimeoutExpired.
Proof.
  intros H. cbn. destruct (Rle_dec elapsed timeout); [lra | reflexivity].
Qed.

Lemma run_games_counts (self : SPSATuner.t) (env : Env) (pp pm : dict R)
    (elapsed : R) (stdout : string) (wins_plus wins_minus draws : Z) :
  cutechess env pp pm = Py.Exits elapsed stdout ->
  elapsed <= 3600 ->
  scan_score (Py.split Py.LF stdout) = Py.Ok (wins_plus, wins_minus, draws) ->
  (wins_plus + wins_minus + draws <> 0)%Z ->
  _run_games self env pp pm
  = ((IZR wins_plus + IZR draws * 0.5) / IZR (wins_plus + wins_minus + draws),
     (IZR wins_minus + IZR draws * 0.5) / IZR (wins_plus + wins_minus + draws)).
Proof.
  intros Hproc Htime Hscan Htotal. unfold _run_games.
  rewrite Hproc, (subprocess_run_in_time _ _ _ Htime). cbn [Py.bind].
  rewrite Hscan. cbn [Py.bind].
  apply Z.eqb_neq in Htotal. rewrite Htotal.
  apply Z.eqb_neq in Htotal.
  rewrite !div_defined by (apply not_0_IZR; exact Htotal).
  reflexivity.
Qed.

Lemma run_games_zero_total (self : SPSATuner.t) (env : Env) (pp pm : dict R)
    (elapsed : R) (stdout : string) (wins_plus wins_minus draws : Z) :
  cutechess env pp pm = Py.Exits elapsed stdout ->
  elapsed <= 3600 ->
  scan_score (Py.split Py.LF stdout) = Py.Ok (wins_plus, wins_minus, draws) ->
  (wins_plus + wins_minus + draws = 0)%Z ->
  _run_games self env pp pm = (0.5, 0.5).
Proof.
  intros Hproc Htime Hscan Htotal. unfold _run_games.
  rewrite Hproc, (subprocess_run_in_time _ _ _ Htime). cbn [Py.bind].
  rewrite Hscan. cbn [Py.bind].
  apply Z.eqb_eq in Htotal. rewrite Htotal. reflexivity.
Qed.

Lemma run_games_raise (self : SPSATuner.t) (env : Env) (pp pm : dict R) (e : Py.exn) :
  Py.subprocess_run 3600 (cutechess env pp pm) = Py.Raise e ->
  _run_games self env pp pm = (0.5, 0.5).
Proof. intros H. unfold _run_games. rewrite H. reflexivity. Qed.

Lemma run_games_unparseable (self : SPSATuner.t) (env : Env) (pp pm : dict R)
    (stdout : string) (e : Py.exn) :
  Py.subprocess_run 3600 (cutechess env pp pm) = Py.Ok stdout ->
  scan_score (Py.split Py.LF stdout) = Py.Raise e ->
  _run_games self env pp pm = (0.5, 0.5).
Proof. intros H Hs. unfold _run_games. rewrite H. cbn [Py.bind]. rewrite Hs. reflexivity. Qed.

Lemma scoring_scores (self : SPSATuner.t) (pp pm : dict R) (w l d : Z) :
  scan_score (Py.split Py.LF (Demo.match_output w l d)) = Py.Ok (w, l, d) ->
  (w + l + d <> 0)%Z ->
  _run_games self (Demo.scoring 60 w l d) pp pm
  = ((IZR w + IZR d * 0.5) / IZR (w + l + d), (IZR l + IZR d * 0.5) / IZR (w + l + d)).
Proof.
  intros Hscan Htotal.
  apply (run_games_counts self _ pp pm 60 (Demo.match_output w l d)); auto.
  lra.
Qed.

Lemma four_matches_scores (self : SPSATuner.t) (i : nat) (pp pm : dict R) :
  _run_games self (Demo.four_matches i) pp pm
  = nth i [(0.52, 0.48); (0.61, 0.39); (0.58, 0.42)] (0.70, 0.30).
Proof.
  destruct i as [| [| [| i]]]; cbn [Demo.four_matches nth];
    (rewrite scoring_scores; [ | vm_compute; reflexivity | discriminate]);
    try (destruct i); rewrite !plus_IZR; f_equal; lra.
Qed.


(** ** Best tracking (C7) *)

Lemma after_iteration_best (self : SPSATuner.t) (env : Env) (a_k c_k sp sm : R) :
  let self' := snd (after_iteration self env a_k c_k sp sm) in
  (best_score self', best_iteration self')
  = (if Rgt_dec sp (best_score self) then (sp, S (iteration self))
     else (best_score self, best_iteration self)).
Proof.
  cbn [after_iteration snd best_score best_iteration].
  destruct (Rgt_dec sp (best_score self)); reflexivity.
Qed.

Lemma run_loop_track (use_simple_games : bool) (envs : nat -> Env) :
  forall n i self self',
    run_loop self use_simple_games envs i n = Py.Ok self' ->
    exists rs,
      history self' = history self ++ rs /\
      iteration self' = (iteration self + n)%nat /\
      (best_score self', best_iteration self')
      = track (best_score self, best_iteration self) (iteration self)
          (map IterationRecord.score_plus rs).
Proof.
  induction n as [| n IH]; intros i self self'; cbn [run_loop].
  - intros [= <-]. exists []. rewrite app_nil_r, Nat.add_0_r. auto.
  - destruct (iterate self use_simple_games (envs i)) as [[r self1] | e] eqn:Hit;
      cbn [Py.bind]; [ | discriminate].
    intros Hrun. destruct (IH _ _ _ Hrun) as (rs & Hh & Hi & Hb).
    destruct (iterate_inversion _ _ _ _ _ Hit)
      as (a_k & c_k & pp & pm & sp & sm & _ & _ & _ & _ & _ & _ & Heq).
    pose proof (after_iteration_best self (envs i) a_k c_k sp sm) as Hbest.
    rewrite <- Heq in Hbest. cbn [snd] in Hbest.
    assert (Hr : IterationRecord.score_plus r = sp) by (injection Heq as -> _; reflexivity).
    assert (Hhist : history self1 = history self ++ [r])
      by (injection Heq as -> ->; reflexivity).
    assert (Hiter : iteration self1 = S (iteration self))
      by (injection Heq as _ ->; reflexivity).
    exists (r :: rs). split; [ | split].
    + rewrite Hh, Hhist, <- app_assoc. reflexivity.
    + rewrite Hi, Hiter. lia.
    + cbn [map track fst]. rewrite Hb, Hbest, Hiter, Hr. reflexivity.
Qed.

Lemma run_loop_scores (use_simple_games : bool) (envs : nat -> Env)
    (score : nat -> R * R) :
  (forall self i pp pm, estimate self use_simple_games (envs i) pp pm = Py.Ok (score i)) ->
  forall n i self self',
    run_loop self use_simple_games envs i n = Py.Ok self' ->
    exists rs,
      history self' = history self ++ rs /\
      map IterationRecord.score_plus rs = map (fun j => fst (score j)) (seq i n).
Proof.
  intros Hscore. induction n as [| n IH]; intros i self self'; cbn [run_loop].
  - intros [= <-]. exists []. rewrite app_nil_r. auto.
  - destruct (iterate self use_simple_games (envs i)) as [[r self1] | e] eqn:Hit;
      cbn [Py.bind]; [ | discriminate].
    intros Hrun. destruct (IH _ _ _ Hrun) as (rs & Hh & Hs).
    destruct (iterate_inversion _ _ _ _ _ Hit)
      as (a_k & c_k & pp & pm & sp & sm & _ & _ & _ & _ & Hest & _ & Heq).
    rewrite Hscore in Hest.
    assert (Hr : IterationRecord.score_plus r = fst (score i))
      by (injection Hest as ->; injection Heq as -> _; reflexivity).
    assert (Hhist : history self1 = history self ++ [r])
      by (injection Heq as -> ->; reflexivity).
    exists (r :: rs). split.
    + rewrite Hh, Hhist, <- app_assoc. reflexivity.
    + cbn [map seq]. rewrite Hs, Hr. reflexivity.
Qed.

(** C7. A new tuner has [best_score = 0.5]; after an iteration,
    [best_score], [best_params] (the snapshot of all parameters after the
    update) and [best_iteration] are replaced when the [score_plus] of the
    iteration is strictly above the [best_score] so far and are left as they
    were otherwise, a tie included; four iterations of a new tuner that score
    0.52, 0.61, 0.58, 0.70 end on [best_score = 0.70] and
    [best_iteration = 4]. *)
Theorem best_tracking :
  (forall ps games n depth positions,
     best_score (SPSATuner.__init__ ps games n depth positions) = 0.5) /\
  (forall self use_simple_games env r self',
     iterate self use_simple_games env = Py.Ok (r, self') ->
     (exists pp pm,
        candidates self env = Py.Ok (pp, pm) /\
        estimate self use_simple_games env pp pm
        = Py.Ok (IterationRecord.score_plus r, IterationRecord.score_minus r)) /\
     iteration self' = S (iteration self) /\
     current_params self' = dict_comp name value (params self') /\
     (IterationRecord.score_plus r > best_score self ->
        best_score self' = IterationRecord.score_plus r /\
        best_params self' = current_params self' /\
        best_iteration self' = iteration self') /\
     (~ IterationRecord.score_plus r > best_score self ->
        best_score self' = best_score self /\
        best_params self' = best_params self /\
        best_iteration self' = best_iteration self)) /\
  (forall ps games n depth positions use_simple_games envs self',
     run (SPSATuner.__init__ ps games n depth positions) 4 use_simple_games envs
     = Py.Ok self' ->
     map IterationRecord.score_plus (history self') = [0.52; 0.61; 0.58; 0.70] ->
     best_score self' = 0.70 /\ best_iteration self' = 4%nat).
Proof.
  split; [ | split].
  - reflexivity.
  - intros self use_simple_games env r self' Hit.
    destruct (iterate_inversion _ _ _ _ _ Hit)
      as (a_k & c_k & pp & pm & sp & sm & _ & _ & _ & Hcand & Hest & _ & Heq).
    injection Heq as -> ->.
    cbn [after_iteration IterationRecord.score_plus IterationRecord.score_minus
         iteration current_params params best_score best_params best_iteration].
    split; [exists pp, pm; auto | ].
    split; [reflexivity | ]. split; [reflexivity | ].
    destruct (Rgt_dec sp (best_score self)) as [Hgt | Hle]; split; intros H;
      try contradiction; auto.
  - intros ps games n depth positions use_simple_games envs self' Hrun Hscores.
    destruct (run_loop_track _ _ _ _ _ _ Hrun) as (rs & Hh & _ & Hb).
    cbn [SPSATuner.__init__ history best_score best_iteration iteration app] in Hh, Hb.
    rewrite <- Hh, Hscores in Hb. cbn [track fst] in Hb.
    repeat match type of Hb with
           | context [Rgt_dec ?x ?y] => destruct (Rgt_dec x y); [ | lra]; cbn [fst] in Hb
           | context [Rgt_dec ?x ?y] => destruct (Rgt_dec x y); [lra | ]; cbn [fst] in Hb
           end.
    injection Hb as -> ->. auto.
Qed.

Lemma best_tracking_witness :
  best_score Demo.tuner = 0.5 /\
  exists self',
    run Demo.tuner 4 false Demo.four_matches = Py.Ok self' /\
    best_score self' = 0.70 /\ best_iteration self' = 4%nat.
Proof.
  destruct best_tracking as (Hnew & _ & Hfour).
  split; [apply Hnew | ].
  destruct (run_loop_returns false Demo.four_matches 4 0 Demo.tuner default_params_scaled)
    as (self' & Hrun).
  exists self'. split; [exact Hrun | ].
  apply (Hfour DEFAULT_PARAMS 100%Z 20%nat 4%Z Demo.positions false Demo.four_matches self' Hrun).
  destruct (run_loop_scores false Demo.four_matches
              (fun i => nth i [(0.52, 0.48); (0.61, 0.39); (0.58, 0.42)] (0.70, 0.30)))
    with (n := 4%nat) (i := 0%nat) (self := Demo.tuner) (self' := self')
    as (rs & Hh & Hs).
  - intros self i pp pm. unfold estimate. rewrite four_matches_scores. reflexivity.
  - exact Hrun.
  - cbn [Demo.tuner SPSATuner.__init__ history app] in Hh. rewrite Hh. exact Hs.
Defined.


(** ** The match-based estimator (C3, C5) *)

Lemma scan_score_first (stdout line : string) :
  first_line_with "Score of Plus vs Minus" stdout line ->
  scan_score (Py.split Py.LF stdout) = parse_score_line line.
Proof.
  intros (before & after & -> & Hbefore & Hline).
  induction Hbefore as [| l before Hl _ IH]; cbn [app scan_score].
  - rewrite Hline. reflexivity.
  - rewrite Hl. exact IH.
Qed.

Lemma scan_score_none (stdout : string) :
  no_line_with "Score of Plus vs Minus" stdout ->
  scan_score (Py.split Py.LF stdout) = Py.Ok (0, 0, 0)%Z.
Proof.
  unfold no_line_with. intros H.
  induction H as [| l lines Hl _ IH]; cbn [scan_score].
  - reflexivity.
  - rewrite Hl. exact IH.
Qed.

Lemma exceeds_raises (limit : R) (p : Py.process) :
  exceeds limit p -> Py.subprocess_run limit p = Py.Raise Py.TimeoutExpired.
Proof.
  intros [-> | (elapsed & stdout & -> & Hlate)].
  - reflexivity.
  - apply subprocess_run_late. exact Hlate.
Qed.

Lemma scores_sum_to_one (w l d : Z) :
  (w + l + d <> 0)%Z ->
  (IZR w + IZR d * 0.5) / IZR (w + l + d) + (IZR l + IZR d * 0.5) / IZR (w + l + d) = 1.
Proof.
  intros H. apply not_0_IZR in H.
  unfold Rdiv. rewrite <- Rmult_plus_distr_r.
  replace (IZR w + IZR d * 0.5 + (IZR l + IZR d * 0.5)) with (IZR (w + l + d))
    by (rewrite !plus_IZR; lra).
  apply Rinv_r. exact H.
Qed.

(** C3. When the match runner ends in time and its output reports the
    counts [wins_plus], [wins_minus], [draws] with a positive total,
    [_run_games] returns
    [((wins_plus + 0.5 * draws) / total, (wins_minus + 0.5 * draws) / total)],
    two scores that sum to [1]; when the total is [0], when the match runner
    times out or cannot be started, and when its output cannot be read, it
    returns exactly [(0.5, 0.5)]. It has no other outcome: every exception of
    its body is caught. *)
Theorem match_estimator_scores
    (self : SPSATuner.t) (env : Env) (pp pm : dict R) :
  (forall elapsed stdout wins_plus wins_minus draws,
     cutechess env pp pm = Py.Exits elapsed stdout ->
     elapsed <= 3600 ->
     reports stdout wins_plus wins_minus draws ->
     let total := (wins_plus + wins_minus + draws)%Z in
     ((0 < total)%Z ->
        _run_games self env pp pm
        = ((IZR wins_plus + 0.5 * IZR draws) / IZR total,
           (IZR wins_minus + 0.5 * IZR draws) / IZR total) /\
        fst (_run_games self env pp pm) + snd (_run_games self env pp pm) = 1) /\
     (total = 0%Z -> _run_games self env pp pm = (0.5, 0.5))) /\
  (exceeds 3600 (cutechess env pp pm) -> _run_games self env pp pm = (0.5, 0.5)) /\
  (cutechess env pp pm = Py.CannotStart -> _run_games self env pp pm = (0.5, 0.5)) /\
  (forall elapsed stdout,
     cutechess env pp pm = Py.Exits elapsed stdout ->
     unparseable stdout ->
     _run_games self env pp pm = (0.5, 0.5)).
Proof.
  split; [ | split; [ | split]].
  - intros elapsed stdout w l d Hproc Htime (line & Hfirst & Hparse) total.
    pose proof (scan_score_first stdout line Hfirst) as Hscan. rewrite Hparse in Hscan.
    split.
    + intros Hpos. assert (Hne : (w + l + d <> 0)%Z) by (unfold total in Hpos; lia).
      rewrite (run_games_counts self env pp pm elapsed stdout w l d Hproc Htime Hscan Hne).
      fold total. split.
      * f_equal; f_equal; lra.
      * cbn [fst snd]. apply scores_sum_to_one. exact Hne.
    + intros Hzero.
      exact (run_games_zero_total self env pp pm elapsed stdout w l d Hproc Htime Hscan Hzero).
  - intros Hlate. apply (run_games_raise self env pp pm Py.TimeoutExpired).
    apply exceeds_raises. exact Hlate.
  - intros Hproc. apply (run_games_raise self env pp pm Py.OSError).
    rewrite Hproc. reflexivity.
  - intros elapsed stdout Hproc Hbad.
    destruct (Rle_dec elapsed 3600) as [Htime | Hlate].
    + destruct Hbad as [Hnone | (line & e & Hfirst & Hparse)].
      * apply (run_games_zero_total self env pp pm elapsed stdout 0 0 0 Hproc Htime);
          [apply scan_score_none; exact Hnone | reflexivity].
      * apply (run_games_unparseable self env pp pm stdout e).
        -- rewrite Hproc. apply subprocess_run_in_time. exact Htime.
        -- rewrite (scan_score_first stdout line Hfirst). exact Hparse.
    + apply (run_games_raise self env pp pm Py.TimeoutExpired).
      rewrite Hproc. apply subprocess_run_late. lra.
Qed.


Lemma reports_second_line (stdout first line : string) (rest : list string)
    (w l d : Z) :
  Py.split Py.LF stdout = first :: line :: rest ->
  Py.contains "Score of Plus vs Minus" first = false ->
  Py.contains "Score of Plus vs Minus" line = true ->
  parse_score_line line = Py.Ok (w, l, d) ->
  reports stdout w l d.
Proof.
  intros Hsplit Hfirst Hline Hparse. exists line. split; [ | exact Hparse].
  exists [first], rest. split; [exact Hsplit | ]. split; [ | exact Hline].
  constructor; [exact Hfirst | constructor].
Qed.

Lemma match_estimator_scores_witness :
  (_run_games Demo.tuner (Demo.scoring 60 5 3 2) [] [] = (0.6, 0.4) /\
   fst (_run_games Demo.tuner (Demo.scoring 60 5 3 2) [] [])
   + snd (_run_games Demo.tuner (Demo.scoring 60 5 3 2) [] []) = 1) /\
  _run_games Demo.tuner (Demo.scoring 60 0 0 0) [] [] = (0.5, 0.5) /\
  _run_games Demo.tuner (Demo.scoring 4000 5 3 2) [] [] = (0.5, 0.5) /\
  _run_games Demo.tuner Demo.silent [] [] = (0.5, 0.5) /\
  _run_games Demo.tuner Demo.missing [] [] = (0.5, 0.5) /\
  _run_games Demo.tuner Demo.garbled [] [] = (0.5, 0.5).
Proof.
  split; [ | split; [ | split; [ | split; [ | split]]]].
  - destruct (match_estimator_scores Demo.tuner (Demo.scoring 60 5 3 2) [] [])
      as (Hcounts & _).
    destruct (Hcounts 60 (Demo.match_output 5 3 2) 5%Z 3%Z 2%Z eq_refl) as (Hpos & _).
    + lra.
    + apply (reports_second_line _ "Started game 1 of 100"
               "Score of Plus vs Minus: 5 - 3 - 2  [0.500] 100"
               ["Finished match"; ""]%string); vm_compute; reflexivity.
    + destruct (Hpos eq_refl) as (Hval & Hsum). split; [ | exact Hsum].
      rewrite Hval. rewrite !plus_IZR. f_equal; lra.
  - destruct (match_estimator_scores Demo.tuner (Demo.scoring 60 0 0 0) [] [])
      as (Hcounts & _).
    destruct (Hcounts 60 (Demo.match_output 0 0 0) 0%Z 0%Z 0%Z eq_refl) as (_ & Hzero).
    + lra.
    + apply (reports_second_line _ "Started game 1 of 100"
               "Score of Plus vs Minus: 0 - 0 - 0  [0.500] 100"
               ["Finished match"; ""]%string); vm_compute; reflexivity.
    + exact (Hzero eq_refl).
  - destruct (match_estimator_scores Demo.tuner (Demo.scoring 4000 5 3 2) [] [])
      as (_ & Hlate & _).
    apply Hlate. right. exists 4000, (Demo.match_output 5 3 2). split; [reflexivity | lra].
  - destruct (match_estimator_scores Demo.tuner Demo.silent [] []) as (_ & Hlate & _).
    apply Hlate. left. reflexivity.
  - destruct (match_estimator_scores Demo.tuner Demo.missing [] []) as (_ & _ & Hmissing & _).
    apply Hmissing. reflexivity.
  - destruct (match_estimator_scores Demo.tuner Demo.garbled [] []) as (_ & _ & _ & Hbad).
    apply (Hbad 60 ("Score of Plus vs Minus: 5 - x - 2  [0.500] 10" ++ Py.LF)%string eq_refl).
    right. exists "Score of Plus vs Minus: 5 - x - 2  [0.500] 10"%string, Py.ValueError.
    split; [ | vm_compute; reflexivity].
    exists [], [""%string]. split; [vm_compute; reflexivity | ].
    split; [constructor | vm_compute; reflexivity].
Defined.

(** C5 as stated fails, the limit is not 300 seconds: a match of 1000 seconds that
    Plus wins 70 to 30 is read, not cut off. *)
Lemma match_of_1000_seconds_is_read : ~ match_timeout_is 300.
Proof.
  intros H.
  assert (Hneutral : _run_games Demo.tuner (Demo.scoring 1000 70 30 0) [] [] = (0.5, 0.5)).
  { apply H. right. exists 1000, (Demo.match_output 70 30 0).
    split; [reflexivity | lra]. }
  rewrite (run_games_counts Demo.tuner _ [] [] 1000 (Demo.match_output 70 30 0) 70 30 0)
    in Hneutral; [ | reflexivity | lra | vm_compute; reflexivity | discriminate].
  apply (f_equal fst) in Hneutral. cbn [fst] in Hneutral.
  rewrite !plus_IZR in Hneutral. lra.
Qed.

(** C5, amended. The match runner is given 3600 seconds, no less and no
    more. If it has not ended by then (or never ends), [_run_games] returns
    the neutral pair [(0.5, 0.5)]; a match that ends within the 3600 seconds
    is not cut off: its output is what [_run_games] reads, and the scores it
    returns are those of the counts read there. So the limits after which
    [_run_games] answers every unfinished match with the neutral pair are
    exactly those of 3600 seconds and more. *)
Theorem match_timeout_3600 :
  match_timeout_is 3600 /\
  (forall env pp pm elapsed stdout,
     cutechess env pp pm = Py.Exits elapsed stdout ->
     elapsed <= 3600 ->
     Py.subprocess_run 3600 (cutechess env pp pm) = Py.Ok stdout) /\
  (forall self env pp pm elapsed stdout wins_plus wins_minus draws,
     cutechess env pp pm = Py.Exits elapsed stdout ->
     elapsed <= 3600 ->
     scan_score (Py.split Py.LF stdout) = Py.Ok (wins_plus, wins_minus, draws) ->
     (wins_plus + wins_minus + draws <> 0)%Z ->
     _run_games self env pp pm
     = ((IZR wins_plus + IZR draws * 0.5) / IZR (wins_plus + wins_minus + draws),
        (IZR wins_minus + IZR draws * 0.5) / IZR (wins_plus + wins_minus + draws))) /\
  (forall limit, match_timeout_is limit <-> 3600 <= limit).
Proof.
  assert (Hlimit : match_timeout_is 3600).
  { intros self env pp pm Hlate. apply (run_games_raise self env pp pm Py.TimeoutExpired).
    apply exceeds_raises. exact Hlate. }
  split; [exact Hlimit | split; [ | split]].
  - intros env pp pm elapsed stdout -> Htime. apply subprocess_run_in_time. exact Htime.
  - intros self env pp pm elapsed stdout wins_plus wins_minus draws.
    apply run_games_counts.
  - intros limit. split.
    + intros H. destruct (Rle_dec 3600 limit) as [Hle | Hlt]; [exact Hle | ]. exfalso.
      assert (Hneutral : _run_games Demo.tuner (Demo.scoring 3600 70 30 0) [] []
                         = (0.5, 0.5)).
      { apply H. right. exists 3600, (Demo.match_output 70 30 0).
        split; [reflexivity | lra]. }
      rewrite (run_games_counts Demo.tuner _ [] [] 3600 (Demo.match_output 70 30 0) 70 30 0)
        in Hneutral; [ | reflexivity | lra | vm_compute; reflexivity | discriminate].
      apply (f_equal fst) in Hneutral. cbn [fst] in Hneutral.
      rewrite !plus_IZR in Hneutral. lra.
    + intros Hle self env pp pm [Hhangs | (elapsed & stdout & Hproc & Hlate)].
      * apply Hlimit. left. exact Hhangs.
      * apply Hlimit. right. exists elapsed, stdout. split; [exact Hproc | lra].
Qed.

Lemma match_timeout_3600_witness :
  _run_games Demo.tuner (Demo.scoring 3601 70 30 0) [] [] = (0.5, 0.5) /\
  Py.subprocess_run 3600 (cutechess (Demo.scoring 1000 70 30 0) [] [])
  = Py.Ok (Demo.match_output 70 30 0) /\
  _run_games Demo.tuner (Demo.scoring 1000 70 30 0) [] []
  = ((IZR 70 + IZR 0 * 0.5) / IZR (70 + 30 + 0), (IZR 30 + IZR 0 * 0.5) / IZR (70 + 30 + 0)) /\
  fst (_run_games Demo.tuner (Demo.scoring 1000 70 30 0) [] []) = 0.7 /\
  ~ match_timeout_is 300.
Proof.
  destruct match_timeout_3600 as (Hlate & Hread & Hscores & Hleast).
  assert (Hmatch : _run_games Demo.tuner (Demo.scoring 1000 70 30 0) [] []
                   = ((IZR 70 + IZR 0 * 0.5) / IZR (70 + 30 + 0),
                      (IZR 30 + IZR 0 * 0.5) / IZR (70 + 30 + 0))).
  { apply (Hscores Demo.tuner (Demo.scoring 1000 70 30 0) [] [] 1000
             (Demo.match_output 70 30 0) 70%Z 30%Z 0%Z eq_refl).
    - lra.
    - vm_compute. reflexivity.
    - discriminate. }
  split; [ | split; [ | split; [exact Hmatch | split]]].
  - apply Hlate. right. exists 3601, (Demo.match_output 70 30 0).
    split; [reflexivity | lra].
  - apply (Hread (Demo.scoring 1000 70 30 0) [] [] 1000 (Demo.match_output 70 30 0) eq_refl).
    lra.
  - rewrite Hmatch. cbn [fst]. rewrite !plus_IZR. lra.
  - intros H300. apply (Hleast 300) in H300. lra.
Defined.


(** ** The coefficient schedule (C8) *)

Lemma inverse_decreasing (x y : R) : 0 < x -> x < y -> 1 / y < 1 / x.
Proof.
  intros Hx Hxy. unfold Rdiv. rewrite !Rmult_1_l.
  apply Rinv_lt_contravar; [ | exact Hxy].
  apply Rmult_lt_0_compat; lra.
Qed.

(** C8. With [A = 10], [alpha = 0.602] and [gamma = 0.101],
    [_get_spsa_coefficients] returns [a_k = 1 / (A + k + 1) ** alpha] and
    [c_k = 1 / (k + 1) ** gamma], which depend on [k] alone; for [k >= 1]
    both are strictly positive and strictly smaller than at [k - 1]. *)
Theorem coefficients_decrease (self : SPSATuner.t) (k : nat) :
  (1 <= k)%nat ->
  exists a_k c_k a_prev c_prev,
    _get_spsa_coefficients self k = Py.Ok (a_k, c_k) /\
    _get_spsa_coefficients self (k - 1) = Py.Ok (a_prev, c_prev) /\
    a_k = 1 / Rpower (10 + INR k + 1) 0.602 /\
    c_k = 1 / Rpower (INR k + 1) 0.101 /\
    0 < a_k < a_prev /\
    0 < c_k < c_prev.
Proof.
  intros Hk.
  exists (1 / Rpower (IZR (10 + Z.of_nat k + 1)) 0.602),
         (1 / Rpower (IZR (Z.of_nat k + 1)) 0.101),
         (1 / Rpower (IZR (10 + Z.of_nat (k - 1) + 1)) 0.602),
         (1 / Rpower (IZR (Z.of_nat (k - 1) + 1)) 0.101).
  rewrite !coefficients_value. unfold A, alpha, gamma.
  split; [reflexivity | ]. split; [reflexivity | ].
  assert (Hprev : Z.of_nat (k - 1) = (Z.of_nat k - 1)%Z) by lia.
  assert (Hpos : 1 <= IZR (Z.of_nat k)) by (apply IZR_le; lia).
  split; [ | split; [ | split]].
  - rewrite !plus_IZR, <- INR_IZR_INZ. reflexivity.
  - rewrite !plus_IZR, <- INR_IZR_INZ. reflexivity.
  - split; [apply inverse_positive, Rpower_positive | ].
    apply inverse_decreasing; [apply Rpower_positive | ].
    apply Rlt_Rpower_l; [lra | ].
    rewrite Hprev, !plus_IZR, minus_IZR. lra.
  - split; [apply inverse_positive, Rpower_positive | ].
    apply inverse_decreasing; [apply Rpower_positive | ].
    apply Rlt_Rpower_l; [lra | ].
    rewrite Hprev, !plus_IZR, minus_IZR. lra.
Qed.

Lemma coefficients_decrease_witness :
  exists a_k c_k a_prev c_prev,
    _get_spsa_coefficients Demo.tuner 1 = Py.Ok (a_k, c_k) /\
    _get_spsa_coefficients Demo.tuner (1 - 1) = Py.Ok (a_prev, c_prev) /\
    a_k = 1 / Rpower (10 + INR 1 + 1) 0.602 /\
    c_k = 1 / Rpower (INR 1 + 1) 0.101 /\
    0 < a_k < a_prev /\
    0 < c_k < c_prev.
Proof.
  apply (coefficients_decrease Demo.tuner 1). lia.
Defined.

(** ** Reading the engine's output *)

Lemma scan_eval_unmarked (line : string) (rest : list string) :
  unmarked line -> scan_eval (line :: rest) = scan_eval rest.
Proof. intros [Hcp Hmate]. cbn [scan_eval]. rewrite Hcp, Hmate. reflexivity. Qed.

Lemma scan_eval_skips (later : list string) (rest : list string) :
  Forall unmarked later -> scan_eval (later ++ rest) = scan_eval rest.
Proof.
  intros H. induction H as [| l later Hl _ IH]; cbn [app].
  - reflexivity.
  - rewrite (scan_eval_unmarked l _ Hl). exact IH.
Qed.

Lemma token_after_parts (key line tok : string) :
  token_after key line = Some tok ->
  exists before after rest toks,
    Py.split key line = before :: after :: rest /\ Py.split_ws after = tok :: toks.
Proof.
  unfold token_after.
  destruct (Py.split key line) as [| before [| after rest]]; try discriminate.
  destruct (Py.split_ws after) as [| tok' toks] eqn:Hws; try discriminate.
  intros [= <-]. exists before, after, rest, toks. auto.
Qed.

Lemma int_of_str_parsed (tok : string) (n : Z) :
  Py.parse_int tok = Some n -> Py.int_of_str tok = Py.Ok n.
Proof. intros H. unfold Py.int_of_str. rewrite H. reflexivity. Qed.

Lemma scan_eval_cp (line : string) (rest : list string) (score : Z) :
  cp_line line score -> scan_eval (line :: rest) = Py.Ok score.
Proof.
  intros (Hcp & tok & Htok & Hint).
  destruct (token_after_parts _ _ _ Htok) as (before & after & more & toks & Hsplit & Hws).
  cbn [scan_eval]. rewrite Hcp, Hsplit. cbn [length Nat.ltb Nat.leb Py.getitem nth_error Py.bind].
  rewrite Hws. cbn [Py.getitem nth_error Py.bind]. rewrite (int_of_str_parsed _ _ Hint). reflexivity.
Qed.

Lemma scan_eval_mate (line : string) (rest : list string) (mate : Z) :
  mate_line line mate -> scan_eval (line :: rest) = Py.Ok (mate_value mate).
Proof.
  intros (Hcp & Hmate & tok & Htok & Hint).
  destruct (token_after_parts _ _ _ Htok) as (before & after & more & toks & Hsplit & Hws).
  cbn [scan_eval]. rewrite Hcp, Hmate, Hsplit.
  cbn [length Nat.ltb Nat.leb Py.getitem nth_error Py.bind].
  rewrite Hws. cbn [Py.getitem nth_error Py.bind]. rewrite (int_of_str_parsed _ _ Hint). reflexivity.
Qed.

(** What [scan_eval] does on one line that has a given marker, as a function
    of what follows the marker. *)
Lemma scan_marked_cases (key line : string) (value_of : Z -> Z) (fallback : Py.result Z) :
  let attempt :=
    let parts := Py.split key line in
    if (1 <? length parts)%nat then
      p1 <- Py.getitem parts 1 ;;
      tok <- Py.getitem (Py.split_ws p1) 0 ;;
      n <- Py.int_of_str tok ;;
      Py.Ok (value_of n)
    else fallback in
  attempt = fallback \/
  (exists e, attempt = Py.Raise e) \/
  (exists tok n, token_after key line = Some tok /\ Py.parse_int tok = Some n /\
                 attempt = Py.Ok (value_of n)).
Proof.
  cbv zeta. unfold token_after.
  destruct (Py.split key line) as [| before [| after rest]]; cbn [length Nat.ltb Nat.leb];
    auto.
  cbn [Py.getitem nth_error Py.bind].
  destruct (Py.split_ws after) as [| tok toks]; cbn [Py.getitem nth_error Py.bind].
  - right. left. eauto.
  - unfold Py.int_of_str. destruct (Py.parse_int tok) as [n | ] eqn:Hint; cbn [Py.bind].
    + right. right. exists tok, n. auto.
    + right. left. eauto.
Qed.

Lemma scan_eval_scoreless (lines : list string) :
  Forall scoreless lines ->
  scan_eval lines = Py.Ok 0%Z \/ exists e, scan_eval lines = Py.Raise e.
Proof.
  intros H. induction H as [| line lines Hline _ IH]; cbn [scan_eval].
  - left. reflexivity.
  - destruct (Py.contains "score cp" line) eqn:Hcp.
    + pose proof (scan_marked_cases "score cp " line (fun n => n) (scan_eval lines)) as Hc.
      cbv beta zeta in Hc.
      destruct Hc as [-> | [(e & ->) | (tok & n & Htok & Hint & _)]]; eauto.
      exfalso. apply (proj1 (Hline n)). split; eauto.
    + destruct (Py.contains "score mate" line) eqn:Hmate; [ | exact IH].
      pose proof (scan_marked_cases "score mate " line mate_value (scan_eval lines)) as Hc.
      cbv beta zeta in Hc.
      destruct Hc as [-> | [(e & ->) | (tok & n & Htok & Hint & _)]]; eauto.
      exfalso. apply (proj2 (Hline n)). split; [ | split]; eauto.
Qed.

Lemma get_eval_read (self : SPSATuner.t) (env : Env) (params : dict R) (fen : string)
    (elapsed : R) (stdout : string) (n : Z) :
  engine env params fen = Py.Exits elapsed stdout ->
  elapsed <= 15 ->
  scan_eval (rev (Py.split Py.LF stdout)) = Py.Ok n ->
  get_eval self env params fen = n.
Proof.
  intros Hproc Htime Hscan. unfold get_eval.
  rewrite Hproc, (subprocess_run_in_time _ _ _ Htime). cbn [Py.bind].
  rewrite Hscan. reflexivity.
Qed.

Lemma get_eval_failed (self : SPSATuner.t) (env : Env) (params : dict R) (fen : string) :
  query_fails (engine env params fen) -> get_eval self env params fen = 0%Z.
Proof.
  unfold get_eval. intros [Hlate | [Hnone | (elapsed & stdout & Hproc & Hout)]].
  - rewrite (exceeds_raises _ _ Hlate). reflexivity.
  - rewrite Hnone. reflexivity.
  - rewrite Hproc. cbn [Py.subprocess_run].
    destruct (Rle_dec elapsed 15); [ | reflexivity]. cbn [Py.bind].
    destruct Hout as [Hnone | (e & ->)]; [ | reflexivity].
    apply Forall_rev in Hnone.
    destruct (scan_eval_scoreless _ Hnone) as [-> | (e & ->)]; reflexivity.
Qed.

Lemma logistic_zero : logistic 0 = 0.5.
Proof.
  unfold logistic. replace (- 0 / 100) with 0 by lra.
  rewrite Rpower_O by lra. lra.
Qed.

Lemma sum_of_diffs_zero (self : SPSATuner.t) (env : Env) (pp pm : dict R)
    (positions : list string) :
  (forall fen, In fen positions -> position_diff self env pp pm fen = 0%Z) ->
  sum_of_diffs self env pp pm positions = 0.
Proof.
  induction positions as [| fen positions IH]; intros H; cbn [sum_of_diffs fold_right].
  - reflexivity.
  - rewrite (H fen (or_introl eq_refl)).
    fold (sum_of_diffs self env pp pm positions).
    rewrite IH by (intros f Hf; apply H; right; exact Hf). lra.
Qed.


(** ** The evaluation-based estimator (C4) *)

Lemma leans_plus_config : Demo.leans_plus Demo.plus_config = true.
Proof. cbn. destruct (Rlt_dec 100 101); [reflexivity | lra]. Qed.

Lemma leans_minus_config : Demo.leans_plus Demo.minus_config = false.
Proof. cbn. destruct (Rlt_dec 100 99); [lra | reflexivity]. Qed.

Lemma answering_plus (above below : Py.process) (fen : string) :
  engine (Demo.answering above below) Demo.plus_config fen = above.
Proof. cbn [engine Demo.answering]. rewrite leans_plus_config. reflexivity. Qed.

Lemma answering_minus (above below : Py.process) (fen : string) :
  engine (Demo.answering above below) Demo.minus_config fen = below.
Proof. cbn [engine Demo.answering]. rewrite leans_minus_config. reflexivity. Qed.

Lemma get_eval_mate (self : SPSATuner.t) (env : Env) (params : dict R) (fen : string)
    (elapsed : R) (stdout line : string) (mate : Z) :
  engine env params fen = Py.Exits elapsed stdout ->
  elapsed <= 15 ->
  last_marked_line stdout line ->
  mate_line line mate ->
  get_eval self env params fen = mate_value mate.
Proof.
  intros Hproc Htime (later & earlier & Hrev & Hlater) Hmate.
  apply (get_eval_read self env params fen elapsed stdout _ Hproc Htime).
  rewrite Hrev, (scan_eval_skips later _ Hlater). apply scan_eval_mate. exact Hmate.
Qed.

(** C4. [_run_games_simple] adds up, over the sampled positions, the
    evaluation under the plus configuration minus the evaluation under the
    minus configuration, divides by the number of positions (by [1] when
    there is none) and returns [score_plus = 1 / (1 + 10 ** (-avg_diff / 100))]
    and [score_minus = 1 - score_plus]: the two scores sum to [1], and
    [avg_diff = 0] gives exactly [(0.5, 0.5)]. A distance to mate counts as
    [10000] when it is positive and as [-10000] otherwise, that is, as its
    sign times [10000] when it is not [0]. *)
Theorem evaluation_estimator_scores
    (self : SPSATuner.t) (env : Env) (pp pm : dict R) :
  (forall fen,
     position_diff self env pp pm fen
     = (get_eval self env pp fen - get_eval self env pm fen)%Z) /\
  (let positions := sampled_positions self env in
   let avg_diff :=
     sum_of_diffs self env pp pm positions
     / IZR (Z.max 1 (Z.of_nat (length positions))) in
   exists score_plus score_minus,
     _run_games_simple self env pp pm = Py.Ok (score_plus, score_minus) /\
     score_plus = 1 / (1 + Rpower 10 (- avg_diff / 100)) /\
     score_minus = 1 - score_plus /\
     score_plus + score_minus = 1 /\
     (avg_diff = 0 -> score_plus = 0.5 /\ score_minus = 0.5)) /\
  (forall params fen elapsed stdout line mate,
     engine env params fen = Py.Exits elapsed stdout ->
     elapsed <= 15 ->
     last_marked_line stdout line ->
     mate_line line mate ->
     get_eval self env params fen = (if (0 <? mate)%Z then 10000 else -10000)%Z /\
     (mate <> 0%Z -> get_eval self env params fen = (Z.sgn mate * 10000)%Z)).
Proof.
  split; [ | split].
  - reflexivity.
  - cbv zeta.
    eexists _, _. split; [apply run_games_simple_value | ].
    split; [reflexivity | ]. split; [reflexivity | ]. split; [lra | ].
    intros ->. rewrite logistic_zero. split; lra.
  - intros params fen elapsed stdout line mate Hproc Htime Hlast Hmate.
    rewrite (get_eval_mate self env params fen elapsed stdout line mate Hproc Htime Hlast Hmate).
    unfold mate_value. split; [reflexivity | ].
    intros Hne. destruct (0 <? mate)%Z eqn:Hpos.
    + apply Z.ltb_lt in Hpos. rewrite Z.sgn_pos by exact Hpos. reflexivity.
    + apply Z.ltb_ge in Hpos. rewrite Z.sgn_neg by lia. reflexivity.
Qed.

Lemma mate_output_line :
  last_marked_line Demo.mate_output "info depth 4 score mate 2 nodes 100" /\
  mate_line "info depth 4 score mate 2 nodes 100" 2.
Proof.
  split.
  - exists [""; "bestmove d1h5"]%string, ["info depth 3 score cp 900 nodes 40"%string].
    split; [vm_compute; reflexivity | ].
    repeat constructor.
  - split; [vm_compute; reflexivity | ]. split; [vm_compute; reflexivity | ].
    exists "2"%string. split; vm_compute; reflexivity.
Qed.

Lemma silent_diffs (pp pm : dict R) (positions : list string) :
  sum_of_diffs Demo.tuner Demo.silent pp pm positions = 0.
Proof. apply sum_of_diffs_zero. intros fen _. reflexivity. Qed.

Lemma evaluation_estimator_scores_witness :
  _run_games_simple Demo.tuner Demo.silent [] [] = Py.Ok (0.5, 0.5) /\
  get_eval Demo.tuner (Demo.answering (Py.Exits 1 Demo.mate_output) Py.CannotStart)
    Demo.plus_config "8/8/8/8/8/8/8/8 w - - 0 1" = 10000%Z.
Proof.
  split.
  - destruct (evaluation_estimator_scores Demo.tuner Demo.silent [] [])
      as (_ & (sp & sm & Hrun & _ & _ & _ & Hzero) & _).
    rewrite Hrun. destruct Hzero as [-> ->]; [ | reflexivity].
    rewrite silent_diffs. unfold Rdiv. apply Rmult_0_l.
  - destruct (evaluation_estimator_scores Demo.tuner
                (Demo.answering (Py.Exits 1 Demo.mate_output) Py.CannotStart) [] [])
      as (_ & _ & Hmate).
    destruct (Hmate Demo.plus_config "8/8/8/8/8/8/8/8 w - - 0 1"%string 1 Demo.mate_output
                "info depth 4 score mate 2 nodes 100"%string 2%Z) as (_ & Hsign).
    + apply answering_plus.
    + lra.
    + apply mate_output_line.
    + apply mate_output_line.
    + apply Hsign. discriminate.
Defined.


(** ** Failed queries of the engine (C9) *)

Lemma cp_output_line :
  rev (Py.split Py.LF Demo.cp_output)
  = [""; "bestmove e2e4"]%string
    ++ "info depth 4 score cp 35 nodes 100"%string
    :: ["info depth 3 score cp 12 nodes 40"%string] /\
  cp_line "info depth 4 score cp 35 nodes 100" 35.
Proof.
  split; [vm_compute; reflexivity | ].
  split; [vm_compute; reflexivity | ].
  exists "35"%string. split; vm_compute; reflexivity.
Qed.

Lemma cp_output_scan : scan_eval (rev (Py.split Py.LF Demo.cp_output)) = Py.Ok 35%Z.
Proof.
  destruct cp_output_line as [-> Hline].
  rewrite scan_eval_skips by (repeat constructor).
  apply scan_eval_cp. exact Hline.
Qed.

Lemma cp_output_answers : ~ query_fails (Py.Exits 1 Demo.cp_output).
Proof.
  intros [[Hhangs | (elapsed & stdout & Heq & Hlate)]
         | [Hnone | (elapsed & stdout & Heq & [Hscoreless | (e & Hraise)])]].
  - discriminate Hhangs.
  - injection Heq as <- _. lra.
  - discriminate Hnone.
  - injection Heq as _ <-. apply Forall_rev in Hscoreless.
    destruct cp_output_line as [Hrev Hline]. rewrite Hrev in Hscoreless.
    apply Forall_app in Hscoreless. destruct Hscoreless as [_ Hrest].
    apply Forall_inv in Hrest. exact (proj1 (Hrest 35%Z) Hline).
  - injection Heq as _ <-. rewrite cp_output_scan in Hraise. discriminate Hraise.
Qed.

(** C9 as stated fails when it is the minus side that fails: the position
    then adds the evaluation of the plus side as it is, here [35], not its
    negation. *)
Lemma minus_failure_keeps_sign : ~ one_sided_failure_negates.
Proof.
  intros H.
  destruct (H Demo.tuner (Demo.answering (Py.Exits 1 Demo.cp_output) Py.CannotStart)
              Demo.plus_config Demo.minus_config "8/8/8/8/8/8/8/8 w - - 0 1"%string)
    as [_ Hminus].
  rewrite answering_plus, answering_minus in Hminus.
  specialize (Hminus (or_intror (or_introl eq_refl)) cp_output_answers).
  unfold position_diff in Hminus.
  rewrite (get_eval_read _ _ Demo.plus_config _ 1 Demo.cp_output 35) in Hminus;
    [ | apply answering_plus | lra | exact cp_output_scan].
  rewrite (get_eval_failed _ _ Demo.minus_config) in Hminus;
    [ | rewrite answering_minus; right; left; reflexivity].
  discriminate Hminus.
Qed.

(** C9, amended. A query of the engine that times out, cannot be started,
    raises while its output is read or gives no line with a score to read
    counts as an evaluation of [0], and its position counts in the average
    all the same; when only the plus side fails, the position adds the
    negation of the evaluation of the minus side, when only the minus side
    fails, it adds the evaluation of the plus side as it is; when every query
    fails, [_run_games_simple] returns exactly [(0.5, 0.5)]. *)
Theorem failed_queries_count_as_zero
    (self : SPSATuner.t) (env : Env) (pp pm : dict R) :
  (forall params fen,
     query_fails (engine env params fen) -> get_eval self env params fen = 0%Z) /\
  snd (eval_loop self env pp pm (sampled_positions self env))
  = Z.of_nat (length (sampled_positions self env)) /\
  (forall fen,
     query_fails (engine env pp fen) ->
     position_diff self env pp pm fen = (- get_eval self env pm fen)%Z) /\
  (forall fen,
     query_fails (engine env pm fen) ->
     position_diff self env pp pm fen = get_eval self env pp fen) /\
  ((forall fen, In fen (sampled_positions self env) ->
      query_fails (engine env pp fen) /\ query_fails (engine env pm fen)) ->
   _run_games_simple self env pp pm = Py.Ok (0.5, 0.5)).
Proof.
  split; [ | split; [ | split; [ | split]]].
  - intros params fen. apply get_eval_failed.
  - rewrite eval_loop_value. reflexivity.
  - intros fen Hplus. unfold position_diff.
    rewrite (get_eval_failed self env pp fen Hplus). lia.
  - intros fen Hminus. unfold position_diff.
    rewrite (get_eval_failed self env pm fen Hminus). lia.
  - intros Hall. rewrite run_games_simple_value.
    rewrite sum_of_diffs_zero.
    + unfold Rdiv. rewrite Rmult_0_l, logistic_zero. f_equal. f_equal. lra.
    + intros fen Hfen. destruct (Hall fen Hfen) as [Hplus Hminus].
      unfold position_diff.
      rewrite (get_eval_failed self env pp fen Hplus),
        (get_eval_failed self env pm fen Hminus). reflexivity.
Qed.

Lemma failed_queries_count_as_zero_witness :
  get_eval Demo.tuner Demo.silent [] "8/8/8/8/8/8/8/8 w - - 0 1" = 0%Z /\
  position_diff Demo.tuner (Demo.answering Py.Hangs (Py.Exits 1 Demo.cp_output))
    Demo.plus_config Demo.minus_config "8/8/8/8/8/8/8/8 w - - 0 1" = (-35)%Z /\
  position_diff Demo.tuner (Demo.answering (Py.Exits 1 Demo.cp_output) Py.Hangs)
    Demo.plus_config Demo.minus_config "8/8/8/8/8/8/8/8 w - - 0 1" = 35%Z /\
  _run_games_simple Demo.tuner Demo.silent Demo.plus_config Demo.minus_config
  = Py.Ok (0.5, 0.5).
Proof.
  split; [ | split; [ | split]].
  - destruct (failed_queries_count_as_zero Demo.tuner Demo.silent [] []) as (Hzero & _).
    apply Hzero. right. left. reflexivity.
  - destruct (failed_queries_count_as_zero Demo.tuner
                (Demo.answering Py.Hangs (Py.Exits 1 Demo.cp_output))
                Demo.plus_config Demo.minus_config) as (_ & _ & Hplus & _).
    rewrite Hplus.
    + rewrite (get_eval_read _ _ Demo.minus_config _ 1 Demo.cp_output 35);
        [reflexivity | apply answering_minus | lra | exact cp_output_scan].
    + rewrite answering_plus. left. left. reflexivity.
  - destruct (failed_queries_count_as_zero Demo.tuner
                (Demo.answering (Py.Exits 1 Demo.cp_output) Py.Hangs)
                Demo.plus_config Demo.minus_config) as (_ & _ & _ & Hminus & _).
    rewrite Hminus.
    + apply (get_eval_read _ _ Demo.plus_config _ 1 Demo.cp_output 35);
        [apply answering_plus | lra | exact cp_output_scan].
    + rewrite answering_minus. left. left. reflexivity.
  - destruct (failed_queries_count_as_zero Demo.tuner Demo.silent
                Demo.plus_config Demo.minus_config) as (_ & _ & _ & _ & Hall).
    apply Hall. intros fen _. split; right; left; reflexivity.
Defined.


(** ** The saved [initial_params] (C6) *)

Lemma int_of_float_IZR (z : Z) : Py.int_of_float (IZR z) = z.
Proof.
  unfold Py.int_of_float. destruct (Rle_dec 0 (IZR z)) as [Hpos | Hneg].
  - symmetry. apply Int_part_spec. lra.
  - rewrite <- opp_IZR. rewrite <- (Int_part_spec (IZR (- z)) (- z)%Z) by lra. lia.
Qed.

Ltac lookup :=
  cbv [save_results Output.initial_params Demo.tuner Demo.custom SPSATuner.__init__
       current_params dict_comp DEFAULT_PARAMS fold_left dict_set dict_get
       name value min_val max_val new4 TunableParam.new __post_init__
       String.eqb Ascii.eqb Bool.eqb].

(** C6. [save_results] does not write the values the session started from:
    whatever tuner it is called on, [initial_params] lists the parameters of
    [DEFAULT_PARAMS] with the midpoint of their bounds. For the default
    tuner, [RookSemiOpenFileBonusMG] starts at [11] and is saved as [15]; for
    a tuner of the single parameter [FutilityMargin], started at [120], the
    saved [initial_params] has no [FutilityMargin] at all and gives
    [PawnValueMG] as [100]. *)
Theorem initial_params_are_default_midpoints :
  (forall self,
     Output.initial_params (save_results self)
     = dict_comp name
         (fun p => Py.int_of_float (min_val p + (max_val p - min_val p) / 2))
         DEFAULT_PARAMS) /\
  dict_get (current_params Demo.tuner) "RookSemiOpenFileBonusMG" = Some 11 /\
  dict_get (Output.initial_params (save_results Demo.tuner)) "RookSemiOpenFileBonusMG"
  = Some 15%Z /\
  dict_get (current_params Demo.custom) "FutilityMargin" = Some 120 /\
  dict_get (Output.initial_params (save_results Demo.custom)) "FutilityMargin" = None /\
  dict_get (Output.initial_params (save_results Demo.custom)) "PawnValueMG" = Some 100%Z.
Proof.
  split; [reflexivity | ].
  split; [lookup; reflexivity | ].
  split.
  { lookup. replace (0 + (30 - 0) / 2) with (IZR 15) by lra.
    rewrite int_of_float_IZR. reflexivity. }
  split; [lookup; reflexivity | ].
  split; [lookup; reflexivity | ].
  lookup. replace (70 + (130 - 70) / 2) with (IZR 100) by lra.
  rewrite int_of_float_IZR. reflexivity.
Qed.


(** ** The perft harness (C10) *)

Lemma prefix_same_head (a : ascii) (s1 s2 : string) :
  prefix (String a s1) (String a s2) = prefix s1 s2.
Proof. cbn. destruct (ascii_dec a a); [reflexivity | contradiction]. Qed.

Lemma prefix_empty (s : string) : prefix "" s = true.
Proof. destruct s; reflexivity. Qed.

Lemma split_ws_head_prefix (s h : string) (t : list string) :
  Py.split_ws s = h :: t ->
  (forall a s', s = String a s' -> Py.is_space a = false) ->
  prefix h s = true.
Proof.
  revert h t. induction s as [| a s' IH]; intros h t; [discriminate | ].
  intros Hsplit Hstart. cbn [Py.split_ws] in Hsplit.
  rewrite (Hstart a s' eq_refl) in Hsplit.
  destruct s' as [| b s''].
  - injection Hsplit as <- _. rewrite prefix_same_head. reflexivity.
  - destruct (Py.is_space b) eqn:Hb.
    + injection Hsplit as <- _. rewrite prefix_same_head. apply prefix_empty.
    + destruct (Py.split_ws (String b s'')) as [| h' t'] eqn:Hrest;
        cbn [Py.cons_head] in Hsplit; injection Hsplit as <- _;
        rewrite prefix_same_head.
      * apply prefix_empty.
      * apply (IH h' t' eq_refl). intros a' s1 [= -> _]. exact Hb.
Qed.

Lemma contains_prefix (sub s : string) : prefix sub s = true -> Py.contains sub s = true.
Proof. intros H. destruct s; cbn [Py.contains]; rewrite H; reflexivity. Qed.

Lemma contains_later (sub : string) (a : ascii) (s : string) :
  Py.contains sub s = true -> Py.contains sub (String a s) = true.
Proof. intros H. cbn [Py.contains]. rewrite H. apply orb_true_r. Qed.

Lemma tokens_contained (s tok : string) :
  In tok (Py.split_ws s) -> Py.contains tok s = true.
Proof.
  induction s as [| a s' IH]; [intros [] | ].
  cbn [Py.split_ws]. destruct (Py.is_space a) eqn:Ha.
  - intros H. apply contains_later, IH, H.
  - destruct s' as [| b s''].
    + intros [<- | []]. apply contains_prefix. rewrite prefix_same_head. reflexivity.
    + destruct (Py.is_space b) eqn:Hb.
      * intros [<- | H].
        -- apply contains_prefix. rewrite prefix_same_head. apply prefix_empty.
        -- apply contains_later, IH, H.
      * destruct (Py.split_ws (String b s'')) as [| h' t'] eqn:Hrest; cbn [Py.cons_head].
        -- intros [<- | []]. apply contains_prefix. rewrite prefix_same_head.
           apply prefix_empty.
        -- intros [<- | H].
           ++ apply contains_prefix. rewrite prefix_same_head.
              apply (split_ws_head_prefix _ h' t' Hrest).
              intros a' s1 [= -> _]. exact Hb.
           ++ apply contains_later, IH. right. exact H.
Qed.

(** The inner loop, from the index [s] on. *)
Lemma nodes_in_parts_found (parts : list string) (i : nat) (tok : string) :
  nth_error parts i = Some "Nodes:"%string ->
  nth_error parts (S i) = Some tok ->
  (forall j tok', (j < i)%nat ->
     ~ (nth_error parts j = Some "Nodes:"%string /\ nth_error parts (S j) = Some tok')) ->
  forall suffix s,
    (forall j, nth_error suffix j = nth_error parts (s + j)) ->
    (s <= i)%nat ->
    PerftTest.nodes_in_parts parts (combine (seq s (length suffix)) suffix)
    = Some (Py.int_of_str tok).
Proof.
  intros Hi Htok Hfirst. induction suffix as [| x suffix IH]; intros s Hsuffix Hs.
  - exfalso. specialize (Hsuffix (i - s)%nat).
    replace (s + (i - s))%nat with i in Hsuffix by lia.
    rewrite Hi in Hsuffix. destruct (i - s)%nat; discriminate Hsuffix.
  - cbn [length seq combine PerftTest.nodes_in_parts].
    pose proof (Hsuffix 0%nat) as Hx. cbn [nth_error] in Hx. rewrite Nat.add_0_r in Hx.
    destruct (Nat.eq_dec s i) as [-> | Hne].
    + rewrite Hi in Hx. injection Hx as ->. rewrite String.eqb_refl.
      assert (Hlen : (i + 1 < length parts)%nat).
      { rewrite Nat.add_1_r. apply nth_error_Some. rewrite Htok. discriminate. }
      apply Nat.ltb_lt in Hlen. rewrite Hlen. cbn [andb].
      unfold Py.getitem. rewrite Nat.add_1_r, Htok. reflexivity.
    + assert (Hx' : String.eqb x "Nodes:" && (s + 1 <? length parts)%nat = false).
      { apply andb_false_iff.
        destruct (String.eqb x "Nodes:") eqn:Heq; [right | left; reflexivity].
        apply String.eqb_eq in Heq. subst x.
        apply Nat.ltb_ge. rewrite Nat.add_1_r. apply nth_error_None.
        destruct (nth_error parts (S s)) as [tok' | ] eqn:Hnext; [ | reflexivity].
        exfalso. apply (Hfirst s tok'); [lia | ]. split; [symmetry; exact Hx | exact Hnext]. }
      rewrite Hx'. apply IH; [ | lia].
      intros j. specialize (Hsuffix (S j)). cbn [nth_error] in Hsuffix.
      rewrite Hsuffix. f_equal. lia.
Qed.

Lemma nodes_in_parts_no_count (parts : list string) :
  (forall i tok n,
     nth_error parts i = Some "Nodes:"%string ->
     nth_error parts (S i) = Some tok -> Py.parse_int tok <> Some n) ->
  forall suffix s,
    (forall j, nth_error suffix j = nth_error parts (s + j)) ->
    PerftTest.nodes_in_parts parts (combine (seq s (length suffix)) suffix) = None \/
    exists e,
      PerftTest.nodes_in_parts parts (combine (seq s (length suffix)) suffix)
      = Some (Py.Raise e).
Proof.
  intros Hnone. induction suffix as [| x suffix IH]; intros s Hsuffix.
  - left. reflexivity.
  - cbn [length seq combine PerftTest.nodes_in_parts].
    pose proof (Hsuffix 0%nat) as Hx. cbn [nth_error] in Hx. rewrite Nat.add_0_r in Hx.
    destruct (String.eqb x "Nodes:") eqn:Heq; cbn [andb].
    + destruct (s + 1 <? length parts)%nat eqn:Hlen.
      * right. apply String.eqb_eq in Heq. subst x.
        unfold Py.getitem. rewrite Nat.add_1_r.
        destruct (nth_error parts (S s)) as [tok | ] eqn:Htok; cbn [Py.bind]; [ | eauto].
        unfold Py.int_of_str. destruct (Py.parse_int tok) as [n | ] eqn:Hint; [ | eauto].
        exfalso. exact (Hnone s tok n (eq_sym Hx) Htok Hint).
      * apply IH. intros j. specialize (Hsuffix (S j)). cbn [nth_error] in Hsuffix.
        rewrite Hsuffix. f_equal. lia.
    + apply IH. intros j. specialize (Hsuffix (S j)). cbn [nth_error] in Hsuffix.
      rewrite Hsuffix. f_equal. lia.
Qed.

Lemma scan_nodes_without_count (lines : list string) :
  Forall (fun line => ~ has_nodes_count line) lines ->
  PerftTest.scan_nodes lines = Py.Ok (-1)%Z \/ exists e, PerftTest.scan_nodes lines = Py.Raise e.
Proof.
  intros H. induction H as [| line lines Hline _ IH]; cbn [PerftTest.scan_nodes].
  - left. reflexivity.
  - destruct (Py.contains "Nodes:" line); [ | exact IH].
    destruct (nodes_in_parts_no_count (Py.split_ws line)) with
      (suffix := Py.split_ws line) (s := 0%nat) as [Hnone | (e & Hraise)].
    + intros i tok n Hi Htok Hint. apply Hline. exists i, tok, n.
      split; [split; assumption | exact Hint].
    + intros j. reflexivity.
    + unfold enumerate. rewrite Hnone. exact IH.
    + unfold enumerate. rewrite Hraise. eauto.
Qed.

Lemma nodes_in_parts_no_token (parts : list string) :
  (forall i tok,
     ~ (nth_error parts i = Some "Nodes:"%string /\ nth_error parts (S i) = Some tok)) ->
  forall suffix s,
    (forall j, nth_error suffix j = nth_error parts (s + j)) ->
    PerftTest.nodes_in_parts parts (combine (seq s (length suffix)) suffix) = None.
Proof.
  intros Hnone. induction suffix as [| x suffix IH]; intros s Hsuffix.
  - reflexivity.
  - cbn [length seq combine PerftTest.nodes_in_parts].
    pose proof (Hsuffix 0%nat) as Hx. cbn [nth_error] in Hx. rewrite Nat.add_0_r in Hx.
    assert (Hx' : String.eqb x "Nodes:" && (s + 1 <? length parts)%nat = false).
    { apply andb_false_iff.
      destruct (String.eqb x "Nodes:") eqn:Heq; [right | left; reflexivity].
      apply String.eqb_eq in Heq. subst x.
      apply Nat.ltb_ge. rewrite Nat.add_1_r. apply nth_error_None.
      destruct (nth_error parts (S s)) as [tok | ] eqn:Hnext; [ | reflexivity].
      exfalso. apply (Hnone s tok). split; [symmetry; exact Hx | exact Hnext]. }
    rewrite Hx'. apply IH.
    intros j. specialize (Hsuffix (S j)). cbn [nth_error] in Hsuffix.
    rewrite Hsuffix. f_equal. lia.
Qed.

Lemma scan_nodes_without_token (before rest : list string) :
  Forall no_nodes_token before ->
  PerftTest.scan_nodes (before ++ rest) = PerftTest.scan_nodes rest.
Proof.
  intros H. induction H as [| line before Hline _ IH]; cbn [app PerftTest.scan_nodes].
  - reflexivity.
  - destruct (Py.contains "Nodes:" line); [ | exact IH].
    unfold enumerate.
    rewrite (nodes_in_parts_no_token _ Hline _ 0%nat) by (intros; reflexivity).
    exact IH.
Qed.

Lemma scan_nodes_first (before after : list string) (line tok : string) (i : nat) :
  Forall no_nodes_token before ->
  nodes_token_at line i tok ->
  (forall j tok', (j < i)%nat -> ~ nodes_token_at line j tok') ->
  PerftTest.scan_nodes (before ++ line :: after) = Py.int_of_str tok.
Proof.
  intros Hbefore [Hi Htok] Hfirst.
  rewrite (scan_nodes_without_token before _ Hbefore). cbn [PerftTest.scan_nodes].
  rewrite (tokens_contained line "Nodes:" (nth_error_In _ _ Hi)).
  unfold enumerate.
  rewrite (nodes_in_parts_found (Py.split_ws line) i tok Hi Htok Hfirst _ 0%nat)
    by (intros; reflexivity || lia).
  reflexivity.
Qed.

Lemma unfollowed_below_sound (parts : list string) (i j : nat) (tok : string) :
  unfollowed_below parts i = true -> (j < i)%nat ->
  ~ (nth_error parts j = Some "Nodes:"%string /\ nth_error parts (S j) = Some tok).
Proof.
  unfold unfollowed_below. rewrite forallb_forall. intros Hall Hj [Hpart Hnext].
  assert (Hin : In j (seq 0 i)) by (apply in_seq; lia).
  specialize (Hall j Hin). unfold followed_at in Hall.
  rewrite Hpart, Hnext in Hall. discriminate Hall.
Qed.

Lemma no_nodes_token_checked (line : string) :
  unfollowed_below (Py.split_ws line) (length (Py.split_ws line)) = true ->
  no_nodes_token line.
Proof.
  intros Hall i tok [Hpart Hnext].
  apply (unfollowed_below_sound _ _ i tok Hall); [ | split; assumption].
  apply nth_error_Some. rewrite Hpart. discriminate.
Qed.

Lemma first_nodes_token_found (stdout : string) (before : list string) (line : string)
    (after : list string) (i : nat) (tok : string) :
  Py.split Py.LF stdout = before ++ line :: after ->
  forallb (fun l => unfollowed_below (Py.split_ws l) (length (Py.split_ws l))) before
  = true ->
  nth_error (Py.split_ws line) i = Some "Nodes:"%string ->
  nth_error (Py.split_ws line) (S i) = Some tok ->
  unfollowed_below (Py.split_ws line) i = true ->
  first_nodes_token stdout tok.
Proof.
  intros Hsplit Hbefore Hpart Hnext Hfirst.
  exists before, line, after, i. split; [exact Hsplit | ]. split; [ | split].
  - apply Forall_forall. intros l Hl. apply no_nodes_token_checked.
    rewrite forallb_forall in Hbefore. exact (Hbefore l Hl).
  - split; assumption.
  - intros j tok' Hj. exact (unfollowed_below_sound _ _ j tok' Hfirst Hj).
Qed.

(** C10. [run_perft] always returns an integer, every exception of its body
    being caught: [-1] when the engine does not end within 300 seconds, when
    it cannot be started, and when no line of its output has a token
    [Nodes:] followed by an integer. Otherwise what follows the first token
    [Nodes:] that does not end its line decides: [run_perft] returns it when
    it is an integer, and [-1] when it is not. *)
Theorem run_perft_results
    (engine : string -> Py.process) (fen : string) (depth : Z) (divide : bool) :
  let child := engine (PerftTest.commands fen depth divide) in
  (exceeds 300 child -> PerftTest.run_perft engine fen depth divide = (-1)%Z) /\
  (child = Py.CannotStart -> PerftTest.run_perft engine fen depth divide = (-1)%Z) /\
  (forall elapsed stdout,
     child = Py.Exits elapsed stdout ->
     elapsed <= 300 ->
     (Forall (fun line => ~ has_nodes_count line) (Py.split Py.LF stdout) ->
      PerftTest.run_perft engine fen depth divide = (-1)%Z) /\
     (forall tok,
        first_nodes_token stdout tok ->
        (forall n, Py.parse_int tok = Some n ->
           PerftTest.run_perft engine fen depth divide = n) /\
        (Py.parse_int tok = None ->
           PerftTest.run_perft engine fen depth divide = (-1)%Z))).
Proof.
  cbv zeta. unfold PerftTest.run_perft. split; [ | split].
  - intros Hlate. rewrite (exceeds_raises _ _ Hlate). reflexivity.
  - intros ->. reflexivity.
  - intros elapsed stdout -> Htime. rewrite (subprocess_run_in_time _ _ _ Htime).
    cbn [Py.bind]. split.
    + intros Hnone. destruct (scan_nodes_without_count _ Hnone) as [-> | (e & ->)];
        reflexivity.
    + intros tok (before & line & after & i & Hsplit & Hbefore & Hat & Hfirst).
      rewrite Hsplit, (scan_nodes_first before after line tok i Hbefore Hat Hfirst).
      unfold Py.int_of_str. split.
      * intros n ->. reflexivity.
      * intros ->. reflexivity.
Qed.

Lemma run_perft_results_witness :
  PerftTest.run_perft (fun _ => Py.Hangs) Demo.startpos 1 false = (-1)%Z /\
  PerftTest.run_perft (fun _ => Py.CannotStart) Demo.startpos 1 false = (-1)%Z /\
  PerftTest.run_perft Demo.ignorant Demo.startpos 1 false = (-1)%Z /\
  PerftTest.run_perft Demo.counting Demo.startpos 1 false = 20%Z /\
  PerftTest.run_perft Demo.failing Demo.startpos 1 false = (-1)%Z.
Proof.
  split; [ | split; [ | split; [ | split]]].
  - destruct (run_perft_results (fun _ => Py.Hangs) Demo.startpos 1 false) as (Hlate & _).
    apply Hlate. left. reflexivity.
  - destruct (run_perft_results (fun _ => Py.CannotStart) Demo.startpos 1 false)
      as (_ & Hnone & _).
    apply Hnone. reflexivity.
  - destruct (run_perft_results Demo.ignorant Demo.startpos 1 false) as (_ & _ & Hread).
    destruct (Hread 1 ("Unknown command: perft" ++ Py.LF)%string eq_refl) as (Hminus & _).
    + lra.
    + apply Hminus.
      change (Py.split Py.LF ("Unknown command: perft" ++ Py.LF)%string)
        with ["Unknown command: perft"; ""]%string.
      repeat constructor; intros (i & tok & n & [Hi _] & _);
        vm_compute in Hi; repeat (destruct i as [| i]; try discriminate Hi).
  - destruct (run_perft_results Demo.counting Demo.startpos 1 false) as (_ & _ & Hread).
    destruct (Hread 2 ("Depth: 1" ++ Py.LF ++ "Time: 0 ms  Nodes: 20" ++ Py.LF)%string eq_refl)
      as (_ & Hcount).
    + lra.
    + destruct (Hcount "20"%string) as (Hsome & _).
      * apply (first_nodes_token_found _ ["Depth: 1"%string] "Time: 0 ms  Nodes: 20"
                 [""%string] 3); reflexivity.
      * apply Hsome. reflexivity.
  - destruct (run_perft_results Demo.failing Demo.startpos 1 false) as (_ & _ & Hread).
    destruct (Hread 2 ("Nodes: n/a" ++ Py.LF ++ "Nodes: 20" ++ Py.LF)%string eq_refl)
      as (_ & Hcount).
    + lra.
    + destruct (Hcount "n/a"%string) as (_ & Hnone).
      * apply (first_nodes_token_found _ [] "Nodes: n/a" ["Nodes: 20"; ""]%string 0);
          reflexivity.
      * apply Hnone. reflexivity.
Defined.


(** * Further properties *)

(** ** [TunableParam] *)

Lemma clamp_cases (p : TunableParam.t) (v : R) :
  (max_val p < min_val p /\ clamp p v = min_val p) \/
  (min_val p <= max_val p /\ v < min_val p /\ clamp p v = min_val p) \/
  (min_val p <= v <= max_val p /\ clamp p v = v) \/
  (min_val p <= max_val p /\ max_val p < v /\ clamp p v = max_val p).
Proof.
  unfold clamp.
  destruct (min_cases (max_val p) v) as [[H1 E1] | [H1 E1]];
    destruct (max_cases (min_val p) (Py.min (max_val p) v)) as [[H2 E2] | [H2 E2]];
    rewrite E1 in *; rewrite E2.
  - right. right. left. split; [lra | reflexivity].
  - destruct (Rlt_dec (max_val p) (min_val p)); [left; split; [lra | reflexivity] | ].
    destruct (Rlt_dec v (min_val p)).
    + right. left. split; [lra | ]. split; [lra | reflexivity].
    + right. right. left. split; lra.
  - destruct (Rlt_dec (max_val p) v).
    + right. right. right. split; [lra | ]. split; [lra | reflexivity].
    + right. right. left. split; lra.
  - destruct (Rlt_dec (max_val p) (min_val p)); [left; split; [lra | reflexivity] | ].
    destruct (Rlt_dec (max_val p) v).
    + right. right. right. split; [lra | ]. split; lra.
    + right. right. left. split; lra.
Qed.

(** X1. [clamp] is idempotent and monotone, whatever the bounds. *)
Theorem clamp_idempotent_monotone (p : TunableParam.t) (v w : R) :
  clamp p (clamp p v) = clamp p v /\ (v <= w -> clamp p v <= clamp p w).
Proof.
  split.
  - destruct (clamp_cases p (clamp p v)) as [[H E] | [(H & H' & E) | [[H E] | (H & H' & E)]]];
      rewrite E;
      destruct (clamp_cases p v) as [[G F] | [(G & G' & F) | [[G F] | (G & G' & F)]]];
      rewrite ?F in *; lra.
  - intros Hvw.
    destruct (clamp_cases p v) as [[H E] | [(H & H' & E) | [[H E] | (H & H' & E)]]];
      rewrite E;
      destruct (clamp_cases p w) as [[G F] | [(G & G' & F) | [[G F] | (G & G' & F)]]];
      rewrite F; lra.
Qed.

Lemma clamp_idempotent_monotone_witness :
  clamp (TunableParam.new4 "PawnValueMG" 100 70 130) 90
  <= clamp (TunableParam.new4 "PawnValueMG" 100 70 130) 150.
Proof.
  apply (proj2 (clamp_idempotent_monotone (TunableParam.new4 "PawnValueMG" 100 70 130) 90 150)).
  lra.
Defined.

(** X2. With bounds in the wrong order ([max_val < min_val]), [clamp] sends
    every value to [min_val], so an iteration leaves such a parameter at its
    [min_val], above its [max_val]. *)
Theorem inverted_bounds_collapse :
  (forall p v, max_val p < min_val p -> clamp p v = min_val p) /\
  (forall self use_simple_games env r self',
     iterate self use_simple_games env = Py.Ok (r, self') ->
     forall p', In p' (params self') -> max_val p' < min_val p' ->
       value p' = min_val p').
Proof.
  assert (Hclamp : forall p v, max_val p < min_val p -> clamp p v = min_val p).
  { intros p v Hinv.
    destruct (clamp_cases p v) as [[H E] | [(H & H' & E) | [[H E] | (H & H' & E)]]];
      rewrite E; lra. }
  split; [exact Hclamp | ].
  intros self use_simple_games env r self' Hit p' Hin Hinv.
  destruct (iterate_inversion _ _ _ _ _ Hit)
    as (a_k & c_k & pp & pm & sp & sm & _ & _ & _ & _ & _ & _ & Heq).
  injection Heq as _ ->. cbn [params] in Hin. unfold new_params in Hin.
  apply in_map_iff in Hin. destruct Hin as ([i p] & <- & _).
  unfold updated in *. cbn [fst snd value min_val max_val set_value] in *.
  apply Hclamp. exact Hinv.
Qed.

Lemma inverted_bounds_collapse_witness :
  clamp Demo.odd 5 = 10 /\
  exists r self',
    iterate Demo.odd_tuner false Demo.silent = Py.Ok (r, self') /\
    map value (params self') = [10].
Proof.
  destruct inverted_bounds_collapse as [Hclamp Hiter].
  assert (Hinv : max_val Demo.odd < min_val Demo.odd) by (cbn; lra).
  split; [exact (Hclamp Demo.odd 5 Hinv) | ].
  assert (Hscaled : Forall scaled (params Demo.odd_tuner))
    by (repeat constructor; apply new_scaled).
  destruct (iterate_returns Demo.odd_tuner false Demo.silent Hscaled)
    as (a_k & c_k & pp & pm & sp & sm & _ & _ & _ & _ & _ & Hit).
  exists (fst (after_iteration Demo.odd_tuner Demo.silent a_k c_k sp sm)),
         (snd (after_iteration Demo.odd_tuner Demo.silent a_k c_k sp sm)).
  split; [rewrite Hit; reflexivity | ].
  cbn [after_iteration snd params Demo.odd_tuner SPSATuner.__init__ new_params enumerate
       length seq combine map fst].
  f_equal.
  apply (Hiter Demo.odd_tuner false Demo.silent _ _ Hit).
  - cbn [after_iteration snd params Demo.odd_tuner SPSATuner.__init__ new_params enumerate
         length seq combine map]. left. reflexivity.
  - exact Hinv.
Defined.

(** X3. [__post_init__] leaves neither scale at zero. A perturbation scale
    left to default is the larger of [1] and 2% of the range, a step scale
    left to default is a tenth of the perturbation scale, a scale that was
    given is kept, and nothing else changes: running [__post_init__] again
    changes nothing. *)
Theorem post_init_scales (p : TunableParam.t) :
  let q := __post_init__ p in
  c_end q <> 0 /\ a_end q <> 0 /\
  (c_end p = 0 ->
   1 <= c_end q /\ (max_val p - min_val p) * 0.02 <= c_end q /\
   (c_end q = 1 \/ c_end q = (max_val p - min_val p) * 0.02)) /\
  (a_end p = 0 -> a_end q = c_end q * 0.1) /\
  (c_end p <> 0 -> c_end q = c_end p) /\
  (a_end p <> 0 -> a_end q = a_end p) /\
  name q = name p /\ value q = value p /\ min_val q = min_val p /\ max_val q = max_val p /\
  __post_init__ q = q.
Proof.
  cbv zeta.
  assert (Hc : c_end (__post_init__ p) <> 0) by apply post_init_scaled.
  assert (Ha : a_end (__post_init__ p) <> 0).
  { revert Hc. unfold __post_init__. cbn [c_end a_end].
    destruct (Req_EM_T (a_end p) 0); [ | auto]. intros Hc. lra. }
  split; [exact Hc | ]. split; [exact Ha | ].
  split; [ | split; [ | split; [ | split; [ | split; [ | split; [ | split; [ | split]]]]]]];
    try reflexivity.
  - intros E. unfold __post_init__. cbn [c_end].
    destruct (Req_EM_T (c_end p) 0); [ | contradiction].
    destruct (max_cases 1 ((max_val p - min_val p) * 0.02)) as [[H E'] | [H E']];
      rewrite E'; lra.
  - intros E. unfold __post_init__. cbn [c_end a_end].
    destruct (Req_EM_T (a_end p) 0); [reflexivity | contradiction].
  - intros N. unfold __post_init__. cbn [c_end].
    destruct (Req_EM_T (c_end p) 0); [contradiction | reflexivity].
  - intros N. unfold __post_init__. cbn [a_end].
    destruct (Req_EM_T (a_end p) 0); [contradiction | reflexivity].
  - revert Hc Ha. generalize (__post_init__ p). intros q Hc Ha.
    unfold __post_init__.
    destruct (Req_EM_T (c_end q) 0); [contradiction | ].
    destruct (Req_EM_T (a_end q) 0); [contradiction | ].
    destruct q; reflexivity.
Qed.

Lemma post_init_scales_witness :
  c_end (TunableParam.new4 "QueenValueMG" 950 850 1050) = 4 /\
  a_end (TunableParam.new4 "QueenValueMG" 950 850 1050) = 0.4 /\
  c_end (TunableParam.new "Margin" 10 0 20 3 0) = 3.
Proof.
  pose proof (post_init_scales (TunableParam.mk "QueenValueMG" 950 850 1050 0 0))
    as (_ & _ & Hc & Ha & _).
  pose proof (post_init_scales (TunableParam.mk "Margin" 10 0 20 3 0))
    as (_ & _ & _ & _ & Hkept & _).
  destruct (Hc eq_refl) as (H1 & H2 & H3). specialize (Ha eq_refl).
  cbn [min_val max_val] in *.
  assert (E : c_end (TunableParam.new4 "QueenValueMG" 950 850 1050) = 4).
  { unfold new4, TunableParam.new. destruct H3 as [H3 | H3]; lra. }
  split; [exact E | ]. split.
  - unfold new4, TunableParam.new in *. rewrite Ha, E. lra.
  - unfold TunableParam.new. apply Hkept. cbn. lra.
Defined.


(** ** Dictionaries built from lists without repeated keys *)

Lemma dict_set_fresh {V : Type} (d : dict V) (key : string) (v : V) :
  ~ In key (map fst d) -> dict_set d key v = d ++ [(key, v)].
Proof.
  induction d as [| [k w] d IH]; intros Hfresh; cbn.
  - reflexivity.
  - destruct (String.eqb k key) eqn:E.
    + apply String.eqb_eq in E. exfalso. apply Hfresh. left. exact E.
    + rewrite IH; [reflexivity | ]. intros H. apply Hfresh. right. exact H.
Qed.

Lemma dict_fold_fresh {A V : Type} (key : A -> string) (val : A -> V) (xs : list A) :
  forall d,
    NoDup (map fst d ++ map key xs) ->
    fold_left (fun d x => dict_set d (key x) (val x)) xs d
    = d ++ map (fun x => (key x, val x)) xs.
Proof.
  induction xs as [| x xs IH]; intros d Hnodup; cbn [fold_left map].
  - rewrite app_nil_r. reflexivity.
  - rewrite dict_set_fresh.
    + rewrite IH.
      * rewrite <- app_assoc. reflexivity.
      * rewrite map_app. cbn [map fst]. rewrite <- app_assoc. exact Hnodup.
    + cbn [map] in Hnodup. apply NoDup_remove_2 in Hnodup.
      intros H. apply Hnodup. apply in_or_app. left. exact H.
Qed.

Lemma dict_comp_distinct {A V : Type} (key : A -> string) (val : A -> V) (xs : list A) :
  NoDup (map key xs) -> dict_comp key val xs = map (fun x => (key x, val x)) xs.
Proof.
  intros Hnodup. unfold dict_comp. rewrite dict_fold_fresh; [reflexivity | exact Hnodup].
Qed.

Lemma dict_get_distinct {A V : Type} (key : A -> string) (val : A -> V) (xs : list A)
    (x : A) :
  NoDup (map key xs) -> In x xs ->
  dict_get (map (fun x => (key x, val x)) xs) (key x) = Some (val x).
Proof.
  induction xs as [| y xs IH]; intros Hnodup Hin; [destruct Hin | ].
  cbn [map dict_get]. inversion Hnodup as [| k ks Hfresh Hrest]; subst.
  destruct Hin as [-> | Hin].
  - rewrite String.eqb_refl. reflexivity.
  - destruct (String.eqb (key y) (key x)) eqn:E.
    + apply String.eqb_eq in E. exfalso. apply Hfresh. rewrite E.
      apply in_map. exact Hin.
    + apply IH; assumption.
Qed.

Lemma nth_error_combine_seq {A : Type} (xs : list A) :
  forall start i,
    nth_error (combine (seq start (length xs)) xs) i
    = option_map (pair (start + i)%nat) (nth_error xs i).
Proof.
  induction xs as [| x xs IH]; intros start i.
  - destruct i; reflexivity.
  - destruct i as [| i]; cbn [length seq combine nth_error option_map].
    + rewrite Nat.add_0_r. reflexivity.
    + rewrite IH. rewrite Nat.add_succ_r. reflexivity.
Qed.

Lemma nth_error_enumerate {A : Type} (xs : list A) (i : nat) :
  nth_error (enumerate xs) i = option_map (pair i) (nth_error xs i).
Proof. unfold enumerate. rewrite nth_error_combine_seq. reflexivity. Qed.

Lemma enumerate_nth {A : Type} (xs : list A) (i : nat) (x : A) :
  nth_error xs i = Some x -> In (i, x) (enumerate xs).
Proof.
  intros H. apply (nth_error_In _ i). rewrite nth_error_enumerate, H. reflexivity.
Qed.

Lemma new_params_nth (a_k c_k sp sm : R) (env : Env) (ps : list TunableParam.t) (i : nat) :
  nth_error (new_params a_k c_k sp sm env ps) i
  = option_map (fun p => updated a_k c_k sp sm p (delta_at env i)) (nth_error ps i).
Proof.
  unfold new_params. rewrite nth_error_map, nth_error_enumerate.
  destruct (nth_error ps i); reflexivity.
Qed.

Lemma new_params_map {B : Type} (f : TunableParam.t -> B) (a_k c_k sp sm : R) (env : Env)
    (ps : list TunableParam.t) :
  (forall p v, f (set_value p v) = f p) ->
  map f (new_params a_k c_k sp sm env ps) = map f ps.
Proof.
  intros Hf. unfold new_params. rewrite map_map.
  rewrite <- (enumerate_snd ps) at 2. rewrite map_map.
  apply map_ext. intros [i p]. unfold updated. cbn [fst snd]. apply Hf.
Qed.

(** ** What an iteration touches *)

(** X4. [_generate_perturbation] draws one sign per parameter, each [1] or
    [-1]: none is [0], so the test [delta[i] != 0] of [iterate] never skips a
    parameter. *)
Theorem perturbation_signs (self : SPSATuner.t) (env : Env) :
  length (_generate_perturbation self env) = length (params self) /\
  Forall (fun d => d = 1%Z \/ d = (-1)%Z) (_generate_perturbation self env) /\
  ~ In 0%Z (_generate_perturbation self env).
Proof.
  unfold _generate_perturbation. split; [ | split].
  - rewrite length_map, length_seq. reflexivity.
  - apply Forall_forall. intros d Hd. apply in_map_iff in Hd.
    destruct Hd as (i & <- & _). apply (delta_at_cases env i).
  - intros H. apply in_map_iff in H. destruct H as (i & Hi & _).
    destruct (delta_at_cases env i) as [E | E]; unfold delta_at in E; lia.
Qed.

(** X5. An iteration that returns changes the values of the parameters and
    nothing else of them: names, bounds and scales stay, in the same order;
    the settings of the tuner stay; the counter goes up by one and the record
    returned, which mirrors the new state, is appended to [history]. *)
Theorem iterate_changes_values_only
    (self : SPSATuner.t) (use_simple_games : bool) (env : Env)
    (r : IterationRecord.t) (self' : SPSATuner.t) :
  iterate self use_simple_games env = Py.Ok (r, self') ->
  map name (params self') = map name (params self) /\
  map min_val (params self') = map min_val (params self) /\
  map max_val (params self') = map max_val (params self) /\
  map c_end (params self') = map c_end (params self) /\
  map a_end (params self') = map a_end (params self) /\
  games_per_iter self' = games_per_iter self /\
  positions_per_iter self' = positions_per_iter self /\
  search_depth self' = search_depth self /\
  test_positions self' = test_positions self /\
  iteration self' = S (iteration self) /\
  history self' = history self ++ [r] /\
  IterationRecord.iteration r = iteration self' /\
  IterationRecord.params r = current_params self' /\
  IterationRecord.best_score r = best_score self' /\
  IterationRecord.best_iteration r = best_iteration self'.
Proof.
  intros Hit.
  destruct (iterate_inversion _ _ _ _ _ Hit)
    as (a_k & c_k & pp & pm & sp & sm & _ & _ & _ & _ & _ & _ & Heq).
  injection Heq as -> ->. cbn [params games_per_iter positions_per_iter search_depth
    test_positions iteration history IterationRecord.iteration IterationRecord.params
    IterationRecord.best_score IterationRecord.best_iteration current_params best_score
    best_iteration].
  repeat split; apply new_params_map; reflexivity.
Qed.

Lemma iterate_changes_values_only_witness :
  exists r self',
    iterate Demo.tuner true Demo.silent = Py.Ok (r, self') /\
    map name (params self') = map name DEFAULT_PARAMS /\
    iteration self' = 1%nat /\ history self' = [r].
Proof.
  destruct (iterate_returns Demo.tuner true Demo.silent default_params_scaled)
    as (a_k & c_k & pp & pm & sp & sm & _ & _ & _ & _ & _ & Hit).
  destruct (after_iteration Demo.tuner Demo.silent a_k c_k sp sm) as [r self'].
  exists r, self'. split; [exact Hit | ].
  destruct (iterate_changes_values_only _ _ _ _ _ Hit)
    as (Hn & _ & _ & _ & _ & _ & _ & _ & _ & Hi & Hh & _).
  auto.
Defined.


(** ** The range of the scores *)



Lemma run_games_cases (self : SPSATuner.t) (env : Env) (pp pm : dict R) :
  _run_games self env pp pm = (0.5, 0.5) \/
  exists elapsed stdout w l d,
    cutechess env pp pm = Py.Exits elapsed stdout /\ elapsed <= 3600 /\
    scan_score (Py.split Py.LF stdout) = Py.Ok (w, l, d) /\
    (w + l + d <> 0)%Z /\
    _run_games self env pp pm
    = ((IZR w + IZR d * 0.5) / IZR (w + l + d), (IZR l + IZR d * 0.5) / IZR (w + l + d)).
Proof.
  destruct (cutechess env pp pm) as [elapsed stdout | | ] eqn:Hproc.
  - destruct (Rle_dec elapsed 3600) as [Htime | Hlate].
    + destruct (scan_score (Py.split Py.LF stdout)) as [[[w l] d] | e] eqn:Hscan.
      * destruct (Z.eq_dec (w + l + d) 0) as [Hzero | Hne].
        -- left. exact (run_games_zero_total self env pp pm _ _ w l d Hproc Htime Hscan Hzero).
        -- right. exists elapsed, stdout, w, l, d. repeat split; auto.
           exact (run_games_counts self env pp pm _ _ w l d Hproc Htime Hscan Hne).
      * left. apply (run_games_unparseable self env pp pm stdout e); [ | exact Hscan].
        rewrite Hproc. apply subprocess_run_in_time. exact Htime.
    + left. apply (run_games_raise self env pp pm Py.TimeoutExpired).
      rewrite Hproc. apply subprocess_run_late. lra.
  - left. apply (run_games_raise self env pp pm Py.TimeoutExpired). rewrite Hproc. reflexivity.
  - left. apply (run_games_raise self env pp pm Py.OSError). rewrite Hproc. reflexivity.
Qed.

(** X6. Whatever the match runner does or prints, the two scores of
    [_run_games] sum to [1]; they both lie in [[0, 1]] unless a count read
    from the score line is negative. *)
Theorem match_scores_range (self : SPSATuner.t) (env : Env) (pp pm : dict R) :
  fst (_run_games self env pp pm) + snd (_run_games self env pp pm) = 1 /\
  ((forall elapsed stdout w l d,
      cutechess env pp pm = Py.Exits elapsed stdout ->
      scan_score (Py.split Py.LF stdout) = Py.Ok (w, l, d) ->
      (0 <= w /\ 0 <= l /\ 0 <= d)%Z) ->
   0 <= fst (_run_games self env pp pm) <= 1 /\
   0 <= snd (_run_games self env pp pm) <= 1).
Proof.
  destruct (run_games_cases self env pp pm)
    as [-> | (elapsed & stdout & w & l & d & Hproc & _ & Hscan & Hne & ->)];
    cbn [fst snd].
  - split; [lra | intros _; lra].
  - split; [apply scores_sum_to_one; exact Hne | ].
    intros Hcounts. destruct (Hcounts _ _ _ _ _ Hproc Hscan) as (Hw & Hl & Hd).
    assert (Htotal : 0 < IZR (w + l + d)) by (apply IZR_lt; lia).
    apply IZR_le in Hw, Hl, Hd.
    assert (Hsum : IZR (w + l + d) = IZR w + IZR l + IZR d) by (rewrite !plus_IZR; reflexivity).
    split; split.
    + apply Rmult_le_reg_r with (IZR (w + l + d)); [exact Htotal | ].
      unfold Rdiv. rewrite Rmult_assoc, Rinv_l by lra. lra.
    + apply Rmult_le_reg_r with (IZR (w + l + d)); [exact Htotal | ].
      unfold Rdiv. rewrite Rmult_assoc, Rinv_l by lra. lra.
    + apply Rmult_le_reg_r with (IZR (w + l + d)); [exact Htotal | ].
      unfold Rdiv. rewrite Rmult_assoc, Rinv_l by lra. lra.
    + apply Rmult_le_reg_r with (IZR (w + l + d)); [exact Htotal | ].
      unfold Rdiv. rewrite Rmult_assoc, Rinv_l by lra. lra.
Qed.

Lemma match_scores_range_witness :
  0 <= fst (_run_games Demo.tuner (Demo.scoring 60 5 3 2) [] []) <= 1 /\
  0 <= snd (_run_games Demo.tuner (Demo.scoring 60 5 3 2) [] []) <= 1.
Proof.
  apply (proj2 (match_scores_range Demo.tuner (Demo.scoring 60 5 3 2) [] [])).
  intros elapsed stdout w l d [= <- <-] Hscan.
  vm_compute in Hscan. injection Hscan as <- <- <-. lia.
Defined.

(** A score line with a negative count gives scores outside [[0, 1]]. *)
Example negative_count_score :
  parse_score_line "Score of Plus vs Minus: 3 - -1 - 0" = Py.Ok (3, -1, 0)%Z.
Proof. vm_compute. reflexivity. Qed.






(** ** The candidates and the update *)

Lemma perturb_loop_distinct (self : SPSATuner.t) (env : Env) (c_k : R)
    (ps : list (nat * TunableParam.t)) :
  forall plus minus,
    (forall i p, In (i, p) ps -> (i < length (params self))%nat) ->
    map fst plus = map fst minus ->
    NoDup (map fst plus ++ map (fun ip => name (snd ip)) ps) ->
    perturb_loop c_k (_generate_perturbation self env) ps plus minus
    = Py.Ok
        (plus ++ map (fun ip => (name (snd ip),
                                 clamp (snd ip)
                                   (value (snd ip)
                                    + c_k * c_end (snd ip) * IZR (delta_at env (fst ip))))) ps,
         minus ++ map (fun ip => (name (snd ip),
                                  clamp (snd ip)
                                    (value (snd ip)
                                     - c_k * c_end (snd ip) * IZR (delta_at env (fst ip))))) ps).
Proof.
  induction ps as [| [i p] ps IH]; intros plus minus Hidx Hkeys Hnodup;
    cbn [perturb_loop map].
  - rewrite !app_nil_r. reflexivity.
  - rewrite (delta_getitem self env i) by (apply (Hidx i p); left; reflexivity).
    cbn [Py.bind fst snd].
    assert (Hfresh : ~ In (name p) (map fst plus)).
    { cbn [map snd] in Hnodup. apply NoDup_remove_2 in Hnodup.
      intros H. apply Hnodup. apply in_or_app. left. exact H. }
    rewrite (dict_set_fresh plus) by exact Hfresh.
    rewrite (dict_set_fresh minus) by (rewrite <- Hkeys; exact Hfresh).
    rewrite IH.
    + rewrite <- !app_assoc. reflexivity.
    + intros j q Hq. apply (Hidx j q). right. exact Hq.
    + rewrite !map_app, Hkeys. reflexivity.
    + rewrite map_app. cbn [map fst snd] in *. rewrite <- app_assoc. exact Hnodup.
Qed.

(** X8. When no two parameters share a name, the two configurations of an
    iteration list the parameters in their order, and looking a parameter up
    by its name gives [clamp(value + c_k * c_end * delta)] in the plus
    configuration and [clamp(value - c_k * c_end * delta)] in the minus
    one. *)
Theorem candidates_by_name (self : SPSATuner.t) (env : Env) :
  NoDup (map name (params self)) ->
  exists a_k c_k pp pm,
    _get_spsa_coefficients self (S (iteration self)) = Py.Ok (a_k, c_k) /\
    candidates self env = Py.Ok (pp, pm) /\
    map fst pp = map name (params self) /\
    map fst pm = map name (params self) /\
    forall i p d,
      nth_error (params self) i = Some p ->
      Py.getitem (_generate_perturbation self env) i = Py.Ok d ->
      dict_get pp (name p) = Some (clamp p (value p + c_k * c_end p * IZR d)) /\
      dict_get pm (name p) = Some (clamp p (value p - c_k * c_end p * IZR d)).
Proof.
  intros Hnodup.
  assert (Hkeys : map (fun ip : nat * TunableParam.t => name (snd ip))
                    (enumerate (params self)) = map name (params self)).
  { rewrite <- (map_map snd name), enumerate_snd. reflexivity. }
  eexists _, _, _, _. split; [apply coefficients_value | ].
  split.
  { unfold candidates. rewrite coefficients_value. cbn [Py.bind].
    apply perturb_loop_distinct.
    - intros i p Hip. exact (enumerate_index _ i p Hip).
    - reflexivity.
    - cbn [map app]. rewrite Hkeys. exact Hnodup. }
  cbn [app]. rewrite !map_map. cbn [fst].
  split; [exact Hkeys | ]. split; [exact Hkeys | ].
  intros i p d Hp Hd. apply delta_getitem_inv in Hd. subst d.
  pose proof (enumerate_nth _ _ _ Hp) as Hin.
  rewrite <- Hkeys in Hnodup.
  split.
  - exact (dict_get_distinct (fun ip => name (snd ip)) _ _ (i, p) Hnodup Hin).
  - exact (dict_get_distinct (fun ip => name (snd ip)) _ _ (i, p) Hnodup Hin).
Qed.

Lemma default_names_distinct : NoDup (map name DEFAULT_PARAMS).
Proof.
  apply (NoDup_map_inv (fun s => s)). rewrite map_id.
  cbv [DEFAULT_PARAMS map name new4 TunableParam.new __post_init__].
  repeat (constructor; [cbv [In]; intuition discriminate | ]). constructor.
Qed.

Lemma candidates_by_name_witness :
  exists pp pm,
    candidates Demo.tuner Demo.silent = Py.Ok (pp, pm) /\
    map fst pp = map name DEFAULT_PARAMS.
Proof.
  destruct (candidates_by_name Demo.tuner Demo.silent default_names_distinct)
    as (a_k & c_k & pp & pm & _ & Hcand & Hkeys & _).
  exists pp, pm. split; [exact Hcand | exact Hkeys].
Defined.


Lemma new4_scales (nm : string) (v lo hi : R) :
  1 <= c_end (new4 nm v lo hi) /\
  a_end (new4 nm v lo hi) = c_end (new4 nm v lo hi) * 0.1.
Proof.
  unfold new4, TunableParam.new, __post_init__. cbn [c_end a_end min_val max_val].
  destruct (Req_EM_T 0 0) as [_ | N]; [ | contradiction].
  split; [ | reflexivity].
  destruct (max_cases 1 ((hi - lo) * 0.02)) as [[H E] | [H E]]; rewrite E; lra.
Qed.

Lemma iterate_param (self : SPSATuner.t) (use_simple_games : bool) (env : Env)
    (r : IterationRecord.t) (self' : SPSATuner.t) :
  iterate self use_simple_games env = Py.Ok (r, self') ->
  exists a_k c_k,
    _get_spsa_coefficients self (S (iteration self)) = Py.Ok (a_k, c_k) /\
    0 < a_k /\ 0 < c_k /\
    forall i p p' d,
      nth_error (params self) i = Some p ->
      nth_error (params self') i = Some p' ->
      Py.getitem (_generate_perturbation self env) i = Py.Ok d ->
      (d = 1 \/ d = -1)%Z /\ c_end p <> 0 /\
      p' = updated a_k c_k (IterationRecord.score_plus r) (IterationRecord.score_minus r) p d.
Proof.
  intros Hit.
  destruct (iterate_inversion _ _ _ _ _ Hit)
    as (a_k & c_k & pp & pm & sp & sm & Hco & Ha & Hc & _ & _ & Hupd & Heq).
  exists a_k, c_k. split; [exact Hco | ]. split; [exact Ha | ]. split; [exact Hc | ].
  intros i p p' d Hp Hp' Hd.
  pose proof (delta_getitem_inv _ _ _ _ Hd) as ->.
  split; [apply delta_at_cases | ].
  destruct (update_loop_gradients _ _ _ _ _ _ _ _ Hupd i p (enumerate_nth _ _ _ Hp))
    as (_ & g & Hg).
  split.
  - intros Hzero. unfold gradient_of, Py.div in Hg. rewrite Hzero in Hg.
    destruct (Req_EM_T (2 * c_k * 0 * IZR (delta_at env i)) 0) as [_ | N];
      [discriminate Hg | apply N; ring].
  - injection Heq as -> ->. cbn [params IterationRecord.score_plus
      IterationRecord.score_minus] in *.
    rewrite new_params_nth, Hp in Hp'. cbn [option_map] in Hp'.
    injection Hp' as <-. reflexivity.
Qed.

Lemma clamp_moves_less (p : TunableParam.t) (step : R) :
  in_bounds p ->
  (0 <= step -> value p <= clamp p (value p + step) <= value p + step) /\
  (step <= 0 -> value p + step <= clamp p (value p + step) <= value p).
Proof.
  intros [Hlo Hhi].
  destruct (clamp_cases p (value p + step))
    as [[H E] | [(H & H' & E) | [[H E] | (H & H' & E)]]]; rewrite E; split; intros Hs; lra.
Qed.

Lemma step_value (a_k c_k sp sm : R) (p : TunableParam.t) (d : Z) :
  c_k <> 0 -> c_end p <> 0 -> (d = 1 \/ d = -1)%Z ->
  a_k * a_end p * ((sp - sm) / (2 * c_k * c_end p * IZR d))
  = a_k * a_end p * (sp - sm) * IZR d / (2 * c_k * c_end p).
Proof.
  intros Hc Hp [-> | ->]; field; auto.
Qed.

(** X9. An iteration never moves a parameter away from the configuration
    that scored better: for a parameter within its bounds whose two scales
    are positive, the value does not go down when the sign drawn for it and
    [score_plus - score_minus] agree, and does not go up when they
    disagree. *)
Theorem update_follows_better_side
    (self : SPSATuner.t) (use_simple_games : bool) (env : Env)
    (r : IterationRecord.t) (self' : SPSATuner.t) (i : nat) (p p' : TunableParam.t) (d : Z) :
  iterate self use_simple_games env = Py.Ok (r, self') ->
  nth_error (params self) i = Some p ->
  nth_error (params self') i = Some p' ->
  Py.getitem (_generate_perturbation self env) i = Py.Ok d ->
  in_bounds p -> 0 < c_end p -> 0 < a_end p ->
  let diff := IterationRecord.score_plus r - IterationRecord.score_minus r in
  (0 <= IZR d * diff -> value p <= value p') /\
  (IZR d * diff <= 0 -> value p' <= value p).
Proof.
  intros Hit Hp Hp' Hd Hin Hc Ha diff.
  destruct (iterate_param _ _ _ _ _ Hit) as (a_k & c_k & _ & Hak & Hck & Hparam).
  destruct (Hparam i p p' d Hp Hp' Hd) as (Hsign & Hne & ->).
  unfold updated. cbn [value set_value].
  rewrite (step_value a_k c_k _ _ p d) by (auto; lra).
  fold diff.
  assert (Hscale : 0 < a_k * a_end p / (2 * c_k * c_end p)).
  { apply Rdiv_pos_pos; [ | repeat apply Rmult_lt_0_compat; lra].
    apply Rmult_lt_0_compat; assumption. }
  replace (a_k * a_end p * diff * IZR d / (2 * c_k * c_end p))
    with (a_k * a_end p / (2 * c_k * c_end p) * (IZR d * diff))
    by (field; split; lra).
  destruct (clamp_moves_less p (a_k * a_end p / (2 * c_k * c_end p) * (IZR d * diff)) Hin)
    as [Hup Hdown].
  split; intros Hdir.
  - apply Hup. apply Rmult_le_pos; lra.
  - apply Hdown. rewrite <- (Rmult_0_r (a_k * a_end p / (2 * c_k * c_end p))).
    apply Rmult_le_compat_l; lra.
Qed.

Lemma four_matches_iteration (self : SPSATuner.t) (i : nat) :
  Forall scaled (params self) ->
  exists a_k c_k,
    iterate self false (Demo.four_matches i)
    = Py.Ok (after_iteration self (Demo.four_matches i) a_k c_k
               (fst (nth i [(0.52, 0.48); (0.61, 0.39); (0.58, 0.42)] (0.70, 0.30)))
               (snd (nth i [(0.52, 0.48); (0.61, 0.39); (0.58, 0.42)] (0.70, 0.30)))).
Proof.
  intros Hscaled.
  destruct (iterate_returns self false (Demo.four_matches i) Hscaled)
    as (a_k & c_k & pp & pm & sp & sm & _ & _ & _ & _ & Hest & Hit).
  unfold estimate in Hest. rewrite four_matches_scores in Hest.
  exists a_k, c_k. rewrite Hit.
  destruct (nth i [(0.52, 0.48); (0.61, 0.39); (0.58, 0.42)] (0.70, 0.30)) as [x y].
  injection Hest as <- <-. reflexivity.
Qed.

Lemma update_follows_better_side_witness :
  exists r self' p',
    iterate Demo.tuner false (Demo.four_matches 0) = Py.Ok (r, self') /\
    nth_error (params self') 0 = Some p' /\
    value p' <= 100.
Proof.
  destruct (four_matches_iteration Demo.tuner 0 default_params_scaled) as (a_k & c_k & Hit).
  cbn [nth fst snd] in Hit.
  set (after := after_iteration Demo.tuner (Demo.four_matches 0) a_k c_k 0.52 0.48) in *.
  exists (fst after), (snd after),
    (updated a_k c_k 0.52 0.48 (TunableParam.new4 "PawnValueMG" 100 70 130) (-1)).
  assert (Hit' : iterate Demo.tuner false (Demo.four_matches 0) = Py.Ok (fst after, snd after))
    by (rewrite Hit; destruct after; reflexivity).
  assert (Hnth : nth_error (params (snd after)) 0
                 = Some (updated a_k c_k 0.52 0.48
                           (TunableParam.new4 "PawnValueMG" 100 70 130) (-1)))
    by reflexivity.
  split; [exact Hit' | ]. split; [exact Hnth | ].
  apply (update_follows_better_side Demo.tuner false (Demo.four_matches 0)
           (fst after) (snd after) 0
           (TunableParam.new4 "PawnValueMG" 100 70 130) _ (-1)%Z Hit' eq_refl Hnth eq_refl).
  - unfold in_bounds, within. cbn. lra.
  - pose proof (new4_scales "PawnValueMG" 100 70 130) as [H1 _]. lra.
  - pose proof (new4_scales "PawnValueMG" 100 70 130) as [H1 H2]. lra.
  - cbn [after after_iteration fst IterationRecord.score_plus IterationRecord.score_minus].
    lra.
Defined.

Lemma coefficient_ratio (k : nat) :
  0 < 1 / Rpower (IZR (A + Z.of_nat k + 1)) alpha
      / (1 / Rpower (IZR (Z.of_nat k + 1)) gamma) < 1.
Proof.
  unfold A, alpha, gamma.
  set (x := IZR (Z.of_nat k + 1)). set (y := IZR (10 + Z.of_nat k + 1)).
  assert (Hx : 1 <= x) by (apply IZR_le; lia).
  assert (Hxy : x <= y) by (apply IZR_le; lia).
  pose proof (Rpower_positive x 0.101) as Hpx.
  pose proof (Rpower_positive y 0.602) as Hpy.
  assert (Hlt : Rpower x 0.101 < Rpower y 0.602).
  { apply Rle_lt_trans with (Rpower y 0.101).
    - apply Rle_Rpower_l; lra.
    - apply Rpower_lt; [ | lra]. unfold y. apply IZR_lt. lia. }
  replace (1 / Rpower y 0.602 / (1 / Rpower x 0.101))
    with (Rpower x 0.101 / Rpower y 0.602) by (field; split; lra).
  split.
  - apply Rdiv_pos_pos; assumption.
  - apply Rmult_lt_reg_r with (Rpower y 0.602); [exact Hpy | ].
    unfold Rdiv. rewrite Rmult_assoc, Rinv_l by lra. lra.
Qed.

(** X10. A parameter whose step scale is the default tenth of its
    perturbation scale moves by the same step whatever its range,
    [0.05 * (a_k / c_k) * (score_plus - score_minus) * delta] before
    clamping; when it is within its bounds and the scores differ by at most
    [1], one iteration changes its value by less than [0.05]. *)
Theorem default_steps_are_small
    (self : SPSATuner.t) (use_simple_games : bool) (env : Env)
    (r : IterationRecord.t) (self' : SPSATuner.t) :
  iterate self use_simple_games env = Py.Ok (r, self') ->
  exists a_k c_k,
    _get_spsa_coefficients self (S (iteration self)) = Py.Ok (a_k, c_k) /\
    forall i p p' d,
      nth_error (params self) i = Some p ->
      nth_error (params self') i = Some p' ->
      Py.getitem (_generate_perturbation self env) i = Py.Ok d ->
      a_end p = c_end p * 0.1 ->
      let diff := IterationRecord.score_plus r - IterationRecord.score_minus r in
      value p' = clamp p (value p + 0.05 * (a_k / c_k) * diff * IZR d) /\
      (in_bounds p -> Rabs diff <= 1 -> Rabs (value p' - value p) < 0.05).
Proof.
  intros Hit.
  destruct (iterate_param _ _ _ _ _ Hit) as (a_k & c_k & Hco & Hak & Hck & Hparam).
  exists a_k, c_k. split; [exact Hco | ].
  intros i p p' d Hp Hp' Hd Hdefault diff.
  destruct (Hparam i p p' d Hp Hp' Hd) as (Hsign & Hne & ->).
  unfold updated. cbn [value set_value].
  rewrite (step_value a_k c_k _ _ p d) by (auto; lra).
  fold diff. rewrite Hdefault.
  replace (a_k * (c_end p * 0.1) * diff * IZR d / (2 * c_k * c_end p))
    with (0.05 * (a_k / c_k) * diff * IZR d)
    by (replace 0.1 with (1 / 10) by lra; replace 0.05 with (1 / 20) by lra;
        field; split; lra).
  split; [reflexivity | ].
  intros Hin Hdiff.
  assert (Hratio : 0 < a_k / c_k < 1).
  { pose proof (coefficients_value self (S (iteration self))) as Hv. rewrite Hco in Hv.
    assert (Ea : a_k = 1 / Rpower (IZR (A + Z.of_nat (S (iteration self)) + 1)) alpha)
      by exact (f_equal (fun x => match x with Py.Ok (a, _) => a | Py.Raise _ => 0 end) Hv).
    assert (Ec : c_k = 1 / Rpower (IZR (Z.of_nat (S (iteration self)) + 1)) gamma)
      by exact (f_equal (fun x => match x with Py.Ok (_, c) => c | Py.Raise _ => 0 end) Hv).
    rewrite Ea, Ec. apply coefficient_ratio. }
  set (step := 0.05 * (a_k / c_k) * diff * IZR d).
  assert (Hstep : Rabs step < 0.05).
  { unfold step. rewrite !Rabs_mult.
    rewrite (Rabs_pos_eq 0.05) by lra. rewrite (Rabs_pos_eq (a_k / c_k)) by lra.
    assert (Hd1 : Rabs (IZR d) = 1)
      by (destruct Hsign as [-> | ->]; [apply Rabs_pos_eq; lra | rewrite Rabs_left; lra]).
    rewrite Hd1, Rmult_1_r.
    pose proof (Rabs_pos diff) as Hpos.
    destruct Hratio as [Hr0 Hr1].
    assert (Hprod : a_k / c_k * Rabs diff < 1).
    { destruct (Req_EM_T (Rabs diff) 0) as [-> | Hnz]; [lra | ].
      apply Rlt_le_trans with (1 * Rabs diff); [ | lra].
      apply Rmult_lt_compat_r; lra. }
    rewrite Rmult_assoc. lra. }
  destruct (clamp_moves_less p step Hin) as [Hup Hdown].
  apply Rabs_def2 in Hstep. apply Rabs_def1.
  - destruct (Rle_dec 0 step); [specialize (Hup ltac:(assumption)) | specialize (Hdown ltac:(lra))];
      lra.
  - destruct (Rle_dec 0 step); [specialize (Hup ltac:(assumption)) | specialize (Hdown ltac:(lra))];
      lra.
Qed.

Lemma default_steps_are_small_witness :
  exists r self' p',
    iterate Demo.tuner false (Demo.four_matches 0) = Py.Ok (r, self') /\
    nth_error (params self') 0 = Some p' /\
    Rabs (value p' - 100) < 0.05.
Proof.
  destruct (four_matches_iteration Demo.tuner 0 default_params_scaled) as (a_k & c_k & Hit).
  cbn [nth fst snd] in Hit.
  set (after := after_iteration Demo.tuner (Demo.four_matches 0) a_k c_k 0.52 0.48) in *.
  assert (Hit' : iterate Demo.tuner false (Demo.four_matches 0) = Py.Ok (fst after, snd after))
    by (rewrite Hit; destruct after; reflexivity).
  destruct (default_steps_are_small _ _ _ _ _ Hit') as (a & c & _ & Hstep).
  exists (fst after), (snd after),
    (updated a_k c_k 0.52 0.48 (TunableParam.new4 "PawnValueMG" 100 70 130) (-1)).
  split; [exact Hit' | ]. split; [reflexivity | ].
  destruct (Hstep 0%nat (TunableParam.new4 "PawnValueMG" 100 70 130)
              (updated a_k c_k 0.52 0.48 (TunableParam.new4 "PawnValueMG" 100 70 130) (-1))
              (-1)%Z eq_refl eq_refl eq_refl) as [_ Hsmall].
  - apply new4_scales.
  - apply Hsmall.
    + unfold in_bounds, within. cbn. lra.
    + cbn [after after_iteration fst IterationRecord.score_plus IterationRecord.score_minus].
      replace (0.52 - 0.48) with 0.04 by lra. rewrite Rabs_pos_eq; lra.
Defined.


(** ** The session as a whole *)

Lemma init_coherent (ps : list TunableParam.t) (games : Z) (n : nat) (depth : Z)
    (positions : list string) :
  coherent ps (SPSATuner.__init__ ps games n depth positions).
Proof.
  unfold coherent. cbn [SPSATuner.__init__ iteration history current_params params
    best_score best_iteration best_params length map seq].
  split; [reflexivity | ]. split; [reflexivity | ]. split; [reflexivity | ].
  split; [intros r Hr; discriminate | ]. split; [lra | ].
  split; [constructor | ]. left. auto.
Qed.

Lemma iterate_coherent (ps0 : list TunableParam.t) (self : SPSATuner.t)
    (use_simple_games : bool) (env : Env) (r : IterationRecord.t) (self' : SPSATuner.t) :
  coherent ps0 self ->
  iterate self use_simple_games env = Py.Ok (r, self') ->
  coherent ps0 self'.
Proof.
  intros (Hiter & Hnum & Hcur & _ & Hhalf & Hmax & Hbest) Hit.
  destruct (iterate_inversion _ _ _ _ _ Hit)
    as (a_k & c_k & pp & pm & sp & sm & _ & _ & _ & _ & _ & _ & Heq).
  pose proof (after_iteration_best self env a_k c_k sp sm) as Hb.
  rewrite <- Heq in Hb. cbn [snd] in Hb.
  assert (Hr : IterationRecord.score_plus r = sp) by (injection Heq as -> _; reflexivity).
  assert (Hri : IterationRecord.iteration r = S (iteration self))
    by (injection Heq as -> _; reflexivity).
  assert (Hhist : history self' = history self ++ [r])
    by (injection Heq as -> ->; reflexivity).
  assert (Hit' : iteration self' = S (iteration self))
    by (injection Heq as _ ->; reflexivity).
  assert (Hcur' : current_params self' = dict_comp name value (params self'))
    by (injection Heq as _ ->; reflexivity).
  assert (Hrp : IterationRecord.params r = current_params self')
    by (injection Heq as -> ->; reflexivity).
  assert (Hbp : best_params self'
                = if Rgt_dec sp (best_score self) then current_params self'
                  else best_params self).
  { injection Heq as _ ->. cbn [best_params current_params].
    destruct (Rgt_dec sp (best_score self)); reflexivity. }
  clear Heq Hit.
  unfold coherent. rewrite Hhist, Hit', length_app, map_app. cbn [length map].
  rewrite Nat.add_1_r.
  split; [rewrite Hiter; reflexivity | ].
  split; [rewrite seq_S, Hnum, Hri, Hiter; reflexivity | ].
  split; [exact Hcur' | ].
  split.
  { intros r0. replace (S (length (history self)) - 1)%nat with (length (history self))
      by lia.
    rewrite nth_error_app2, Nat.sub_diag by lia. intros [= <-]. exact Hrp. }
  destruct (Rgt_dec sp (best_score self)) as [Hgt | Hle].
  - injection Hb as Hbs Hbi. rewrite Hbs, Hbi, Hbp.
    assert (Hsp : best_score self < sp) by lra.
    split; [lra | ]. split.
    + apply Forall_app. split.
      * eapply Forall_impl; [ | exact Hmax]. cbn. intros r0 H0. lra.
      * constructor; [rewrite Hr; lra | constructor].
    + right. exists r. cbn [Nat.sub]. rewrite Nat.sub_0_r, Hiter.
      split; [rewrite nth_error_app2, Nat.sub_diag by lia; reflexivity | ].
      split; [lia | ]. split; [exact Hr | ]. split; [lra | ]. split; [exact Hrp | ].
      rewrite firstn_app, Nat.sub_diag, firstn_all. cbn [firstn]. rewrite app_nil_r.
      eapply Forall_impl; [ | exact Hmax]. cbn. intros r0 H0. lra.
  - injection Hb as Hbs Hbi. rewrite Hbs, Hbi, Hbp.
    split; [exact Hhalf | ]. split.
    + apply Forall_app. split; [exact Hmax | ].
      constructor; [rewrite Hr; lra | constructor].
    + destruct Hbest as [Hnone | (r0 & Hnth & Hpos & Hs0 & Hhalf' & Hp0 & Hfirst)].
      * left. exact Hnone.
      * right. exists r0.
        assert (Hlt : (best_iteration self - 1 < length (history self))%nat)
          by (apply nth_error_Some; rewrite Hnth; discriminate).
        split; [rewrite nth_error_app1 by exact Hlt; exact Hnth | ].
        split; [exact Hpos | ]. split; [exact Hs0 | ]. split; [exact Hhalf' | ].
        split; [exact Hp0 | ].
        rewrite firstn_app.
        replace (best_iteration self - 1 - length (history self))%nat with 0%nat by lia.
        cbn [firstn]. rewrite app_nil_r. exact Hfirst.
Qed.

Lemma run_coherent (ps : list TunableParam.t) (games : Z) (n : nat) (depth : Z)
    (positions : list string) (iterations : nat) (use_simple_games : bool)
    (envs : nat -> Env) (self' : SPSATuner.t) :
  run (SPSATuner.__init__ ps games n depth positions) iterations use_simple_games envs
  = Py.Ok self' ->
  coherent ps self'.
Proof.
  intros Hrun.
  apply (run_loop_invariant (coherent ps) use_simple_games envs) with
    (n := iterations) (i := 0%nat) (self := SPSATuner.__init__ ps games n depth positions).
  - intros s env r s' Hs Hit. exact (iterate_coherent ps s _ env r s' Hs Hit).
  - apply init_coherent.
  - exact Hrun.
Qed.

Lemma run_loop_settings (use_simple_games : bool) (envs : nat -> Env) :
  forall n i self self',
    run_loop self use_simple_games envs i n = Py.Ok self' ->
    iteration self' = (iteration self + n)%nat /\
    map name (params self') = map name (params self) /\
    games_per_iter self' = games_per_iter self.
Proof.
  induction n as [| n IH]; intros i self self'; cbn [run_loop].
  - intros [= <-]. rewrite Nat.add_0_r. auto.
  - destruct (iterate self use_simple_games (envs i)) as [[r self1] | e] eqn:Hit;
      cbn [Py.bind]; [ | discriminate].
    intros Hrun. destruct (IH _ _ _ Hrun) as (Hi & Hn & Hg).
    destruct (iterate_inversion _ _ _ _ _ Hit)
      as (a_k & c_k & pp & pm & sp & sm & _ & _ & _ & _ & _ & _ & Heq).
    injection Heq as _ ->. cbn [iteration params games_per_iter] in *.
    rewrite Hi, Hn, Hg. split; [lia | ]. split; [ | reflexivity].
    apply new_params_map. reflexivity.
Qed.

(** X11. After [run] has returned on a new tuner, the counter is the number
    of iterations asked for, [history] has one record per iteration,
    numbered from [1] in order, [current_params] (what [run] returns) holds
    the values of the parameters, as the last record does, the parameters are
    those the tuner was built with, and [games_per_iter] is the number asked
    for, or the next one when that is odd: it is even. *)
Theorem run_bookkeeping (ps : list TunableParam.t) (games : Z) (n : nat) (depth : Z)
    (positions : list string) (iterations : nat) (use_simple_games : bool)
    (envs : nat -> Env) (self' : SPSATuner.t) :
  run (SPSATuner.__init__ ps games n depth positions) iterations use_simple_games envs
  = Py.Ok self' ->
  iteration self' = iterations /\
  length (history self') = iterations /\
  map IterationRecord.iteration (history self') = seq 1 iterations /\
  current_params self' = dict_comp name value (params self') /\
  (forall r, nth_error (history self') (iterations - 1) = Some r ->
     IterationRecord.params r = current_params self') /\
  map name (params self') = map name ps /\
  (games_per_iter self' mod 2 = 0)%Z /\
  (games <= games_per_iter self' <= games + 1)%Z.
Proof.
  intros Hrun.
  pose proof (run_coherent _ _ _ _ _ _ _ _ _ Hrun) as (Hiter & Hnum & Hcur & Hlast & _).
  destruct (run_loop_settings _ _ _ _ _ _ Hrun) as (Hi & Hn & Hg).
  cbn [SPSATuner.__init__ iteration params games_per_iter] in Hi, Hn, Hg.
  rewrite Hi in Hiter. cbn [Nat.add] in *.
  split; [exact Hi | ]. split; [symmetry; exact Hiter | ].
  split; [rewrite Hnum, <- Hiter; reflexivity | ].
  split; [exact Hcur | ]. split; [ | split; [exact Hn | ]].
  - intros r Hr. apply Hlast. rewrite <- Hiter. exact Hr.
  - rewrite Hg. destruct (games mod 2 =? 0)%Z eqn:E.
    + apply Z.eqb_eq in E. split; [exact E | lia].
    + apply Z.eqb_neq in E. split; [ | lia].
      rewrite Z.add_mod by lia. pose proof (Z.mod_pos_bound games 2 ltac:(lia)) as Hb.
      replace (games mod 2)%Z with 1%Z by lia. reflexivity.
Qed.

Lemma run_bookkeeping_witness :
  exists self',
    run Demo.tuner 4 false Demo.four_matches = Py.Ok self' /\
    iteration self' = 4%nat /\
    length (history self') = 4%nat /\
    map IterationRecord.iteration (history self') = [1; 2; 3; 4]%nat /\
    games_per_iter self' = 100%Z.
Proof.
  destruct (run_loop_returns false Demo.four_matches 4 0 Demo.tuner default_params_scaled)
    as (self' & Hrun).
  exists self'. split; [exact Hrun | ].
  destruct (run_bookkeeping DEFAULT_PARAMS 100%Z 20%nat 4%Z Demo.positions 4%nat false
              Demo.four_matches self' Hrun)
    as (Hi & Hl & Hn & _ & _ & _ & _ & Hg).
  split; [exact Hi | ]. split; [exact Hl | ]. split; [exact Hn | ].
  destruct (run_loop_settings _ _ _ _ _ _ Hrun) as (_ & _ & Hg').
  rewrite Hg'. reflexivity.
Defined.

(** X12. After [run] has returned on a new tuner, [best_score] is the
    highest of [0.5] and the [score_plus] of all the records of [history].
    When no iteration scored above [0.5], [best_iteration] is [0] and
    [best_score] is [0.5]; otherwise [best_iteration] is the number of the
    first record that reached the highest score: every earlier record is
    strictly below it. *)
Theorem best_score_is_first_maximum (ps : list TunableParam.t) (games : Z) (n : nat)
    (depth : Z) (positions : list string) (iterations : nat) (use_simple_games : bool)
    (envs : nat -> Env) (self' : SPSATuner.t) :
  run (SPSATuner.__init__ ps games n depth positions) iterations use_simple_games envs
  = Py.Ok self' ->
  0.5 <= best_score self' /\
  Forall (fun r => IterationRecord.score_plus r <= best_score self') (history self') /\
  (best_iteration self' <= iterations)%nat /\
  (best_iteration self' = 0%nat <->
   Forall (fun r => IterationRecord.score_plus r <= 0.5) (history self')) /\
  (best_iteration self' = 0%nat -> best_score self' = 0.5) /\
  (best_iteration self' <> 0%nat ->
   exists r,
     nth_error (history self') (best_iteration self' - 1) = Some r /\
     IterationRecord.iteration r = best_iteration self' /\
     IterationRecord.score_plus r = best_score self' /\
     0.5 < best_score self' /\
     Forall (fun r' => IterationRecord.score_plus r' < best_score self')
       (firstn (best_iteration self' - 1) (history self'))).
Proof.
  intros Hrun.
  pose proof (run_coherent _ _ _ _ _ _ _ _ _ Hrun)
    as (Hiter & Hnum & _ & _ & Hhalf & Hmax & Hbest).
  destruct (run_loop_settings _ _ _ _ _ _ Hrun) as (Hi & _ & _).
  cbn [SPSATuner.__init__ iteration Nat.add] in Hi. rewrite Hi in Hiter.
  split; [exact Hhalf | ]. split; [exact Hmax | ].
  destruct Hbest as [(Hzero & Hscore & _) | (r & Hnth & Hpos & Hs & Hgt & _ & Hfirst)].
  - rewrite Hzero. split; [lia | ]. split; [ | split; [auto | congruence]].
    split; [ | reflexivity]. intros _. rewrite <- Hscore. exact Hmax.
  - assert (Hlt : (best_iteration self' - 1 < length (history self'))%nat)
      by (apply nth_error_Some; rewrite Hnth; discriminate).
    split; [lia | ]. split; [ | split; [lia | ]].
    + split; [lia | ]. intros Hall. exfalso.
      rewrite Forall_forall in Hall.
      pose proof (Hall r (nth_error_In _ _ Hnth)) as Hr. cbn in Hr. lra.
    + intros _. exists r. split; [exact Hnth | ]. split; [ | auto].
      pose proof (map_nth_error IterationRecord.iteration _ _ Hnth) as Hm.
      rewrite Hnum in Hm.
      pose proof (nth_error_nth _ _ 0%nat Hm) as Hm'.
      rewrite seq_nth in Hm' by exact Hlt. lia.
Qed.

Lemma best_score_is_first_maximum_witness :
  exists self',
    run Demo.tuner 4 false Demo.four_matches = Py.Ok self' /\
    0.5 <= best_score self' /\
    Forall (fun r => IterationRecord.score_plus r <= best_score self') (history self') /\
    (best_iteration self' <= 4)%nat.
Proof.
  destruct (run_loop_returns false Demo.four_matches 4 0 Demo.tuner default_params_scaled)
    as (self' & Hrun).
  exists self'. split; [exact Hrun | ].
  destruct (best_score_is_first_maximum DEFAULT_PARAMS 100%Z 20%nat 4%Z Demo.positions
              4%nat false Demo.four_matches self' Hrun)
    as (Hh & Hm & Hb & _).
  auto.
Defined.

(** X13. After [run] has returned on a new tuner, [best_params] is the
    snapshot of all values stored in the record numbered [best_iteration];
    when no iteration scored above [0.5] it is still the values the tuner
    was built with, whatever the values have become since. *)
Theorem best_params_snapshot (ps : list TunableParam.t) (games : Z) (n : nat)
    (depth : Z) (positions : list string) (iterations : nat) (use_simple_games : bool)
    (envs : nat -> Env) (self' : SPSATuner.t) :
  run (SPSATuner.__init__ ps games n depth positions) iterations use_simple_games envs
  = Py.Ok self' ->
  (best_iteration self' = 0%nat -> best_params self' = dict_comp name value ps) /\
  (forall r,
     In r (history self') ->
     IterationRecord.iteration r = best_iteration self' ->
     IterationRecord.params r = best_params self') /\
  (best_iteration self' = iterations -> iterations <> 0%nat ->
   best_params self' = current_params self').
Proof.
  intros Hrun.
  pose proof (run_coherent _ _ _ _ _ _ _ _ _ Hrun)
    as (Hiter & Hnum & _ & Hlast & _ & _ & Hbest).
  destruct (run_loop_settings _ _ _ _ _ _ Hrun) as (Hi & _ & _).
  cbn [SPSATuner.__init__ iteration Nat.add] in Hi. rewrite Hi in Hiter.
  assert (Hrec : forall r, In r (history self') ->
                 (1 <= IterationRecord.iteration r)%nat /\
                 nth_error (history self') (IterationRecord.iteration r - 1) = Some r).
  { intros r Hin. destruct (In_nth_error _ _ Hin) as (k & Hk).
    assert (Hlt : (k < length (history self'))%nat)
      by (apply nth_error_Some; rewrite Hk; discriminate).
    pose proof (map_nth_error IterationRecord.iteration _ _ Hk) as Hm.
    rewrite Hnum in Hm. pose proof (nth_error_nth _ _ 0%nat Hm) as Hm'.
    rewrite seq_nth in Hm' by exact Hlt.
    replace (IterationRecord.iteration r - 1)%nat with k by lia.
    split; [lia | exact Hk]. }
  destruct Hbest as [(Hzero & _ & Hinit) | (r & Hnth & Hpos & _ & _ & Hp & _)].
  - split; [intros _; exact Hinit | ]. split.
    + intros r Hin Heq. destruct (Hrec r Hin) as (Hone & _). lia.
    + intros H1 H2. lia.
  - split; [intros H0; lia | ]. split.
    + intros r0 Hin Heq. destruct (Hrec r0 Hin) as (_ & Hk).
      rewrite Heq, Hnth in Hk. injection Hk as <-. exact Hp.
    + intros Hb _. rewrite Hb, Hiter in Hnth. rewrite <- Hp. apply Hlast. exact Hnth.
Qed.

Lemma best_params_snapshot_witness :
  exists self',
    run Demo.tuner 3 true (fun _ => Demo.silent) = Py.Ok self' /\
    (best_iteration self' = 0%nat ->
     best_params self' = dict_comp name value DEFAULT_PARAMS).
Proof.
  destruct (run_loop_returns true (fun _ => Demo.silent) 3 0 Demo.tuner default_params_scaled)
    as (self' & Hrun).
  exists self'. split; [exact Hrun | ].
  exact (proj1 (best_params_snapshot DEFAULT_PARAMS 100%Z 20%nat 4%Z Demo.positions
                  3%nat true (fun _ => Demo.silent) self' Hrun)).
Defined.


(** ** What is saved *)

Lemma int_part_nonneg (x : R) : 0 <= x -> (0 <= Int_part x)%Z.
Proof.
  intros Hx. destruct (base_Int_part x) as [_ Hlow].
  assert (H : IZR (-1) < IZR (Int_part x)) by (cbn; lra).
  apply lt_IZR in H. lia.
Qed.

Lemma int_part_monotone (x y : R) : x <= y -> (Int_part x <= Int_part y)%Z.
Proof.
  intros Hxy. destruct (base_Int_part x) as [Hx _]. destruct (base_Int_part y) as [_ Hy].
  assert (H : IZR (Int_part x) < IZR (Int_part y + 1)) by (rewrite plus_IZR; lra).
  apply lt_IZR in H. lia.
Qed.

Lemma int_of_float_near (x : R) :
  Rabs (x - IZR (Py.int_of_float x)) < 1 /\ Rabs (IZR (Py.int_of_float x)) <= Rabs x.
Proof.
  unfold Py.int_of_float. destruct (Rle_dec 0 x) as [Hx | Hx].
  - destruct (base_Int_part x) as [Hup Hlow].
    pose proof (IZR_le _ _ (int_part_nonneg x Hx)) as Hz.
    split; unfold Rabs; repeat destruct Rcase_abs; lra.
  - assert (Hneg : 0 <= - x) by lra.
    destruct (base_Int_part (- x)) as [Hup Hlow].
    pose proof (IZR_le _ _ (int_part_nonneg (- x) Hneg)) as Hz.
    rewrite opp_IZR.
    split; unfold Rabs; repeat destruct Rcase_abs; lra.
Qed.

Lemma int_of_float_monotone (x y : R) :
  x <= y -> (Py.int_of_float x <= Py.int_of_float y)%Z.
Proof.
  intros Hxy. unfold Py.int_of_float.
  destruct (Rle_dec 0 x) as [Hx | Hx]; destruct (Rle_dec 0 y) as [Hy | Hy]; try lra.
  - apply int_part_monotone. exact Hxy.
  - pose proof (int_part_nonneg (- x) ltac:(lra)). pose proof (int_part_nonneg y Hy). lia.
  - pose proof (int_part_monotone (- y) (- x) ltac:(lra)). lia.
Qed.

Lemma run_loop_frame {B : Type} (f : TunableParam.t -> B) (use_simple_games : bool)
    (envs : nat -> Env) :
  (forall p v, f (set_value p v) = f p) ->
  forall n i self self',
    run_loop self use_simple_games envs i n = Py.Ok self' ->
    map f (params self') = map f (params self).
Proof.
  intros Hf n i self self'.
  apply (run_loop_invariant (fun s => map f (params s) = map f (params self))
           use_simple_games envs); [ | reflexivity].
  intros s env r s' Hs Hit.
  destruct (iterate_inversion _ _ _ _ _ Hit)
    as (a_k & c_k & pp & pm & sp & sm & _ & _ & _ & _ & _ & _ & Heq).
  injection Heq as _ ->. cbn [params]. rewrite new_params_map by exact Hf. exact Hs.
Qed.

Lemma run_loop_in_bounds (use_simple_games : bool) (envs : nat -> Env) :
  forall n i self self',
    Forall bounds_ordered (params self) -> Forall in_bounds (params self) ->
    run_loop self use_simple_games envs i n = Py.Ok self' ->
    Forall in_bounds (params self').
Proof.
  intros n i self self' Hord Hin Hrun.
  apply (run_loop_invariant
           (fun s => Forall bounds_ordered (params s) /\ Forall in_bounds (params s))
           use_simple_games envs) with (n := n) (i := i) (self := self);
    [ | auto | exact Hrun].
  intros s env r s' [Hord' _] Hit.
  destruct (iterate_inversion _ _ _ _ _ Hit)
    as (a_k & c_k & pp & pm & sp & sm & _ & _ & _ & _ & _ & _ & Heq).
  injection Heq as _ ->. cbn [params].
  split; [apply new_params_ordered | apply new_params_in_bounds]; exact Hord'.
Qed.

(** X14. What [save_results] writes after [run] has returned on a new tuner
    whose parameters have distinct names and start within ordered bounds:
    [final_params] has the names of the parameters in their order, and under
    each name the current value cut to an integer towards zero, less than
    [1] away from it, which lies between the bounds of the parameter cut the
    same way (between the bounds themselves when they are whole numbers). *)
Theorem saved_values_truncated_within_bounds (ps : list TunableParam.t) (games : Z)
    (n : nat) (depth : Z) (positions : list string) (iterations : nat)
    (use_simple_games : bool) (envs : nat -> Env) (self' : SPSATuner.t) :
  NoDup (map name ps) -> Forall bounds_ordered ps -> Forall in_bounds ps ->
  run (SPSATuner.__init__ ps games n depth positions) iterations use_simple_games envs
  = Py.Ok self' ->
  Output.total_iterations (save_results self') = iterations /\
  Output.history (save_results self') = history self' /\
  map fst (Output.final_params (save_results self')) = map name ps /\
  (forall nm z,
     In (nm, z) (Output.final_params (save_results self')) ->
     exists p0 v,
       In p0 ps /\ name p0 = nm /\
       dict_get (current_params self') nm = Some v /\
       z = Py.int_of_float v /\
       Rabs (v - IZR z) < 1 /\ Rabs (IZR z) <= Rabs v /\
       (Py.int_of_float (min_val p0) <= z <= Py.int_of_float (max_val p0))%Z /\
       (forall lo hi : Z, min_val p0 = IZR lo -> max_val p0 = IZR hi -> (lo <= z <= hi)%Z)).
Proof.
  intros Hnodup Hord Hin Hrun.
  pose proof (run_coherent _ _ _ _ _ _ _ _ _ Hrun) as (_ & _ & Hcur & _).
  destruct (run_loop_settings _ _ _ _ _ _ Hrun) as (Hi & Hnames & _).
  pose proof (run_loop_frame (fun p => (name p, min_val p, max_val p)) use_simple_games envs
                ltac:(reflexivity) _ _ _ _ Hrun) as Hframe.
  pose proof (run_loop_in_bounds use_simple_games envs iterations 0%nat
                (SPSATuner.__init__ ps games n depth positions) self' Hord Hin Hrun)
    as Hin'.
  cbn [SPSATuner.__init__ iteration params Nat.add] in Hi, Hnames, Hframe.
  assert (Hnodup' : NoDup (map name (params self'))) by (rewrite Hnames; exact Hnodup).
  rewrite dict_comp_distinct in Hcur by exact Hnodup'.
  unfold save_results.
  cbn [Output.total_iterations Output.history Output.final_params].
  split; [exact Hi | ]. split; [reflexivity | ]. rewrite Hcur, !map_map. cbn [fst snd].
  split; [exact Hnames | ].
  intros nm z Hz. apply in_map_iff in Hz. destruct Hz as (p & Hp & Hpin).
  injection Hp as <- <-.
  assert (H0 : In (name p, min_val p, max_val p)
                 (map (fun p => (name p, min_val p, max_val p)) ps))
    by (rewrite <- Hframe;
        exact (in_map (fun p => (name p, min_val p, max_val p)) _ _ Hpin)).
  destruct (proj1 (in_map_iff (fun p => (name p, min_val p, max_val p)) ps _) H0)
    as (p0 & Hp0 & Hp0in).
  injection Hp0 as Hn Hlo Hhi.
  rewrite Forall_forall in Hin'. pose proof (Hin' p Hpin) as [Hge Hle].
  rewrite <- Hlo in Hge. rewrite <- Hhi in Hle.
  assert (Hrange : (Py.int_of_float (min_val p0) <= Py.int_of_float (value p)
                    <= Py.int_of_float (max_val p0))%Z)
    by (split; apply int_of_float_monotone; assumption).
  exists p0, (value p). split; [exact Hp0in | ]. split; [exact Hn | ].
  split; [apply (dict_get_distinct name value); assumption | ].
  split; [reflexivity | ].
  destruct (int_of_float_near (value p)) as [Hnear Hsmall].
  split; [exact Hnear | ]. split; [exact Hsmall | ]. split; [exact Hrange | ].
  intros lo hi Hlo' Hhi'. rewrite Hlo', Hhi', !int_of_float_IZR in Hrange. exact Hrange.
Qed.

Lemma saved_values_truncated_within_bounds_witness :
  exists self',
    run Demo.tuner 4 false Demo.four_matches = Py.Ok self' /\
    Output.total_iterations (save_results self') = 4%nat /\
    map fst (Output.final_params (save_results self')) = map name DEFAULT_PARAMS.
Proof.
  destruct (run_loop_returns false Demo.four_matches 4 0 Demo.tuner default_params_scaled)
    as (self' & Hrun).
  exists self'. split; [exact Hrun | ].
  destruct (saved_values_truncated_within_bounds DEFAULT_PARAMS 100%Z 20%nat 4%Z
              Demo.positions 4%nat false Demo.four_matches self'
              default_names_distinct default_params_ordered default_params_in_bounds Hrun)
    as (Hi & _ & Hn & _).
  split; [exact Hi | exact Hn].
Defined.


(** ** The positions file *)

Lemma epd_loop_from (fen_count : Z) :
  forall lines start positions,
    epd_loop fen_count (combine (seq start (length lines)) lines) positions
    = positions
      ++ flat_map (fun line => match epd_position line with
                               | Some fen => [fen]
                               | None => []
                               end)
           (firstn (Z.to_nat (fen_count - Z.of_nat start)) lines).
Proof.
  induction lines as [| line lines IH]; intros start positions;
    cbn [length seq combine epd_loop].
  - rewrite firstn_nil, app_nil_r. reflexivity.
  - destruct (fen_count <=? Z.of_nat start)%Z eqn:E.
    + apply Z.leb_le in E.
      replace (Z.to_nat (fen_count - Z.of_nat start)) with 0%nat by lia.
      cbn [firstn flat_map]. rewrite app_nil_r. reflexivity.
    + apply Z.leb_gt in E.
      replace (Z.to_nat (fen_count - Z.of_nat start))
        with (S (Z.to_nat (fen_count - Z.of_nat (S start)))) by lia.
      cbn [firstn flat_map]. rewrite IH.
      destruct (epd_position line); cbn [app]; [rewrite <- app_assoc | ]; reflexivity.
Qed.

Lemma epd_loop_value (fen_count : Z) (lines : list string) :
  epd_loop fen_count (enumerate lines) []
  = flat_map (fun line => match epd_position line with
                          | Some fen => [fen]
                          | None => []
                          end)
      (firstn (Z.to_nat fen_count) lines).
Proof.
  unfold enumerate. rewrite epd_loop_from. cbn [app Z.of_nat].
  rewrite Z.sub_0_r. reflexivity.
Qed.

Lemma flat_map_option_length {A B : Type} (f : A -> option B) (xs : list A) :
  (length (flat_map (fun x => match f x with Some y => [y] | None => [] end) xs)
   <= length xs)%nat.
Proof.
  induction xs as [| x xs IH]; cbn [flat_map length]; [lia | ].
  rewrite length_app. destruct (f x); cbn [length]; lia.
Qed.

(** X15. [_load_epd_positions] never returns an empty list. It reads the
    file beside the script when there is one, and the file beside the engine
    only when there is none beside the script: a file beside the script that
    yields nothing is not replaced by the other one. From the file it keeps,
    in order, what the lines of index below [fen_count] that are not blank
    yield: [fen_count] bounds the lines read, blank ones included, not the
    positions returned. When that is nothing (no file, [fen_count <= 0], only
    blank lines among the first [fen_count]) the five built-in positions
    are returned. *)
Theorem epd_positions_loaded (fen_count : Z) :
  (forall beside_script beside_engine,
     _load_epd_positions fen_count beside_script beside_engine <> []) /\
  _load_epd_positions fen_count None None = FALLBACK_POSITIONS /\
  (forall lines beside_engine,
     _load_epd_positions fen_count (Some lines) beside_engine
     = _load_epd_positions fen_count (Some lines) None) /\
  (forall lines,
     _load_epd_positions fen_count None (Some lines)
     = _load_epd_positions fen_count (Some lines) None) /\
  (forall lines,
     let kept :=
       flat_map (fun line => match epd_position line with
                             | Some fen => [fen]
                             | None => []
                             end)
         (firstn (Z.to_nat fen_count) lines) in
     _load_epd_positions fen_count (Some lines) None
     = match kept with [] => FALLBACK_POSITIONS | _ => kept end /\
     (length kept <= length lines)%nat /\
     (Z.of_nat (length kept) <= Z.max 0 fen_count)%Z /\
     ((fen_count <= 0)%Z -> kept = []) /\
     (Forall (fun line => epd_position line = None) (firstn (Z.to_nat fen_count) lines) ->
      kept = [])).
Proof.
  split; [ | split; [reflexivity | split; [reflexivity | split; [reflexivity | ]]]].
  - intros beside_script beside_engine. unfold _load_epd_positions.
    destruct (match match beside_script with
                    | Some _ => beside_script
                    | None => beside_engine
                    end with
              | Some lines => epd_loop fen_count (enumerate lines) []
              | None => []
              end); discriminate.
  - intros lines kept. unfold _load_epd_positions. rewrite epd_loop_value. fold kept.
    split; [destruct kept; reflexivity | ].
    pose proof (flat_map_option_length epd_position (firstn (Z.to_nat fen_count) lines))
      as Hlen.
    fold kept in Hlen. rewrite length_firstn in Hlen.
    split; [lia | ]. split; [lia | ]. split.
    + intros Hle. unfold kept. replace (Z.to_nat fen_count) with 0%nat by lia.
      reflexivity.
    + intros Hblank. unfold kept. clear Hlen kept.
      induction Hblank as [| line rest Hline _ IH]; cbn [flat_map]; [reflexivity | ].
      rewrite Hline. exact IH.
Qed.

Lemma epd_positions_loaded_witness :
  _load_epd_positions 2
    (Some [""; "8/8/8/8/8/8/8/K1k5 w - - c9 1-0"; "k7/8/8/8/8/8/8/K7 w - -"]%string)
    (Some ["k7/8/8/8/8/8/8/K7 b - - 0 1"]%string)
  = ["8/8/8/8/8/8/8/K1k5 w - - 0 1"]%string /\
  _load_epd_positions 1 (Some [""; "8/8/8/8/8/8/8/K1k5 w - - c9 1-0"]%string)
    (Some ["k7/8/8/8/8/8/8/K7 b - - 0 1"]%string)
  = FALLBACK_POSITIONS.
Proof.
  destruct (epd_positions_loaded 2) as (_ & _ & Hshadow & _ & Hkept).
  destruct (epd_positions_loaded 1) as (_ & _ & Hshadow1 & _ & Hkept1).
  split.
  - rewrite Hshadow. rewrite (proj1 (Hkept _)). vm_compute. reflexivity.
  - rewrite Hshadow1. rewrite (proj1 (Hkept1 _)).
    rewrite (proj2 (proj2 (proj2 (proj2 (Hkept1 _))))); [reflexivity | ].
    vm_compute. repeat constructor.
Defined.

Lemma cons_head_length (a : ascii) (pieces : list string) :
  pieces <> [] -> length (Py.cons_head a pieces) = length pieces.
Proof. destruct pieces; [contradiction | reflexivity]. Qed.

Lemma split_ws_starts (a : ascii) (s : string) :
  Py.is_space a = false -> Py.split_ws (String a s) <> [].
Proof.
  intros Ha. cbn [Py.split_ws]. rewrite Ha.
  destruct s as [| b s]; [discriminate | ].
  destruct (Py.is_space b); [discriminate | ].
  destruct (Py.split_ws (String b s)); discriminate.
Qed.

Lemma split_ws_counters (s : string) :
  length (Py.split_ws (s ++ " 0 1")%string) = (length (Py.split_ws s) + 2)%nat.
Proof.
  induction s as [| a s IH]; [reflexivity | ].
  change (String a s ++ " 0 1")%string with (String a (s ++ " 0 1")).
  cbn [Py.split_ws]. destruct (Py.is_space a) eqn:Ha; [exact IH | ].
  destruct s as [| b s].
  - reflexivity.
  - change (String b s ++ " 0 1")%string with (String b (s ++ " 0 1")) in *.
    destruct (Py.is_space b) eqn:Hb.
    + rewrite Hb. cbn [length]. rewrite IH. reflexivity.
    + rewrite Hb. rewrite !cons_head_length by (apply split_ws_starts; exact Hb). exact IH.
Qed.

Lemma split_from_nonempty (sep : string) :
  forall s skip, Py.split_from sep skip s <> [].
Proof.
  induction s as [| a s IH]; intros skip; cbn [Py.split_from]; [discriminate | ].
  destruct skip; [ | apply IH].
  destruct (prefix sep (String a s)); [discriminate | ].
  destruct (Py.split_from sep 0 s); discriminate.
Qed.

(** X16. A line of the positions file yields nothing exactly when it is
    blank. Otherwise it yields the text before the first [ c9 ], stripped,
    and followed by [ 0 1] when it has four fields, which gives it six: no
    position read from the file has four fields, and none of the positions
    [_load_epd_positions] returns has. *)
Theorem epd_positions_have_move_counters :
  (forall line, epd_position line = None <-> Py.strip line = ""%string) /\
  (forall line fen,
     epd_position line = Some fen ->
     exists part,
       hd_error (Py.split " c9 " (Py.strip line)) = Some part /\
       ((length (Py.split_ws (Py.strip part)) = 4%nat /\
         fen = (Py.strip part ++ " 0 1")%string /\
         length (Py.split_ws fen) = 6%nat) \/
        (length (Py.split_ws (Py.strip part)) <> 4%nat /\ fen = Py.strip part))) /\
  (forall fen_count beside_script beside_engine,
     Forall (fun fen => length (Py.split_ws fen) <> 4%nat)
       (_load_epd_positions fen_count beside_script beside_engine)).
Proof.
  assert (Hline : forall line fen,
     epd_position line = Some fen ->
     exists part,
       hd_error (Py.split " c9 " (Py.strip line)) = Some part /\
       ((length (Py.split_ws (Py.strip part)) = 4%nat /\
         fen = (Py.strip part ++ " 0 1")%string /\
         length (Py.split_ws fen) = 6%nat) \/
        (length (Py.split_ws (Py.strip part)) <> 4%nat /\ fen = Py.strip part))).
  { intros line fen. unfold epd_position.
    destruct (Py.strip line) as [| a s] eqn:Hs; [discriminate | ].
    destruct (Py.split " c9 " (String a s)) as [| part parts] eqn:Hp; [discriminate | ].
    intros [= <-]. exists part. split; [reflexivity | ].
    destruct (length (Py.split_ws (Py.strip part)) =? 4)%nat eqn:E.
    - apply Nat.eqb_eq in E. left. split; [exact E | ]. split; [reflexivity | ].
      rewrite split_ws_counters, E. reflexivity.
    - apply Nat.eqb_neq in E. right. split; [exact E | reflexivity]. }
  split; [ | split; [exact Hline | ]].
  - intros line. unfold epd_position.
    destruct (Py.strip line) as [| a s] eqn:Hs; [split; reflexivity | ].
    pose proof (split_from_nonempty " c9 " (String a s) 0) as Hne.
    unfold Py.split. destruct (Py.split_from " c9 " 0 (String a s));
      [contradiction | split; discriminate].
  - intros fen_count beside_script beside_engine.
    assert (Hfile : forall lines,
              Forall (fun fen => length (Py.split_ws fen) <> 4%nat)
                (_load_epd_positions fen_count (Some lines) None)).
    { intros lines. unfold _load_epd_positions. rewrite epd_loop_value.
      set (kept := flat_map _ _).
      assert (Hkept : Forall (fun fen => length (Py.split_ws fen) <> 4%nat) kept).
      { apply Forall_forall. intros fen Hin. unfold kept in Hin.
        apply in_flat_map in Hin. destruct Hin as (line & _ & Hfen).
        destruct (epd_position line) as [fen' | ] eqn:E; [ | destruct Hfen].
        destruct Hfen as [<- | []].
        destruct (Hline line fen' E) as (part & _ & [(_ & _ & H6) | (H4 & ->)]).
        - rewrite H6. discriminate.
        - exact H4. }
      destruct kept; [ | exact Hkept].
      repeat constructor; vm_compute; discriminate. }
    destruct beside_script as [lines | ]; [apply Hfile | ].
    destruct beside_engine as [lines | ]; [apply Hfile | ].
    repeat constructor; vm_compute; discriminate.
Qed.

Lemma epd_positions_have_move_counters_witness :
  epd_position "8/8/8/8/8/8/8/K1k5 w - - c9 1-0" = Some "8/8/8/8/8/8/8/K1k5 w - - 0 1"%string /\
  length (Py.split_ws "8/8/8/8/8/8/8/K1k5 w - - 0 1") = 6%nat.
Proof.
  assert (E : epd_position "8/8/8/8/8/8/8/K1k5 w - - c9 1-0"
              = Some "8/8/8/8/8/8/8/K1k5 w - - 0 1"%string) by (vm_compute; reflexivity).
  split; [exact E | ].
  destruct (proj1 (proj2 epd_positions_have_move_counters) _ _ E)
    as (part & Hpart & [(_ & _ & H6) | (H4 & Hfen)]).
  - exact H6.
  - exfalso. vm_compute in Hpart. injection Hpart as <-. apply H4. vm_compute. reflexivity.
Defined.


(** ** The perft harness *)

Import PerftTest.

Lemma find_in_skips (fs : PerftTest.FileSystem) (before rest : list string) :
  Forall (fun p => usable fs p = false) before ->
  find_in fs (before ++ rest) = find_in fs rest.
Proof.
  induction 1 as [| path before Hpath _ IH]; cbn [app find_in]; [reflexivity | ].
  unfold usable in Hpath.
  destruct (path_exists fs path); [ | exact IH].
  destruct (nt fs), (access_x fs path), (chmod_returns fs path);
    cbn in Hpath |- *; try discriminate; exact IH.
Qed.

Lemma find_in_usable (fs : PerftTest.FileSystem) (path : string) (rest : list string) :
  usable fs path = true -> find_in fs (path :: rest) = Py.Ok path.
Proof.
  unfold usable. cbn [find_in]. intros Hpath.
  destruct (path_exists fs path); [ | discriminate].
  destruct (nt fs), (access_x fs path), (chmod_returns fs path);
    cbn in Hpath |- *; try discriminate; reflexivity.
Qed.

Lemma find_in_cases (fs : PerftTest.FileSystem) (paths : list string) :
  (exists path before after,
     find_in fs paths = Py.Ok path /\ paths = before ++ path :: after /\
     Forall (fun p => usable fs p = false) before /\ usable fs path = true) \/
  (find_in fs paths = Py.Raise Py.OSError /\ Forall (fun p => usable fs p = false) paths).
Proof.
  induction paths as [| path paths IH].
  - right. split; [reflexivity | constructor].
  - destruct (usable fs path) eqn:Hpath.
    + left. exists path, [], paths. split; [apply find_in_usable; exact Hpath | ].
      split; [reflexivity | ]. split; [constructor | exact Hpath].
    + assert (Hskip : find_in fs (path :: paths) = find_in fs paths)
        by (apply (find_in_skips fs [path] paths); constructor; [exact Hpath | constructor]).
      rewrite Hskip.
      destruct IH as [(p & before & after & Hok & -> & Hbefore & Hp) | [Hraise Hall]].
      * left. exists p, (path :: before), after. split; [exact Hok | ].
        split; [reflexivity | ]. split; [constructor; assumption | exact Hp].
      * right. split; [exact Hraise | constructor; assumption].
Qed.

(** X17. [find_engine] returns the first of its eight candidate paths that
    exists and, unless [os.name] is [nt], is executable or can be given to
    [chmod] without an exception (it is not tested again after [chmod]); the
    four paths without [.exe] come first. It raises [FileNotFoundError]
    exactly when no candidate is such, and nothing else. *)
Theorem find_engine_first_usable (fs : PerftTest.FileSystem) :
  (forall path,
     find_engine fs = Py.Ok path <->
     exists before after,
       possible_paths = before ++ path :: after /\
       Forall (fun p => usable fs p = false) before /\ usable fs path = true) /\
  (find_engine fs = Py.Raise Py.OSError <->
   Forall (fun p => usable fs p = false) possible_paths) /\
  (forall e, find_engine fs = Py.Raise e -> e = Py.OSError) /\
  (forall path,
     find_engine fs = Py.Ok path ->
     In path possible_paths /\ path_exists fs path = true /\
     (nt fs = false -> access_x fs path = false -> chmod_returns fs path = true)).
Proof.
  unfold find_engine.
  assert (Hto : forall path, find_in fs possible_paths = Py.Ok path ->
            exists before after,
              possible_paths = before ++ path :: after /\
              Forall (fun p => usable fs p = false) before /\ usable fs path = true).
  { intros path Hok.
    destruct (find_in_cases fs possible_paths)
      as [(p & before & after & Hp & Heq & Hbefore & Husable) | [Hraise _]].
    - rewrite Hok in Hp. injection Hp as <-. exists before, after. auto.
    - rewrite Hok in Hraise. discriminate. }
  split; [ | split; [ | split]].
  - intros path. split; [apply Hto | ].
    intros (before & after & -> & Hbefore & Husable).
    rewrite find_in_skips by exact Hbefore. apply find_in_usable. exact Husable.
  - split.
    + intros Hraise.
      destruct (find_in_cases fs possible_paths)
        as [(p & before & after & Hp & _) | [_ Hall]]; [ | exact Hall].
      rewrite Hraise in Hp. discriminate.
    + intros Hall. rewrite <- (app_nil_r possible_paths).
      rewrite find_in_skips by exact Hall. reflexivity.
  - intros e He.
    destruct (find_in_cases fs possible_paths)
      as [(p & before & after & Hp & _) | [Hraise _]].
    + rewrite He in Hp. discriminate.
    + rewrite He in Hraise. injection Hraise as ->. reflexivity.
  - intros path Hok. destruct (Hto path Hok) as (before & after & Heq & _ & Husable).
    split; [rewrite Heq; apply in_or_app; right; left; reflexivity | ].
    unfold usable in Husable. apply andb_prop in Husable. destruct Husable as [Hex Hx].
    split; [exact Hex | ]. intros Hnt Hacc. rewrite Hnt, Hacc in Hx. exact Hx.
Qed.

Lemma find_engine_first_usable_witness :
  find_engine Demo.build_dir = Py.Ok "main.exe"%string.
Proof.
  apply (proj1 (find_engine_first_usable Demo.build_dir)).
  exists ["./output/main"; "output/main"; "../output/main"; "main";
          "./output/main.exe"; "output/main.exe"; "../output/main.exe"]%string, [].
  split; [reflexivity | ]. split; [repeat constructor | reflexivity].
Defined.

Lemma in_depths (max_depth d : Z) : In d (depths max_depth) <-> (1 <= d <= max_depth)%Z.
Proof.
  unfold depths. rewrite in_map_iff. split.
  - intros (k & <- & Hk). apply in_seq in Hk. lia.
  - intros Hd. exists (Z.to_nat d). split; [lia | ]. apply in_seq. lia.
Qed.

Lemma test_loop_true (engine : string -> Py.process) (position : PerftPosition.t)
    (ds : list Z) :
  test_loop engine position ds = true <->
  forall d, In d ds ->
    forall e, int_dict_get (PerftPosition.expected position) d = Some e ->
      run_perft engine (PerftPosition.fen position) d false = e.
Proof.
  induction ds as [| depth ds IH]; cbn [test_loop].
  - split; [intros _ d [] | reflexivity].
  - destruct (int_dict_get (PerftPosition.expected position) depth) as [expected | ] eqn:E.
    + destruct (run_perft engine (PerftPosition.fen position) depth false =? expected)%Z
        eqn:Hrun.
      * apply Z.eqb_eq in Hrun. rewrite IH. split.
        -- intros H d [<- | Hd] e He; [congruence | exact (H d Hd e He)].
        -- intros H d Hd. apply H. right. exact Hd.
      * apply Z.eqb_neq in Hrun. split; [discriminate | ].
        intros H. exfalso. apply Hrun. apply (H depth); [left; reflexivity | exact E].
    + rewrite IH. split.
      * intros H d [<- | Hd] e He; [congruence | exact (H d Hd e He)].
      * intros H d Hd. apply H. right. exact Hd.
Qed.

Lemma test_position_true (engine : string -> Py.process) (position : PerftPosition.t)
    (max_depth : Z) :
  test_position engine position max_depth = true <->
  forall d, (1 <= d <= max_depth)%Z ->
    forall e, int_dict_get (PerftPosition.expected position) d = Some e ->
      run_perft engine (PerftPosition.fen position) d false = e.
Proof.
  unfold test_position. rewrite test_loop_true. split.
  - intros H d Hd. apply H. apply in_depths. exact Hd.
  - intros H d Hd. apply H. apply in_depths. exact Hd.
Qed.

(** X18. [test_position] returns [True] exactly when, at every depth from
    [1] to [max_depth] for which the position has an expected count,
    [run_perft] returns that count; depths without an expected count are
    skipped. So it returns [True] for any engine when [max_depth <= 0], and a
    position that passes up to some depth passes up to every smaller one. *)
Theorem test_position_passes (engine : string -> Py.process)
    (position : PerftPosition.t) (max_depth : Z) :
  (test_position engine position max_depth = true <->
   forall d, (1 <= d <= max_depth)%Z ->
     forall e, int_dict_get (PerftPosition.expected position) d = Some e ->
       run_perft engine (PerftPosition.fen position) d false = e) /\
  ((max_depth <= 0)%Z -> test_position engine position max_depth = true) /\
  (forall smaller,
     (smaller <= max_depth)%Z ->
     test_position engine position max_depth = true ->
     test_position engine position smaller = true).
Proof.
  split; [apply test_position_true | split].
  - intros Hle. apply test_position_true. intros d Hd. lia.
  - intros smaller Hle Hpass. rewrite test_position_true in Hpass.
    apply test_position_true. intros d Hd. apply Hpass. lia.
Qed.

Lemma test_position_passes_witness :
  test_position Demo.ignorant (PerftPosition.mk "Initial" Demo.startpos [(1, 20)]%Z) 0 = true.
Proof.
  apply (proj1 (proj2 (test_position_passes Demo.ignorant
                         (PerftPosition.mk "Initial" Demo.startpos [(1, 20)]%Z) 0))).
  lia.
Defined.

Lemma all_tests_loop_value (engine : string -> Py.process) (max_depth : Z) :
  forall positions all_passed passed_count failed_count,
    all_tests_loop engine max_depth positions (all_passed, passed_count, failed_count)
    = (all_passed && forallb (fun p => test_position engine p max_depth) positions,
       (passed_count
        + length (filter (fun p => test_position engine p max_depth) positions))%nat,
       (failed_count
        + length (filter (fun p => negb (test_position engine p max_depth)) positions))%nat).
Proof.
  induction positions as [| position positions IH];
    intros all_passed passed_count failed_count; cbn [all_tests_loop forallb filter length].
  - rewrite andb_true_r, !Nat.add_0_r. reflexivity.
  - destruct (test_position engine position max_depth); rewrite IH; cbn [negb length andb].
    + rewrite Nat.add_succ_r. reflexivity.
    + rewrite andb_false_r, Nat.add_succ_r. reflexivity.
Qed.

Lemma filter_split_length {A : Type} (f : A -> bool) (xs : list A) :
  (length (filter f xs) + length (filter (fun x => negb (f x)) xs) = length xs)%nat.
Proof.
  induction xs as [| x xs IH]; cbn [filter length]; [reflexivity | ].
  destruct (f x); cbn [negb length]; lia.
Qed.

Lemma all_tests_counts (engine : string -> Py.process) (max_depth : Z)
    (positions : list PerftPosition.t) (all_passed : bool)
    (passed_count failed_count : nat) :
  all_tests_loop engine max_depth positions (true, 0%nat, 0%nat)
  = (all_passed, passed_count, failed_count) ->
  all_passed = forallb (fun p => test_position engine p max_depth) positions /\
  (passed_count + failed_count = length positions)%nat /\
  (all_passed = true <-> failed_count = 0%nat).
Proof.
  rewrite all_tests_loop_value, andb_true_l, !Nat.add_0_l. intros [= <- <- <-].
  split; [reflexivity | ]. split; [apply filter_split_length | ].
  rewrite forallb_forall. split.
  - intros Hall.
    destruct (filter (fun p => negb (test_position engine p max_depth)) positions)
      as [| p ps] eqn:E; [reflexivity | ].
    assert (Hp : In p (filter (fun p => negb (test_position engine p max_depth))
                         positions)) by (rewrite E; left; reflexivity).
    apply filter_In in Hp. destruct Hp as [Hin Hfail].
    rewrite (Hall p Hin) in Hfail. discriminate.
  - intros Hnone position Hin.
    destruct (test_position engine position max_depth) eqn:E; [reflexivity | ].
    assert (Hp : In position (filter (fun p => negb (test_position engine p max_depth))
                                positions))
      by (apply filter_In; split; [exact Hin | rewrite E; reflexivity]).
    apply length_zero_iff_nil in Hnone. rewrite Hnone in Hp. destruct Hp.
Qed.

(** X19. [run_all_tests] returns [True] exactly when every one of the six
    positions passes [test_position]; the two counts it reports add up to
    six, and it returns [True] exactly when the count of failures is [0].
    With [max_depth <= 0] it returns [True] whatever the engine does; with
    [max_depth >= 1] it returns [False] as soon as [run_perft] does not
    return [20] for the initial position at depth [1], as for an engine that
    cannot be started (then [run_perft] returns [-1]). *)
Theorem run_all_tests_passes (engine : string -> Py.process) (max_depth : Z) :
  (run_all_tests engine max_depth = true <->
   forall position, In position PERFT_POSITIONS ->
     test_position engine position max_depth = true) /\
  (forall all_passed passed_count failed_count,
     all_tests_loop engine max_depth PERFT_POSITIONS (true, 0%nat, 0%nat)
     = (all_passed, passed_count, failed_count) ->
     run_all_tests engine max_depth = all_passed /\
     (passed_count + failed_count = 6)%nat /\
     (all_passed = true <-> failed_count = 0%nat)) /\
  ((max_depth <= 0)%Z -> run_all_tests engine max_depth = true) /\
  ((1 <= max_depth)%Z ->
   run_perft engine "rnbqkbnr/pppppppp/8/8/8/8/PPPPPPPP/RNBQKBNR w KQkq - 0 1" 1 false
   <> 20%Z ->
   run_all_tests engine max_depth = false) /\
  ((1 <= max_depth)%Z ->
   (forall commands, engine commands = Py.CannotStart) ->
   run_all_tests engine max_depth = false).
Proof.
  assert (Hiff : run_all_tests engine max_depth = true <->
                 forall position, In position PERFT_POSITIONS ->
                   test_position engine position max_depth = true).
  { unfold run_all_tests. rewrite all_tests_loop_value, andb_true_l. unfold fst.
    rewrite forallb_forall. reflexivity. }
  assert (Hfirst : (1 <= max_depth)%Z ->
            run_perft engine "rnbqkbnr/pppppppp/8/8/8/8/PPPPPPPP/RNBQKBNR w KQkq - 0 1"
              1 false <> 20%Z ->
            run_all_tests engine max_depth = false).
  { intros Hdepth Hwrong. apply not_true_is_false. intros Hpass.
    rewrite Hiff in Hpass. apply Hwrong.
    pose proof (Hpass _ (or_introl eq_refl)) as Hstart.
    rewrite test_position_true in Hstart.
    apply (Hstart 1%Z); [lia | reflexivity]. }
  split; [exact Hiff | split; [ | split; [ | split; [exact Hfirst | ]]]].
  - intros all_passed passed_count failed_count Hloop. unfold run_all_tests.
    rewrite Hloop. split; [reflexivity | ].
    destruct (all_tests_counts _ _ _ _ _ _ Hloop) as (_ & Hlen & Hzero).
    split; [exact Hlen | exact Hzero].
  - intros Hle. apply Hiff. intros position _. apply test_position_true.
    intros d Hd. lia.
  - intros Hdepth Hengine. apply Hfirst; [exact Hdepth | ].
    unfold run_perft. rewrite Hengine. cbn. discriminate.
Qed.

Lemma run_all_tests_passes_witness :
  run_all_tests Demo.ignorant 0 = true /\ run_all_tests Demo.ignorant 5 = false.
Proof.
  destruct (run_all_tests_passes Demo.ignorant 0) as (_ & _ & Hzero & _).
  destruct (run_all_tests_passes Demo.ignorant 5) as (_ & _ & _ & Hfive & _).
  split; [apply Hzero; lia | ].
  apply Hfive; [lia | ]. unfold run_perft, Demo.ignorant.
  rewrite subprocess_run_in_time by lra. vm_compute. discriminate.
Defined.


Lemma int_dict_get_in (d : list (Z * Z)) (key e : Z) :
  int_dict_get d key = Some e -> In (key, e) d.
Proof.
  induction d as [| [k v] d IH]; cbn [int_dict_get]; [discriminate | ].
  destruct (k =? key)%Z eqn:E.
  - apply Z.eqb_eq in E. intros [= <-]. left. congruence.
  - intros H. right. exact (IH H).
Qed.

Lemma test_position_beyond (engine : string -> Py.process) (position : PerftPosition.t)
    (last max_depth : Z) :
  (forall d e, int_dict_get (PerftPosition.expected position) d = Some e -> (d <= last)%Z) ->
  (last <= max_depth)%Z ->
  test_position engine position max_depth = test_position engine position last.
Proof.
  intros Hlast Hle. apply eq_true_iff_eq. rewrite !test_position_true. split.
  - intros H d Hd. apply H. lia.
  - intros H d Hd e He. apply H; [ | exact He]. pose proof (Hlast d e He). lia.
Qed.

Lemma expected_depths_at_most_7 (position : PerftPosition.t) (d e : Z) :
  In position PERFT_POSITIONS ->
  int_dict_get (PerftPosition.expected position) d = Some e -> (d <= 7)%Z.
Proof.
  intros Hin He. apply int_dict_get_in in He.
  repeat (destruct Hin as [<- | Hin];
          [cbn [PerftPosition.expected In] in He;
           repeat (destruct He as [He | He]; [injection He as <- _; lia | ]);
           destruct He | ]).
  destruct Hin.
Qed.

(** X20. Depths for which a position has no expected count are skipped
    without running the engine's count against anything: a position whose
    expected counts stop at some depth passes up to any greater [max_depth]
    exactly when it passes up to that depth. The table stops at depth [7], so
    for [max_depth >= 7] every position of the table, and [run_all_tests],
    give what they give for [max_depth = 7]. *)
Theorem depths_beyond_table_skipped (engine : string -> Py.process) (max_depth : Z) :
  (forall position last,
     (forall d e,
        int_dict_get (PerftPosition.expected position) d = Some e -> (d <= last)%Z) ->
     (last <= max_depth)%Z ->
     test_position engine position max_depth = test_position engine position last) /\
  ((7 <= max_depth)%Z ->
   (forall position, In position PERFT_POSITIONS ->
      test_position engine position max_depth = test_position engine position 7) /\
   run_all_tests engine max_depth = run_all_tests engine 7).
Proof.
  split; [intros position last; apply test_position_beyond | ].
  intros Hdepth.
  assert (Hpos : forall position, In position PERFT_POSITIONS ->
            test_position engine position max_depth = test_position engine position 7).
  { intros position Hin. apply test_position_beyond; [ | exact Hdepth].
    intros d e. apply expected_depths_at_most_7. exact Hin. }
  split; [exact Hpos | ].
  unfold run_all_tests. rewrite !all_tests_loop_value, !andb_true_l. unfold fst.
  apply eq_true_iff_eq. rewrite !forallb_forall. split.
  - intros H position Hin. rewrite <- (Hpos position Hin). exact (H position Hin).
  - intros H position Hin. rewrite (Hpos position Hin). exact (H position Hin).
Qed.

Lemma depths_beyond_table_skipped_witness :
  run_all_tests Demo.counting 9 = run_all_tests Demo.counting 7.
Proof.
  apply (proj2 (depths_beyond_table_skipped Demo.counting 9)). lia.
Defined.

(** ** [run_divide] *)

Lemma divide_entry_unique (line move move' : string) (nodes nodes' : Z) :
  divide_entry line move nodes -> divide_entry line move' nodes' ->
  move = move' /\ nodes = nodes'.
Proof.
  intros (_ & _ & _ & _ & p0 & p1 & Hs & Hm & Hn)
         (_ & _ & _ & _ & q0 & q1 & Hs' & Hm' & Hn').
  rewrite Hs in Hs'. injection Hs' as <- <-.
  rewrite Hn in Hn'. injection Hn' as <-. split; congruence.
Qed.

Lemma divide_step (line : string) (rest : list string) (moves : dict Z) :
  (exists move nodes,
     divide_entry line move nodes /\
     divide_loop (line :: rest) moves = divide_loop rest (dict_set moves move nodes)) \/
  ((forall move nodes, ~ divide_entry line move nodes) /\
   divide_loop (line :: rest) moves = divide_loop rest moves).
Proof.
  cbn [divide_loop]. unfold divide_entry.
  destruct (Py.contains ":" (Py.strip line)) eqn:Hc; cbn [andb];
    [ | right; split; [intros m n (H & _); discriminate | reflexivity]].
  destruct (Py.startswith (Py.strip line) "Nodes") eqn:H1; cbn [andb negb];
    [right; split; [intros m n (_ & H & _); discriminate | reflexivity] | ].
  destruct (Py.startswith (Py.strip line) "Time") eqn:H2; cbn [andb negb];
    [right; split; [intros m n (_ & _ & H & _); discriminate | reflexivity] | ].
  destruct (Py.startswith (Py.strip line) "NPS") eqn:H3; cbn [andb negb];
    [right; split; [intros m n (_ & _ & _ & H & _); discriminate | reflexivity] | ].
  destruct (Py.split ":" (Py.strip line)) as [| p0 [| p1 [| p2 ps]]] eqn:Hs;
    try (right; split;
         [intros m n (_ & _ & _ & _ & q0 & q1 & Hq & _); discriminate | reflexivity]).
  destruct (Py.int_of_str (Py.strip p1)) as [nodes | e] eqn:Hn.
  - left. exists (Py.strip p0), nodes. split; [ | reflexivity].
    repeat (split; [reflexivity | ]). exists p0, p1. auto.
  - right. split; [ | reflexivity].
    intros m n (_ & _ & _ & _ & q0 & q1 & Hq & _ & Hq1).
    injection Hq as <- <-. rewrite Hn in Hq1. discriminate.
Qed.

Lemma divide_loop_app (before after : list string) :
  forall moves,
    divide_loop (before ++ after) moves = divide_loop after (divide_loop before moves).
Proof.
  induction before as [| line before IH]; intros moves; [reflexivity | ].
  change ((line :: before) ++ after) with (line :: (before ++ after)).
  destruct (divide_step line before moves) as [(m & n & Hm & ->) | [Hno ->]].
  - destruct (divide_step line (before ++ after) moves) as [(m' & n' & Hm' & ->) | [Hno' ->]].
    + destruct (divide_entry_unique _ _ _ _ _ Hm Hm') as [<- <-]. apply IH.
    + exfalso. exact (Hno' m n Hm).
  - destruct (divide_step line (before ++ after) moves) as [(m' & n' & Hm' & ->) | [Hno' ->]].
    + exfalso. exact (Hno m' n' Hm').
    + apply IH.
Qed.

Lemma divide_loop_keeps (move : string) (after : list string) :
  forall moves,
    (forall line n, In line after -> ~ divide_entry line move n) ->
    dict_get (divide_loop after moves) move = dict_get moves move.
Proof.
  induction after as [| line after IH]; intros moves Hnone; [reflexivity | ].
  assert (Hrest : forall l n, In l after -> ~ divide_entry l move n)
    by (intros l n Hl; apply Hnone; right; exact Hl).
  destruct (divide_step line after moves) as [(m & n & Hm & ->) | [Hno ->]].
  - rewrite IH by exact Hrest. rewrite dict_get_set.
    destruct (String.eqb m move) eqn:E; [ | reflexivity].
    apply String.eqb_eq in E. subst m. exfalso.
    exact (Hnone line n (or_introl eq_refl) Hm).
  - apply IH. exact Hrest.
Qed.

Lemma divide_loop_last (move : string) (nodes : Z) (lines : list string) :
  forall moves,
    dict_get (divide_loop lines moves) move = Some nodes ->
    (dict_get moves move = Some nodes /\
     forall line n, In line lines -> ~ divide_entry line move n) \/
    (exists before line after,
       lines = before ++ line :: after /\ divide_entry line move nodes /\
       forall l n, In l after -> ~ divide_entry l move n).
Proof.
  induction lines as [| line lines IH]; intros moves Hget.
  - left. split; [exact Hget | intros l n []].
  - destruct (divide_step line lines moves) as [(m & n & Hm & Hstep) | [Hno Hstep]];
      rewrite Hstep in Hget;
      destruct (IH _ Hget) as [[Hold Hnone] | (before & l & after & -> & Hl & Hafter)].
    + rewrite dict_get_set in Hold. destruct (String.eqb m move) eqn:E.
      * apply String.eqb_eq in E. subst m. injection Hold as ->.
        right. exists [], line, lines. auto.
      * left. split; [exact Hold | ].
        intros l k [<- | Hl] Hk; [ | exact (Hnone l k Hl Hk)].
        destruct (divide_entry_unique _ _ _ _ _ Hm Hk) as [-> _].
        rewrite String.eqb_refl in E. discriminate.
    + right. exists (line :: before), l, after. auto.
    + left. split; [exact Hold | ].
      intros l k [<- | Hl] Hk; [exact (Hno move k Hk) | exact (Hnone l k Hl Hk)].
    + right. exists (line :: before), l, after. auto.
Qed.

(** X21. [run_divide] returns the empty dictionary when the engine does not
    end within 300 seconds or cannot be started. Otherwise a move has a count
    in the result exactly when some line of the output reads as a count for
    it (a stripped line with one colon that does not start with [Nodes],
    [Time] or [NPS], the stripped text before the colon being the move and
    the stripped text after it an integer), and the count is that of the last
    such line. *)
Theorem run_divide_entries (engine : string -> Py.process) (fen : string) (depth : Z) :
  (exceeds 300 (engine (commands fen depth true)) \/
   engine (commands fen depth true) = Py.CannotStart ->
   run_divide engine fen depth = []) /\
  (forall elapsed stdout,
     engine (commands fen depth true) = Py.Exits elapsed stdout ->
     elapsed <= 300 ->
     forall move nodes,
       dict_get (run_divide engine fen depth) move = Some nodes <->
       exists before line after,
         Py.split Py.LF stdout = before ++ line :: after /\
         divide_entry line move nodes /\
         forall l n, In l after -> ~ divide_entry l move n).
Proof.
  unfold run_divide. split.
  - intros [Hlate | Hstart].
    + rewrite (exceeds_raises _ _ Hlate). reflexivity.
    + rewrite Hstart. reflexivity.
  - intros elapsed stdout Hrun Hin move nodes.
    rewrite Hrun, subprocess_run_in_time by exact Hin.
    cbn [Py.bind Py.try_except]. split.
    + intros Hget.
      destruct (divide_loop_last _ _ _ _ Hget) as [[Hold _] | H]; [discriminate | exact H].
    + intros (before & line & after & -> & Hline & Hafter).
      rewrite divide_loop_app.
      destruct (divide_step line after (divide_loop before []))
        as [(m & n & Hm & ->) | [Hno _]]; [ | exfalso; exact (Hno _ _ Hline)].
      destruct (divide_entry_unique _ _ _ _ _ Hline Hm) as [<- <-].
      rewrite divide_loop_keeps by exact Hafter.
      rewrite dict_get_set, String.eqb_refl. reflexivity.
Qed.

Lemma run_divide_entries_witness :
  dict_get (run_divide Demo.dividing Demo.startpos 2) "b2b3" = Some 420%Z.
Proof.
  apply (proj2 (run_divide_entries Demo.dividing Demo.startpos 2) 1
           ("a2a3: 380" ++ Py.LF ++ "b2b3: 420" ++ Py.LF ++ Py.LF ++ "Nodes: 800"
            ++ Py.LF)%string eq_refl ltac:(lra)).
  exists ["a2a3: 380"%string], "b2b3: 420"%string, [""; "Nodes: 800"; ""]%string.
  split; [vm_compute; reflexivity | ]. split.
  - unfold divide_entry. repeat (split; [vm_compute; reflexivity | ]).
    exists "b2b3"%string, " 420"%string. repeat split; vm_compute; reflexivity.
  - intros l n [<- | [<- | [<- | []]]] (Hc & Hn & _); vm_compute in Hc, Hn; discriminate.
Defined.


(** ** [main] of the perft harness *)

Lemma find_engine_first_raise (fs : FileSystem) (e : Py.exn) :
  find_engine fs = Py.Raise e -> e = Py.OSError /\ find_engine fs = Py.Raise Py.OSError.
Proof.
  unfold find_engine. intros He.
  destruct (find_in_cases fs possible_paths) as [(p & before & after & Hp & _) | [Hraise _]].
  - rewrite He in Hp. discriminate.
  - rewrite He in Hraise. injection Hraise as ->. auto.
Qed.

Lemma engine_found_cases (args : Args.t) (fs : FileSystem) :
  (exists path,
     engine_found args fs path /\
     match given (Args.engine args) with
     | Some path => Py.Ok path
     | None => find_engine fs
     end = Py.Ok path) \/
  ((forall path, ~ engine_found args fs path) /\
   match given (Args.engine args) with
   | Some path => Py.Ok path
   | None => find_engine fs
   end = Py.Raise Py.OSError).
Proof.
  unfold engine_found. destruct (given (Args.engine args)) as [asked | ].
  - left. exists asked. auto.
  - destruct (find_engine fs) as [path | e] eqn:E.
    + left. exists path. auto.
    + right. destruct (find_engine_first_raise fs e E) as [-> _].
      split; [ | reflexivity]. intros path H. discriminate.
Qed.

Lemma engine_found_unique (args : Args.t) (fs : FileSystem) (path path' : string) :
  engine_found args fs path -> engine_found args fs path' -> path = path'.
Proof.
  unfold engine_found. destruct (given (Args.engine args)); intros H H'; congruence.
Qed.

Lemma main_with_engine (args : Args.t) (fs : FileSystem)
    (program : string -> string -> Py.process) (path : string) :
  engine_found args fs path ->
  main args fs program
  = if negb (run_perft (program path)
               "rnbqkbnr/pppppppp/8/8/8/8/PPPPPPPP/RNBQKBNR w KQkq - 0 1" 1 false =? 20)%Z
    then Py.Ok (Exit 1)
    else
      match given (Args.fen args) with
      | Some _ => Py.Ok Returns
      | None =>
          match Args.position args with
          | Some index =>
              if (0 <=? index)%Z && (index <? 6)%Z then
                match nth_error PERFT_POSITIONS (Z.to_nat index) with
                | Some position =>
                    if Args.divide args then Py.Ok Returns
                    else Py.Ok (Exit (if test_position (program path) position
                                            (Args.depth args) then 0 else 1))
                | None => Py.Raise Py.IndexError
                end
              else Py.Ok (Exit 1)
          | None =>
              Py.Ok (Exit (if run_all_tests (program path) (Args.depth args) then 0 else 1))
          end
      end.
Proof.
  intros Hfound. unfold main.
  destruct (engine_found_cases args fs) as [(p & Hp & ->) | [Hno _]];
    [ | exfalso; exact (Hno path Hfound)].
  rewrite (engine_found_unique _ _ _ _ Hp Hfound).
  cbn [Py.getitem nth_error PERFT_POSITIONS Py.bind PerftPosition.fen].
  destruct (negb _); [reflexivity | ].
  destruct (given (Args.fen args));
    [destruct (Args.divide args); reflexivity | ].
  destruct (Args.position args) as [index | ]; [ | reflexivity].
  change (Z.of_nat (length PERFT_POSITIONS)) with 6%Z.
  destruct ((0 <=? index)%Z && (index <? 6)%Z); [ | reflexivity].
  unfold Py.getitem. destruct (nth_error PERFT_POSITIONS (Z.to_nat index));
    cbn [Py.bind]; [ | reflexivity].
  destruct (Args.divide args); reflexivity.
Qed.

Lemma main_cases (args : Args.t) (fs : FileSystem)
    (program : string -> string -> Py.process) (path : string) :
  engine_found args fs path ->
  (~ sane (program path) /\ main args fs program = Py.Ok (Exit 1)) \/
  (sane (program path) /\
   ((given (Args.fen args) <> None /\ main args fs program = Py.Ok Returns) \/
    (given (Args.fen args) = None /\
     ((Args.position args = None /\
       main args fs program
       = Py.Ok (Exit (if run_all_tests (program path) (Args.depth args) then 0 else 1))) \/
      (exists index,
         Args.position args = Some index /\
         ((~ (0 <= index < 6)%Z /\ main args fs program = Py.Ok (Exit 1)) \/
          ((0 <= index < 6)%Z /\
           exists position,
             nth_error PERFT_POSITIONS (Z.to_nat index) = Some position /\
             ((Args.divide args = true /\ main args fs program = Py.Ok Returns) \/
              (Args.divide args = false /\
               main args fs program
               = Py.Ok (Exit (if test_position (program path) position (Args.depth args)
                              then 0 else 1))))))))))).
Proof.
  intros Hfound. rewrite (main_with_engine _ _ _ _ Hfound). unfold sane.
  destruct (run_perft (program path) _ 1 false =? 20)%Z eqn:Hs; cbn [negb].
  2: { apply Z.eqb_neq in Hs. left. auto. }
  apply Z.eqb_eq in Hs. right. split; [exact Hs | ].
  destruct (given (Args.fen args)) as [fen | ]; [left; split; [discriminate | reflexivity] | ].
  right. split; [reflexivity | ].
  destruct (Args.position args) as [index | ]; [ | left; auto].
  right. exists index. split; [reflexivity | ].
  destruct ((0 <=? index)%Z && (index <? 6)%Z) eqn:Hrange.
  - apply andb_prop in Hrange. destruct Hrange as [Hlo Hhi].
    apply Z.leb_le in Hlo. apply Z.ltb_lt in Hhi. right. split; [lia | ].
    destruct (nth_error PERFT_POSITIONS (Z.to_nat index)) as [position | ] eqn:Hnth.
    + exists position. split; [reflexivity | ].
      destruct (Args.divide args); [left | right]; auto.
    + exfalso. apply nth_error_None in Hnth.
      change (length PERFT_POSITIONS) with 6%nat in Hnth. lia.
  - left. split; [ | reflexivity]. intros [Hlo Hhi].
    apply Z.leb_le in Hlo. apply Z.ltb_lt in Hhi. rewrite Hlo, Hhi in Hrange. discriminate.
Qed.

(** X22. [main] of the perft harness raises no exception and ends in one of
    three ways: [sys.exit(0)], [sys.exit(1)], or by returning. It exits with
    [1] when no engine is found, or when the engine found does not count [20]
    moves at depth [1] from the initial position. It exits with [0] exactly
    when that check passes, no [--fen] is given, and either no [--position]
    is given and [run_all_tests] passes, or [--position] is an index from [0]
    to [5], [--divide] is off and [test_position] passes for it. It returns,
    with no verdict on any count, exactly when the check passes and [--fen]
    is given (and not empty) or a valid [--position] comes with [--divide].
    [--all-positions] and [--quiet] change nothing of this. *)
Theorem main_exit_status (args : Args.t) (fs : FileSystem)
    (program : string -> string -> Py.process) :
  (exists o,
     main args fs program = Py.Ok o /\ (o = Exit 0 \/ o = Exit 1 \/ o = Returns)) /\
  ((forall path, ~ engine_found args fs path) -> main args fs program = Py.Ok (Exit 1)) /\
  (forall path,
     engine_found args fs path -> ~ sane (program path) ->
     main args fs program = Py.Ok (Exit 1)) /\
  (main args fs program = Py.Ok (Exit 0) <->
   exists path,
     engine_found args fs path /\ sane (program path) /\
     given (Args.fen args) = None /\
     ((Args.position args = None /\
       run_all_tests (program path) (Args.depth args) = true) \/
      (exists index position,
         Args.position args = Some index /\ (0 <= index < 6)%Z /\
         nth_error PERFT_POSITIONS (Z.to_nat index) = Some position /\
         Args.divide args = false /\
         test_position (program path) position (Args.depth args) = true))) /\
  (main args fs program = Py.Ok Returns <->
   exists path,
     engine_found args fs path /\ sane (program path) /\
     (given (Args.fen args) <> None \/
      (exists index,
         Args.position args = Some index /\ (0 <= index < 6)%Z /\
         Args.divide args = true))) /\
  (forall all_positions quiet,
     main (Args.mk (Args.depth args) all_positions (Args.position args) (Args.fen args)
             (Args.divide args) (Args.engine args) quiet) fs program
     = main args fs program).
Proof.
  assert (Hnone : (forall path, ~ engine_found args fs path) ->
                  main args fs program = Py.Ok (Exit 1)).
  { intros Hno. unfold main.
    destruct (engine_found_cases args fs) as [(p & Hp & _) | [_ ->]]; [ | reflexivity].
    exfalso. exact (Hno p Hp). }
  split; [ | split; [exact Hnone | split; [ | split; [ | split]]]].
  - destruct (engine_found_cases args fs) as [(path & Hfound & _) | [Hno _]];
      [ | exists (Exit 1); split; [apply Hnone; exact Hno | auto]].
    destruct (main_cases args fs program path Hfound)
      as [[_ ->] | [_ [[_ ->] | [_ [[_ ->] | (index & _ & [[_ ->] | [_ (position & _ &
            [[_ ->] | [_ ->]])]])]]]]]; eexists; (split; [reflexivity | ]); auto;
      match goal with |- context [if ?b then _ else _] => destruct b end; auto.
  - intros path Hfound Hinsane.
    destruct (main_cases args fs program path Hfound) as [[_ H] | [Hsane _]];
      [exact H | contradiction].
  - split.
    + intros Hmain.
      destruct (engine_found_cases args fs) as [(path & Hfound & _) | [Hno _]];
        [ | rewrite (Hnone Hno) in Hmain; discriminate].
      exists path. split; [exact Hfound | ].
      destruct (main_cases args fs program path Hfound)
        as [[_ H] | [Hsane [[_ H] | [Hfen [[Hpos H] | (index & Hpos & [[_ H] |
              [Hrange (position & Hnth & [[_ H] | [Hdiv H]])]])]]]]];
        rewrite H in Hmain; try discriminate.
      * split; [exact Hsane | ]. split; [exact Hfen | ]. left. split; [exact Hpos | ].
        destruct (run_all_tests (program path) (Args.depth args));
          [reflexivity | discriminate].
      * split; [exact Hsane | ]. split; [exact Hfen | ]. right.
        exists index, position. repeat (split; [assumption | ]).
        destruct (test_position (program path) position (Args.depth args));
          [reflexivity | discriminate].
    + intros (path & Hfound & Hsane & Hfen & Hcase).
      destruct (main_cases args fs program path Hfound)
        as [[Hinsane _] | [_ [[Hfen' _] | [_ [[Hpos H] | (index & Hpos & [[Hout H] |
              [Hrange (position & Hnth & [[Hdiv H] | [Hdiv H]])]])]]]]];
        try contradiction; rewrite H;
        destruct Hcase as [[Hpos' Hall] | (i & p & Hpos' & Hrange' & Hnth' & Hdiv' & Hpass)];
        try congruence.
      * rewrite Hall. reflexivity.
      * rewrite Hpos in Hpos'. injection Hpos' as <-.
        rewrite Hnth in Hnth'. injection Hnth' as <-. rewrite Hpass. reflexivity.
  - split.
    + intros Hmain.
      destruct (engine_found_cases args fs) as [(path & Hfound & _) | [Hno _]];
        [ | rewrite (Hnone Hno) in Hmain; discriminate].
      exists path. split; [exact Hfound | ].
      destruct (main_cases args fs program path Hfound)
        as [[_ H] | [Hsane [[Hfen H] | [Hfen [[Hpos H] | (index & Hpos & [[_ H] |
              [Hrange (position & Hnth & [[Hdiv H] | [Hdiv H]])]])]]]]];
        rewrite H in Hmain; try discriminate.
      * split; [exact Hsane | ]. left. exact Hfen.
      * split; [exact Hsane | ]. right. exists index. auto.
    + intros (path & Hfound & Hsane & Hcase).
      destruct (main_cases args fs program path Hfound)
        as [[Hinsane _] | [_ [[Hfen H] | [Hfen [[Hpos H] | (index & Hpos & [[Hout H] |
              [Hrange (position & Hnth & [[Hdiv H] | [Hdiv H]])]])]]]]];
        try contradiction; try exact H;
        destruct Hcase as [Hfen' | (i & Hpos' & Hrange' & Hdiv')]; try contradiction;
        try congruence.
  - intros all_positions quiet. reflexivity.
Qed.

Lemma main_exit_status_witness :
  main (Args.mk 5 true None None false (Some "./engine"%string) false) Demo.build_dir
    (fun _ => Demo.ignorant)
  = Py.Ok (Exit 1).
Proof.
  apply (proj1 (proj2 (proj2 (main_exit_status
           (Args.mk 5 true None None false (Some "./engine"%string) false) Demo.build_dir
           (fun _ => Demo.ignorant)))) "./engine"%string).
  - reflexivity.
  - unfold sane, run_perft, Demo.ignorant.
    rewrite subprocess_run_in_time by lra. vm_compute. discriminate.
Defined.


(** ** The options of the match engines *)

Lemma prefix_space (a : ascii) (s : string) :
  prefix " "%string (String a s) = Ascii.eqb " "%char a.
Proof.
  cbn [prefix]. destruct (ascii_dec " "%char a) as [<- | Hne].
  - rewrite Ascii.eqb_refl. destruct s; reflexivity.
  - destruct (Ascii.eqb " "%char a) eqn:E; [ | reflexivity].
    apply Ascii.eqb_eq in E. contradiction.
Qed.

Lemma contains_space_cons (a : ascii) (s : string) :
  Py.contains " "%string (String a s) = Ascii.eqb " "%char a || Py.contains " "%string s.
Proof.
  change (Py.contains " "%string (String a s))
    with (prefix " "%string (String a s) || Py.contains " "%string s).
  rewrite prefix_space. reflexivity.
Qed.

Lemma contains_space_empty : Py.contains " "%string ""%string = false.
Proof. reflexivity. Qed.

Lemma contains_space_app (s t : string) :
  Py.contains " "%string (s ++ t) = Py.contains " "%string s || Py.contains " "%string t.
Proof.
  induction s as [| a s IH].
  - rewrite contains_space_empty. reflexivity.
  - change (String a s ++ t)%string with (String a (s ++ t)).
    rewrite !contains_space_cons, IH, orb_assoc. reflexivity.
Qed.

Lemma split_space_word (w : string) :
  Py.contains " "%string w = false -> Py.split " "%string w = [w].
Proof.
  unfold Py.split. induction w as [| a w IH]; [reflexivity | ].
  rewrite contains_space_cons. intros H. apply orb_false_elim in H. destruct H as [Ha Hw].
  cbn [Py.split_from]. rewrite prefix_space, Ha, (IH Hw). reflexivity.
Qed.

Lemma split_space_first (w rest : string) :
  Py.contains " "%string w = false ->
  Py.split " "%string (w ++ " " ++ rest)%string = w :: Py.split " "%string rest.
Proof.
  unfold Py.split. induction w as [| a w IH].
  - intros _. change ("" ++ " " ++ rest)%string with (String " "%char rest).
    cbn [Py.split_from]. rewrite prefix_space, Ascii.eqb_refl. reflexivity.
  - rewrite contains_space_cons. intros H. apply orb_false_elim in H.
    destruct H as [Ha Hw].
    change (String a w ++ " " ++ rest)%string with (String a (w ++ " " ++ rest)%string).
    cbn [Py.split_from]. rewrite prefix_space, Ha, (IH Hw). reflexivity.
Qed.

Lemma split_join_space (xs : list string) :
  xs <> [] -> Forall (fun x => Py.contains " "%string x = false) xs ->
  Py.split " "%string (Py.join " "%string xs) = xs.
Proof.
  unfold Py.join. intros Hne Hall. induction Hall as [| x xs Hx Hxs IH]; [contradiction | ].
  destruct xs as [| y ys].
  - cbn [String.concat]. apply split_space_word. exact Hx.
  - change (String.concat " "%string (x :: y :: ys))
      with (x ++ " " ++ String.concat " " (y :: ys))%string.
    rewrite split_space_first by exact Hx. rewrite IH by discriminate. reflexivity.
Qed.

Lemma digits_no_space (d : Decimal.uint) :
  Py.contains " "%string (NilEmpty.string_of_uint d) = false.
Proof.
  induction d; cbn [NilEmpty.string_of_uint]; try reflexivity;
    rewrite contains_space_cons, IHd; reflexivity.
Qed.

Lemma string_of_uint_no_space (d : Decimal.uint) :
  Py.contains " "%string (NilZero.string_of_uint d) = false.
Proof.
  destruct d; try reflexivity; apply digits_no_space.
Qed.

Lemma str_of_int_no_space (n : Z) : Py.contains " "%string (Py.str_of_int n) = false.
Proof.
  unfold Py.str_of_int, NilZero.string_of_int.
  destruct (Z.to_int n) as [d | d].
  - apply string_of_uint_no_space.
  - rewrite contains_space_cons, string_of_uint_no_space. reflexivity.
Qed.

(** X23. [_build_engine_options] gives the empty string for an empty
    configuration. For any other configuration whose names hold no space,
    splitting its result at the spaces gives back one option per entry, in
    the order of the entries, each [option.<name>=<n>] with [n] the value cut
    to an integer towards zero, less than [1] away from the value: the
    options carry the integer parts only. *)
Theorem engine_options_split (perturbed_values : dict R) :
  _build_engine_options [] = ""%string /\
  (perturbed_values <> [] ->
   Forall (fun kv => Py.contains " "%string (fst kv) = false) perturbed_values ->
   Py.split " "%string (_build_engine_options perturbed_values)
   = map (fun kv => ("option." ++ fst kv ++ "="
                     ++ Py.str_of_int (Py.int_of_float (snd kv)))%string)
       perturbed_values /\
   length (Py.split " "%string (_build_engine_options perturbed_values))
   = length perturbed_values /\
   Forall (fun kv => Rabs (snd kv - IZR (Py.int_of_float (snd kv))) < 1) perturbed_values) /\
  (forall other,
     map fst other = map fst perturbed_values ->
     map (fun kv => Py.int_of_float (snd kv)) other
     = map (fun kv => Py.int_of_float (snd kv)) perturbed_values ->
     _build_engine_options other = _build_engine_options perturbed_values).
Proof.
  split; [reflexivity | split].
  - intros Hne Hnames. unfold _build_engine_options.
    rewrite split_join_space.
    + split; [reflexivity | ]. split; [apply length_map | ].
      apply Forall_forall. intros kv _. apply int_of_float_near.
    + destruct perturbed_values; [contradiction | discriminate].
    + apply Forall_map. eapply Forall_impl; [ | exact Hnames]. cbn beta.
      intros kv Hkv. rewrite !contains_space_app, Hkv, str_of_int_no_space. reflexivity.
  - intros other. revert perturbed_values. unfold _build_engine_options.
    induction other as [| [k v] other IH]; intros [| [k' v'] d] Hkeys Hvals;
      try discriminate; [reflexivity | ].
    cbn [map fst snd] in Hkeys, Hvals. injection Hkeys as -> Hkeys.
    injection Hvals as Hv Hvals. cbn [map fst snd]. rewrite Hv.
    specialize (IH d Hkeys Hvals). unfold Py.join in *. cbn [String.concat].
    destruct (map _ other) eqn:E1; destruct (map _ d) eqn:E2.
    + reflexivity.
    + destruct other; destruct d; discriminate.
    + destruct other; destruct d; discriminate.
    + rewrite IH. reflexivity.
Qed.

Lemma engine_options_split_witness :
  Py.split " "%string (_build_engine_options [("PawnValueMG"%string, 100.6); ("KnightValueMG"%string, 319.2)])
  = map (fun kv => ("option." ++ fst kv ++ "="
                    ++ Py.str_of_int (Py.int_of_float (snd kv)))%string)
      [("PawnValueMG"%string, 100.6); ("KnightValueMG"%string, 319.2)].
Proof.
  apply (proj1 (proj2 (engine_options_split
                         [("PawnValueMG"%string, 100.6); ("KnightValueMG"%string, 319.2)]))).
  - discriminate.
  - repeat constructor.
Defined.

End Facts.
